(** * Medicine recommender: a shallow embedding of [medicine_recommender.py]

    The development follows the Python class [MedicineRecommender]:
    - [Text]: the string methods the class calls ([str.lower], [str.strip],
      the [in] substring test, [' '.join]);
    - [Py]: results that either return or raise, and methods of an object as
      state transformers that also write to standard output;
    - [Vectorizer]: the vocabulary fitted by the [TfidfVectorizer] that
      [build_vectorizer] configures (unigrams and bigrams, [min_df=1],
      [max_df=0.95]) and the idf weights of its [TfidfTransformer];
    - [Library]: the remaining numerical routines ([fit_transform],
      [cosine_similarity], [numpy.argsort]) taken through their contracts;
    - [Recommender]: the class itself, method by method;
    - [Tfidf]: [fit_transform] and [cosine_similarity] over the arithmetic
      of the weights, which is either exact ([reals]) or [Binary64];
    - [Main]: the command line of [main.py], its start-up and one turn of
      its loop;
    - [ManualCurator], [DataValidator], [DataEnricher]: the methods of the
      data tools that check, merge and complete the records of the database,
      and the merge step of [collect_medicines.py].

    Text is modelled as ASCII strings (code points below 128), on which
    [str.lower] changes exactly the letters [A]-[Z]. *)

From stdpp Require Import base gmap list strings sorting.
From Stdlib Require Import Ascii ZArith Reals Lra.
From Stdlib Require PrimFloat FloatOps Uint63.

Local Open Scope string_scope.
Local Open Scope list_scope.

(** ** Text *)

Module Text.

(** [str.lower] on ASCII text. *)
Definition lower_ascii (c : ascii) : ascii :=
  let n := nat_of_ascii c in
  if ((65 <=? n) && (n <=? 90))%nat then ascii_of_nat (n + 32) else c.

Fixpoint lower (s : string) : string :=
  match s with
  | EmptyString => EmptyString
  | String c s' => String (lower_ascii c) (lower s')
  end.

(** The characters [str.strip] removes when called without argument:
    tab, line feed, vertical tab, form feed, carriage return, the four
    separators 28-31 and the space. *)
Definition is_space (c : ascii) : bool :=
  let n := nat_of_ascii c in
  (((9 <=? n) && (n <=? 13)) || ((28 <=? n) && (n <=? 32)))%nat.

Fixpoint lstrip (s : string) : string :=
  match s with
  | EmptyString => EmptyString
  | String c s' => if is_space c then lstrip s' else s
  end.

Fixpoint rstrip (s : string) : string :=
  match s with
  | EmptyString => EmptyString
  | String c s' =>
      match rstrip s' with
      | EmptyString => if is_space c then EmptyString else String c EmptyString
      | r => String c r
      end
  end.

Definition strip (s : string) : string := rstrip (lstrip s).

(** [sub in s] on strings. *)
Fixpoint contains (sub s : string) : bool :=
  String.prefix sub s ||
  match s with
  | EmptyString => false
  | String _ s' => contains sub s'
  end.

(** [sep.join(parts)]. *)
Fixpoint join (sep : string) (parts : list string) : string :=
  match parts with
  | [] => EmptyString
  | [p] => p
  | p :: ps => (p ++ sep ++ join sep ps)%string
  end.

Definition all_space (s : string) : Prop :=
  Forall (fun c => is_space c = true) (String.list_ascii_of_string s).

End Text.

(** ** Python results and methods *)

Module Py.

Inductive exception := KeyError | IndexError | ValueError.

Inductive result (A : Type) :=
| Returns (a : A)
| Raises (e : exception).
Arguments Returns {A} a.
Arguments Raises {A} e.

(** What a method call leaves behind: its result, the object afterwards
    and the lines it printed. *)
Record outcome (S M A : Type) := Outcome {
  value : result A;
  self_after : S;
  printed : list M
}.
Arguments Outcome {S M A} value self_after printed.
Arguments value {S M A} o.
Arguments self_after {S M A} o.
Arguments printed {S M A} o.

Definition method (S M A : Type) : Type := S -> outcome S M A.

Definition ret {S M A} (a : A) : method S M A :=
  fun self => Outcome (Returns a) self [].

Definition bind {S M A B} (m : method S M A) (k : A -> method S M B)
  : method S M B :=
  fun self =>
    let o := m self in
    match value o with
    | Returns a =>
        let o' := k a (self_after o) in
        Outcome (value o') (self_after o') (printed o ++ printed o')
    | Raises e => Outcome (Raises e) (self_after o) (printed o)
    end.

Definition get {S M} : method S M S :=
  fun self => Outcome (Returns self) self [].

Definition put {S M} (self' : S) : method S M unit :=
  fun _ => Outcome (Returns tt) self' [].

Definition print {S M} (line : M) : method S M unit :=
  fun self => Outcome (Returns tt) self [line].

(** A pure computation that may raise, run inside a method. *)
Definition lift {S M A} (r : result A) : method S M A :=
  fun self => Outcome r self [].

#[global] Instance method_ret {S M} : MRet (method S M) := @ret S M.
#[global] Instance method_bind {S M} : MBind (method S M) :=
  fun A B k m => bind m k.

#[global] Instance result_ret : MRet result := @Returns.
#[global] Instance result_bind : MBind result :=
  fun A B k r => match r with Returns a => k a | Raises e => Raises e end.

End Py.

Import Py.

(** ** The vectorizer built by [build_vectorizer]

    [TfidfVectorizer(lowercase=True, analyzer='word', ngram_range=(1, 2),
    min_df=1, max_df=0.95)] is a [CountVectorizer] followed by a
    [TfidfTransformer].  The count matrix is kept column by column: each
    vocabulary term comes with its column of per-document counts. *)

Module Vectorizer.
Import Text.

(** The document-frequency bounds passed at lines 74-75. *)
Definition min_df : nat := 1.
Definition max_df_percent : nat := 95.

(** [\w] on ASCII text: letters, digits and the underscore. *)
Definition is_word (c : ascii) : bool :=
  let n := nat_of_ascii c in
  (((48 <=? n) && (n <=? 57)) || ((65 <=? n) && (n <=? 90)) ||
   ((97 <=? n) && (n <=? 122)) || (n =? 95))%nat.

(** The default token pattern keeps the maximal runs of word characters
    that are at least two characters long. *)
Definition flush (run : string) : list string :=
  if (2 <=? String.length run)%nat then [run] else [].

Fixpoint tokens_from (s run : string) : list string :=
  match s with
  | EmptyString => flush run
  | String c s' =>
      if is_word c then tokens_from s' (run ++ String c EmptyString)%string
      else flush run ++ tokens_from s' EmptyString
  end.

Definition tokenize (s : string) : list string := tokens_from s EmptyString.

Fixpoint bigrams (tokens : list string) : list string :=
  match tokens with
  | a :: (b :: _) as rest => (a ++ " " ++ b)%string :: bigrams rest
  | _ => []
  end.

(** [ngram_range=(1, 2)]: the unigrams first, then the bigrams, as
    [_word_ngrams] lists them. *)
Definition word_ngrams (tokens : list string) : list string :=
  tokens ++ bigrams tokens.

Definition analyze (doc : string) : list string :=
  word_ngrams (tokenize (lower doc)).

(** Terms in the order in which the corpus first shows them. *)
Definition first_seen (feats : list string) : list string :=
  foldl (fun acc t => if decide (t ∈ acc) then acc else acc ++ [t]) [] feats.

Definition count (t : string) (feats : list string) : nat :=
  length (filter (fun f => f = t) feats).

Definition column : Type := string * list nat.

Definition count_vocab (docs : list string) : result (list column) :=
  let analyzed := analyze <$> docs in
  match first_seen (concat analyzed) with
  | [] => Raises ValueError
  | vocab => Returns ((fun t => (t, count t <$> analyzed)) <$> vocab)
  end.

(** The number of documents with a non-zero count in a column. *)
Definition document_frequency (col : list nat) : nat :=
  length (filter (fun c => 0 < c) col).

(** [min_df <= df <= max_df * n_doc], the bounds of [_limit_features];
    the product with 0.95 is compared as a fraction of 100. *)
Definition within_bounds (n_doc dfc : nat) : bool :=
  ((min_df <=? dfc) && (100 * dfc <=? max_df_percent * n_doc))%nat.

Definition limit_features (n_doc : nat) (cols : list column)
  : result (list column) :=
  match filter (fun col => within_bounds n_doc (document_frequency col.2) = true) cols with
  | [] => Raises ValueError
  | kept => Returns kept
  end.

Definition term_le (a b : column) : Prop := String.leb a.1 b.1 = true.

#[global] Instance term_le_dec : RelDecision term_le :=
  fun a b => decide (String.leb a.1 b.1 = true).

Definition sort_features (cols : list column) : list column :=
  merge_sort term_le cols.

(** [CountVectorizer.fit_transform]: the fitted vocabulary with the count
    columns, or [ValueError] when the corpus has no term, when
    [max_df * n_doc < min_df], or when no term survives the bounds. *)
Definition count_fit_transform (docs : list string) : result (list column) :=
  cols ← count_vocab docs;
  let n_doc := length docs in
  if (max_df_percent * n_doc <? 100 * min_df)%nat then Raises ValueError
  else
    kept ← limit_features n_doc cols;
    mret (sort_features kept).

Definition vocabulary_ (cols : list column) : list string := cols.*1.

(** The document frequency of a term over a corpus: the number of
    documents whose analysis shows the term at least once. *)
Definition df (docs : list string) (t : string) : nat :=
  length (filter (fun doc => t ∈ analyze doc) docs).

(** [TfidfTransformer.fit] with [smooth_idf=True], over the arithmetic of
    the weights: [idf = log(n_samples / df) + 1] after adding one to both
    counts. *)
Section Idf.
Context {F : Type}.
Variable of_nat : nat -> F.
Variables fdiv fadd : F -> F -> F.
Variable flog : F -> F.

Definition idf (n_samples dfc : nat) : F :=
  fadd (flog (fdiv (of_nat (n_samples + 1)) (of_nat (dfc + 1)))) (of_nat 1).

Definition idf_ (n_samples : nat) (cols : list column) : list F :=
  (fun col => idf n_samples (document_frequency col.2)) <$> cols.
End Idf.

End Vectorizer.

Import Vectorizer.

(** ** The numerical library

    What [recommend_similar] and [train_model] need from scikit-learn and
    NumPy.  Scores are the finite floating-point numbers of one similarity
    array, compared by [<=]; nothing else about their values is used by the
    class.  [numpy.argsort] returns the indices that sort its argument in
    ascending order; its default sort makes no promise on the order of equal
    keys. *)

Class Library := {
  score : Type;
  score_le : relation score;
  score_le_dec :: RelDecision score_le;
  vector : Type;
  model : Type;
  fit_transform : list string -> result (model * list vector);
  n_columns : list vector -> nat;
  cosine_similarity : vector -> list vector -> list score;
  argsort : list score -> list nat
}.

(** The contracts: scores are totally ordered, [fit_transform] returns one
    row per document, [cosine_similarity] one score per row, and [argsort] a
    permutation of the positions that lists the scores in ascending order. *)
Class LibraryLaws (L : Library) : Prop := {
  score_le_trans :: Transitive score_le;
  score_le_total :: Total score_le;
  fit_transform_rows : forall docs m X,
    fit_transform docs = Returns (m, X) -> length X = length docs;
  cosine_similarity_length : forall v X,
    length (cosine_similarity v X) = length X;
  argsort_permutation : forall s, argsort s ≡ₚ seq 0 (length s);
  argsort_ascending : forall s,
    StronglySorted
      (fun a b => forall x y, s !! a = Some x -> s !! b = Some y -> score_le x y)
      (argsort s)
}.

(** The insertion sort NumPy falls back to on short arrays, on indices: an
    index moves left past the strictly larger keys only, so equal keys stay
    in index order. *)

Section StableArgsort.
Context {A : Type} (le : relation A) `{!RelDecision le}.

Fixpoint insert_key (p : nat * A) (sorted : list (nat * A)) : list (nat * A) :=
  match sorted with
  | [] => [p]
  | q :: rest =>
      if decide (le q.2 p.2) then q :: insert_key p rest
      else p :: q :: rest
  end.

Definition enumerate (s : list A) : list (nat * A) :=
  zip (seq 0 (length s)) s.

Definition stable_argsort (s : list A) : list nat :=
  (foldl (fun sorted p => insert_key p sorted) [] (enumerate s)).*1.
End StableArgsort.

(** ** The recommender *)

Record medicine := Medicine {
  name : string;
  uses : list string;
  components : list string;
  category : option string;
  description : option string
}.

(** What [open] and [json.load] find at [database_path]: no file, a file
    that is not JSON, or a document with or without a [medicines] key. *)
Inductive database :=
| Missing
| Malformed
| Document (medicines_key : option (list medicine)).

(** The lines the class prints. *)
Inductive line :=
| Loaded (n : nat)
| DatabaseNotFound (path : string)
| InvalidJSON (path : string)
| NoMedicinesLoaded
| ModelTrained (n : nat)
| FeatureSpace (dimensions : nat)
| ModelNotTrained
| MedicineNotFound (medicine_name : string).

Definition getitem {A} (l : list A) (idx : nat) : result A :=
  match l !! idx with
  | Some x => Returns x
  | None => Raises IndexError
  end.

Definition getkey {A} (d : gmap string A) (key : string) : result A :=
  match d !! key with
  | Some x => Returns x
  | None => Raises KeyError
  end.

(** The dict comprehension of [load_database]: a later record overwrites an
    earlier one with the same lowercased name. *)
Definition index_map (meds : list medicine) : gmap string nat :=
  foldl (fun m p => <[Text.lower (name p.2) := p.1]> m) ∅
        (zip (seq 0 (length meds)) meds).

Definition prepare_features (med : medicine) : string :=
  Text.strip (Text.join " " (uses med) ++ " " ++ Text.join " " (components med))%string.

(** The fuzzy search loop of [find_medicine]. *)
Fixpoint partial_match (name_lower : string) (meds : list medicine)
  : option medicine :=
  match meds with
  | [] => None
  | med :: rest =>
      if Text.contains name_lower (Text.lower (name med)) then Some med
      else partial_match name_lower rest
  end.

Section Recommender.
Context {L : Library}.

Inductive vectorizer_state :=
| Unfitted
| Fitted (m : model).

Record MedicineRecommender := {
  database_path : string;
  medicines : list medicine;
  vectorizer : option vectorizer_state;
  feature_vectors : option (list vector);
  medicine_index_map : gmap string nat
}.

Definition init (path : string) : MedicineRecommender :=
  {| database_path := path; medicines := []; vectorizer := None;
     feature_vectors := None; medicine_index_map := ∅ |}.

Definition set_medicines (meds : list medicine) (self : MedicineRecommender) :=
  {| database_path := database_path self; medicines := meds;
     vectorizer := vectorizer self; feature_vectors := feature_vectors self;
     medicine_index_map := medicine_index_map self |}.

Definition set_medicine_index_map (m : gmap string nat) (self : MedicineRecommender) :=
  {| database_path := database_path self; medicines := medicines self;
     vectorizer := vectorizer self; feature_vectors := feature_vectors self;
     medicine_index_map := m |}.

Definition set_vectorizer (v : option vectorizer_state) (self : MedicineRecommender) :=
  {| database_path := database_path self; medicines := medicines self;
     vectorizer := v; feature_vectors := feature_vectors self;
     medicine_index_map := medicine_index_map self |}.

Definition set_feature_vectors (X : option (list vector)) (self : MedicineRecommender) :=
  {| database_path := database_path self; medicines := medicines self;
     vectorizer := vectorizer self; feature_vectors := X;
     medicine_index_map := medicine_index_map self |}.

Local Abbreviation Method := (method MedicineRecommender line).

Definition modify (f : MedicineRecommender -> MedicineRecommender) : Method unit :=
  self ← get; put (f self).

Definition load_database (db : database) : Method bool :=
  self ← get;
  match db with
  | Missing => print (DatabaseNotFound (database_path self));; mret false
  | Malformed => print (InvalidJSON (database_path self));; mret false
  | Document data =>
      modify (set_medicines (default [] data));;
      self ← get;
      modify (set_medicine_index_map (index_map (medicines self)));;
      self ← get;
      print (Loaded (length (medicines self)));;
      mret true
  end.

Definition build_vectorizer : Method unit :=
  modify (set_vectorizer (Some Unfitted)).

Definition train_model : Method bool :=
  self ← get;
  match medicines self with
  | [] => print NoMedicinesLoaded;; mret false
  | _ =>
      (match vectorizer self with
       | None => build_vectorizer
       | Some _ => mret tt
       end);;
      self ← get;
      let feature_texts := map prepare_features (medicines self) in
      fitted ← lift (fit_transform feature_texts);
      modify (set_vectorizer (Some (Fitted fitted.1)));;
      modify (set_feature_vectors (Some fitted.2));;
      self ← get;
      print (ModelTrained (length (medicines self)));;
      print (FeatureSpace (n_columns fitted.2));;
      mret true
  end.

Definition find_medicine (name : string) : Method (option medicine) :=
  self ← get;
  let name_lower := Text.strip (Text.lower name) in
  match medicine_index_map self !! name_lower with
  | Some idx =>
      med ← lift (getitem (medicines self) idx);
      mret (Some med)
  | None => mret (partial_match name_lower (medicines self))
  end.

(** The loop that builds the results list: [continue] on the query's own
    index, [break] once [top_n] entries are there. *)
Fixpoint build_results (meds : list medicine) (similarities : list score)
    (input_idx : nat) (top_n : Z) (exclude_self : bool)
    (similar_indices : list nat) (recommendations : list (medicine * score))
  : result (list (medicine * score)) :=
  match similar_indices with
  | [] => Returns recommendations
  | idx :: rest =>
      if exclude_self && bool_decide (idx = input_idx) then
        build_results meds similarities input_idx top_n exclude_self rest
          recommendations
      else
        similarity_score ← getitem similarities idx;
        med ← getitem meds idx;
        let recommendations := recommendations ++ [(med, similarity_score)] in
        if bool_decide (Z.of_nat (length recommendations) >= top_n)%Z then
          Returns recommendations
        else
          build_results meds similarities input_idx top_n exclude_self rest
            recommendations
  end.

(** [top_n] defaults to 5 and [exclude_self] to [True]. *)
Definition recommend_similar (medicine_name : string) (top_n : Z)
    (exclude_self : bool) : Method (list (medicine * score)) :=
  self ← get;
  match feature_vectors self with
  | None => print ModelNotTrained;; mret []
  | Some X =>
      input_medicine ← find_medicine medicine_name;
      match input_medicine with
      | None => print (MedicineNotFound medicine_name);; mret []
      | Some input_medicine =>
          input_idx ← lift (getkey (medicine_index_map self)
                                   (Text.lower (name input_medicine)));
          input_vector ← lift (getitem X input_idx);
          let similarities := cosine_similarity input_vector X in
          let similar_indices := reverse (argsort similarities) in
          lift (build_results (medicines self) similarities input_idx top_n
                  exclude_self similar_indices [])
      end
  end.

(** The recommender once [train_model] has made sure a vectorizer exists. *)
Definition with_vectorizer (self : MedicineRecommender) : MedicineRecommender :=
  match vectorizer self with
  | None => set_vectorizer (Some Unfitted) self
  | Some _ => self
  end.

(** [find_medicine] as a function of the object it reads. *)
Definition lookup_medicine (self : MedicineRecommender) (q : string)
  : result (option medicine) :=
  let name_lower := Text.strip (Text.lower q) in
  match medicine_index_map self !! name_lower with
  | Some idx => med ← getitem (medicines self) idx; mret (Some med)
  | None => mret (partial_match name_lower (medicines self))
  end.

(** The similarity array [recommend_similar] sorts. *)
Definition query_similarities (self : MedicineRecommender) (X : list vector)
    (input_medicine : medicine) : result (list score) :=
  input_idx ← getkey (medicine_index_map self) (Text.lower (name input_medicine));
  input_vector ← getitem X input_idx;
  mret (cosine_similarity input_vector X).

(** The ranking [recommend_similar] computes once the query is resolved. *)
Definition rank (self : MedicineRecommender) (X : list vector)
    (input_medicine : medicine) (top_n : Z) (exclude_self : bool)
  : result (list (medicine * score)) :=
  input_idx ← getkey (medicine_index_map self) (Text.lower (name input_medicine));
  input_vector ← getitem X input_idx;
  let similarities := cosine_similarity input_vector X in
  build_results (medicines self) similarities input_idx top_n exclude_self
    (reverse (argsort similarities)) [].

(** The indices the loop does not skip. *)
Definition kept (input_idx : nat) (exclude_self : bool) (idx : nat) : Prop :=
  ~ (exclude_self = true /\ idx = input_idx).

#[global] Instance kept_dec input_idx exclude_self idx :
  Decision (kept input_idx exclude_self idx).
Proof. unfold kept. apply _. Defined.

(** The entry the loop appends for an index. *)
Definition entry_at (meds : list medicine) (similarities : list score)
    (idx : nat) (e : medicine * score) : Prop :=
  meds !! idx = Some e.1 /\ similarities !! idx = Some e.2.

(** The name index is the one [load_database] builds for the catalogue. *)
Definition loaded (self : MedicineRecommender) : Prop :=
  medicine_index_map self = index_map (medicines self).

(** The catalogue has been trained: there is one feature vector per
    record. *)
Definition trained (self : MedicineRecommender) : Prop :=
  loaded self /\
  exists X, feature_vectors self = Some X /\ length X = length (medicines self).

(** Results with equal scores come in ascending catalogue position. *)
Definition ties_in_catalogue_order (meds : list medicine)
    (recs : list (medicine * score)) : Prop :=
  forall i j a b pa pb,
    i < j -> recs !! i = Some a -> recs !! j = Some b ->
    score_le a.2 b.2 -> score_le b.2 a.2 ->
    meds !! pa = Some a.1 -> meds !! pb = Some b.1 ->
    pa < pb.

End Recommender.

(** What lines 110-122 resolve a query to, written on the catalogue: for
    the key [name.lower().strip()] the exact tier answers with the record
    the name index holds (the last one written), the fallback with the first
    record in catalogue order whose lowercased name contains the key. *)
Definition exact_match (catalogue : list medicine) (key : string)
  : option medicine :=
  last (filter (fun med => Text.lower (name med) = key) catalogue).

Definition substring_scan (catalogue : list medicine) (key : string)
  : option medicine :=
  head (filter (fun med => Text.contains key (Text.lower (name med)) = true)
               catalogue).

Definition two_tier_lookup (catalogue : list medicine) (query : string)
  : option medicine :=
  let key := Text.strip (Text.lower query) in
  match exact_match catalogue key with
  | Some med => Some med
  | None => substring_scan catalogue key
  end.

(** Following the specification's words: [findByName] is a case-insensitive
    exact match via the name index (last write wins) first; on a miss, a
    case-insensitive substring scan over all names, where the first match in
    catalogue order wins.  Case is folded letter by letter, from the
    alphabet. *)
Definition fold_letter (c : ascii) : ascii :=
  match
    find (fun letter : ascii * ascii => bool_decide (letter.1 = c))
         (zip (String.list_ascii_of_string "ABCDEFGHIJKLMNOPQRSTUVWXYZ")
              (String.list_ascii_of_string "abcdefghijklmnopqrstuvwxyz"))
  with
  | Some letter => letter.2
  | None => c
  end.

Fixpoint case_fold (s : string) : string :=
  match s with
  | EmptyString => EmptyString
  | String c s' => String (fold_letter c) (case_fold s')
  end.

Definition findByName (catalogue : list medicine) (query : string)
  : option medicine :=
  let wanted := case_fold query in
  match last (filter (fun med => case_fold (name med) = wanted) catalogue) with
  | Some med => Some med
  | None =>
      head (filter (fun med => Text.contains wanted (case_fold (name med)) = true)
                   catalogue)
  end.

(** ** A library instance in exact arithmetic

    Rows hold the term counts over the fitted vocabulary and the similarity
    of two rows is their dot product, a natural number; [argsort] is the
    stable insertion sort.  The instance fails to fit exactly when the
    vectorizer does.  Two rows have similarity 0 here exactly when the
    records share no vocabulary term, which is when the cosine of their
    tf-idf vectors is 0. *)

Definition dot (v w : list nat) : nat := sum_list (zip_with Nat.mul v w).

Definition count_rows (n_doc : nat) (cols : list column) : list (list nat) :=
  (fun j => (fun col : column => default 0 (col.2 !! j)) <$> cols) <$> seq 0 n_doc.

Definition count_fit (docs : list string)
  : result (list string * list (list nat)) :=
  cols ← count_fit_transform docs;
  mret (vocabulary_ cols, count_rows (length docs) cols).

Definition exact_library : Library := {|
  score := nat;
  score_le := le;
  vector := list nat;
  model := list string;
  fit_transform := count_fit;
  n_columns := fun X => length (default [] (head X));
  cosine_similarity := fun v X => dot v <$> X;
  argsort := stable_argsort le
|}.

(** Sample catalogues. *)

Definition aspirin : medicine :=
  Medicine "Aspirin" ["pain relief"; "fever"] ["acetylsalicylic acid"]
           (Some "Analgesic") None.
Definition ibuprofen : medicine :=
  Medicine "Ibuprofen" ["pain relief"; "inflammation"] ["ibuprofen"]
           (Some "Analgesic") None.
Definition amoxicillin : medicine :=
  Medicine "Amoxicillin" ["bacterial infection"] ["amoxicillin"]
           (Some "Antibiotic") None.
Definition cetirizine : medicine :=
  Medicine "Cetirizine" ["allergy"] ["cetirizine"] (Some "Antihistamine") None.
Definition aspirin_lowercase : medicine :=
  Medicine "aspirin" ["blood thinner"] ["asa"] None None.

Definition scenario : list medicine := [aspirin; ibuprofen; amoxicillin].

(** A recommender that has loaded a catalogue, and one that has also been
    trained on it. *)
Definition stocked (catalogue : list medicine) : @MedicineRecommender exact_library :=
  self_after (load_database (Document (Some catalogue)) (init "medicines.json")).

Definition serving (catalogue : list medicine) : @MedicineRecommender exact_library :=
  self_after (train_model (stocked catalogue)).


(** ** The library over the arithmetic of its weights

    [TfidfVectorizer.fit_transform] and [cosine_similarity] as scikit-learn
    computes them, over the operations of the weights: the counts are scaled
    by the idf weights and each row is divided by its Euclidean norm;
    [cosine_similarity] normalises both arguments again and multiplies them.
    Rows are kept dense: the entries a sparse row leaves out are zeros, which
    change neither a sum nor a product of finite numbers.  The arithmetic is
    either exact (the real numbers) or binary64, the type of the scores the
    code returns. *)

Class Arithmetic := {
  number : Type;
  num_of_nat : nat -> number;
  num_add : number -> number -> number;
  num_mul : number -> number -> number;
  num_div : number -> number -> number;
  num_sqrt : number -> number;
  num_log : number -> number;
  num_is_zero : number -> bool;
  num_le : relation number;
  num_le_dec :: RelDecision num_le
}.

Module Tfidf.
Section Tfidf.
Context {A : Arithmetic}.

(** The sum of squares of a row, accumulated from the left. *)
Definition sum_squares (v : list number) : number :=
  foldl (fun s x => num_add s (num_mul x x)) (num_of_nat 0) v.

(** [normalize(X, norm='l2')] on one row: a row of norm zero is left as it
    is. *)
Definition normalize (v : list number) : list number :=
  let norm := num_sqrt (sum_squares v) in
  if num_is_zero norm then v else (fun x => num_div x norm) <$> v.

(** [TfidfTransformer.transform]: term counts times idf weights. *)
Definition weigh (weights : list number) (counts : list nat) : list number :=
  zip_with (fun c w => num_mul (num_of_nat c) w) counts weights.

(** The fitted model: the vocabulary and its idf weights. *)
Definition fit_transform (docs : list string)
  : result ((list string * list number) * list (list number)) :=
  cols ← count_fit_transform docs;
  let weights := idf_ num_of_nat num_div num_add num_log (length docs) cols in
  mret ((vocabulary_ cols, weights),
        (fun counts => normalize (weigh weights counts)) <$>
        count_rows (length docs) cols).

(** [safe_sparse_dot] on two rows. *)
Definition safe_sparse_dot (v w : list number) : number :=
  foldl (fun s p => num_add s (num_mul p.1 p.2)) (num_of_nat 0) (zip v w).

Definition cosine_similarity (v : list number) (X : list (list number))
  : list number :=
  let v_normalized := normalize v in
  (fun y => safe_sparse_dot v_normalized (normalize y)) <$> X.

(** The library of the recommender: scores and vector entries are numbers,
    the model is the vocabulary with its idf weights, and the number of
    columns is the length of a row. *)
Definition library : Library :=
  Build_Library number num_le _ (list number) (list string * list number)
                fit_transform
                (fun X => length (default [] (head X)))
                cosine_similarity
                (stable_argsort num_le).

End Tfidf.
End Tfidf.

(** Exact arithmetic. *)
Definition reals : Arithmetic := {|
  number := R;
  num_of_nat := INR;
  num_add := Rplus;
  num_mul := Rmult;
  num_div := Rdiv;
  num_sqrt := sqrt;
  num_log := ln;
  num_is_zero := fun x => if Req_EM_T x 0 then true else false;
  num_le := Rle;
  num_le_dec := Rle_dec
|}.

(** Binary64, the [float64] of NumPy.  The natural logarithm is not among
    the primitive operations: [log] reduces its argument to [2^k * (1 + f)]
    with [1 + f] between [sqrt(2)/2] and [sqrt(2)] and evaluates the
    polynomial of fdlibm's [e_log.c].  At 2, where [f] is zero, it returns
    the correctly rounded [ln 2], 0.6931471805599453, as [numpy.log] does;
    at other arguments the two can differ in the last place. *)
Module Binary64.
Import PrimFloat.

Definition of_nat (n : nat) : PrimFloat.float :=
  PrimFloat.of_uint63 (Uint63.of_Z (Z.of_nat n)).

Definition of_Z (k : Z) : PrimFloat.float :=
  if (k <? 0)%Z then PrimFloat.opp (PrimFloat.of_uint63 (Uint63.of_Z (- k)))
  else PrimFloat.of_uint63 (Uint63.of_Z k).

Definition ln2_hi : PrimFloat.float := 0x1.62e42fee00000p-1%float.
Definition ln2_lo : PrimFloat.float := 0x1.a39ef35793c76p-33%float.
Definition Lg1 : PrimFloat.float := 0x1.5555555555593p-1%float.
Definition Lg2 : PrimFloat.float := 0x1.999999997fa04p-2%float.
Definition Lg3 : PrimFloat.float := 0x1.2492494229359p-2%float.
Definition Lg4 : PrimFloat.float := 0x1.c71c51d8e78afp-3%float.
Definition Lg5 : PrimFloat.float := 0x1.7466496cb03dep-3%float.
Definition Lg6 : PrimFloat.float := 0x1.39a09d078c69fp-3%float.
Definition Lg7 : PrimFloat.float := 0x1.2f112df3e5244p-3%float.

Definition log (x : PrimFloat.float) : PrimFloat.float :=
  let zero := 0%float in
  if PrimFloat.ltb x zero then PrimFloat.div zero zero
  else if PrimFloat.eqb x zero then PrimFloat.opp PrimFloat.infinity
  else if PrimFloat.eqb x PrimFloat.infinity then x
  else if negb (PrimFloat.eqb x x) then x
  else
    let '(m, e) := PrimFloat.frshiftexp x in
    let m2 := PrimFloat.mul m 2%float in
    let k0 := (Uint63.to_Z e - FloatOps.shift - 1)%Z in
    let '(y, k) :=
      if PrimFloat.ltb m2 0x1.6a09cp+0%float then (m2, k0) else (m, (k0 + 1)%Z) in
    let f := PrimFloat.sub y 1%float in
    let dk := of_Z k in
    let s := PrimFloat.div f (PrimFloat.add 2%float f) in
    let z := PrimFloat.mul s s in
    let w := PrimFloat.mul z z in
    let t1 :=
      PrimFloat.mul w (PrimFloat.add Lg2 (PrimFloat.mul w
        (PrimFloat.add Lg4 (PrimFloat.mul w Lg6)))) in
    let t2 :=
      PrimFloat.mul z (PrimFloat.add Lg1 (PrimFloat.mul w
        (PrimFloat.add Lg3 (PrimFloat.mul w
          (PrimFloat.add Lg5 (PrimFloat.mul w Lg7)))))) in
    let r := PrimFloat.add t2 t1 in
    let hfsq := PrimFloat.mul (PrimFloat.mul 0.5%float f) f in
    PrimFloat.sub (PrimFloat.mul dk ln2_hi)
      (PrimFloat.sub
         (PrimFloat.sub hfsq
            (PrimFloat.add (PrimFloat.mul s (PrimFloat.add hfsq r))
                           (PrimFloat.mul dk ln2_lo)))
         f).

(** 1.0000000000000002, the number that follows 1. *)
Definition after_one : PrimFloat.float := 0x1.0000000000001p+0%float.

Definition le (a b : PrimFloat.float) : Prop := PrimFloat.leb a b = true.

#[global] Instance le_dec : RelDecision le :=
  fun a b => decide (PrimFloat.leb a b = true).

Definition arithmetic : Arithmetic := {|
  number := PrimFloat.float;
  num_of_nat := of_nat;
  num_add := PrimFloat.add;
  num_mul := PrimFloat.mul;
  num_div := PrimFloat.div;
  num_sqrt := PrimFloat.sqrt;
  num_log := log;
  num_is_zero := fun x => PrimFloat.eqb x 0%float;
  num_le := le
|}.

End Binary64.

(** The sum of a list of reals, used in the proofs. *)
Definition Rsum (l : list R) : R := foldr Rplus 0%R l.

(** Recommenders over the weighted library. *)
Definition stocked_in (A : Arithmetic) (catalogue : list medicine)
  : @MedicineRecommender (@Tfidf.library A) :=
  self_after (load_database (Document (Some catalogue)) (init "medicines.json")).

Definition serving_in (A : Arithmetic) (catalogue : list medicine)
  : @MedicineRecommender (@Tfidf.library A) :=
  self_after (train_model (stocked_in A catalogue)).










(** An outcome with earlier output put before its own. *)
Definition after {S M A} (out : list M) (o : outcome S M A) : outcome S M A :=
  Outcome (value o) (self_after o) (out ++ printed o).

(** ** The command line of [main.py]

    Standard output as [main] and the recommender share it: the lines of
    the recommender, the text [main] prints itself, the prompts of [input]
    and the report of [get_recommendation_details], kept as the two
    arguments it is rendered from.  [int] is Python's: on a string it either
    returns an integer or raises [ValueError]. *)

Section Main.
Context {L : Library}.
Variable int : string -> option Z.

Inductive screen :=
| Said (l : line)
| Wrote (text : string)
| Asked (prompt : string)
| Details (original_medicine : medicine)
          (recommendations : list (medicine * score)).

Inductive step := Continue | Break.

(** A call of a method of the recommender from [main]. *)
Definition relay {A} (m : method MedicineRecommender line A)
  : method MedicineRecommender screen A :=
  fun self =>
    let o := m self in
    Outcome (value o) (self_after o) (Said <$> printed o).

Definition rule (c : ascii) : string :=
  String.string_of_list_ascii (replicate 70 c).

(** Lines 46-52: the number of recommendations asked for. *)
Definition read_top_n (answer : string) : Z :=
  let top_n_input := Text.strip answer in
  match (if decide (top_n_input = EmptyString) then Some 5%Z else int top_n_input) with
  | Some top_n => if (top_n <? 1)%Z then 5%Z else top_n
  | None => 5%Z
  end.

(** Lines 11-30: the start of [main], up to the interaction loop; [true]
    when the loop is entered. *)
Definition startup (db : database) : method MedicineRecommender screen bool :=
  print (Wrote (rule "="));;
  print (Wrote "ML-Based Medicine Recommendation System");;
  print (Wrote (rule "="));;
  print (Wrote "");;
  loaded_ok ← relay (load_database db);
  if negb loaded_ok then
    print (Wrote "Failed to load database. Exiting.");; mret false
  else
    print (Wrote (String "010" "Training recommendation model..."));;
    trained_ok ← relay train_model;
    if negb trained_ok then
      print (Wrote "Failed to train model. Exiting.");; mret false
    else
      print (Wrote (String "010" "Model ready! You can now search for medicines."
                    ++ String "010" "")%string);;
      mret true.

(** Lines 34-77: one turn of the interaction loop, on the two answers the
    user types (the second is only asked for when the first is a name). *)
Definition turn (name_answer top_n_answer : string)
  : method MedicineRecommender screen step :=
  print (Wrote (rule "-"));;
  print (Asked "Enter medicine name (or 'quit' to exit): ");;
  let medicine_name := Text.strip name_answer in
  if bool_decide (Text.lower medicine_name ∈ ["quit"; "exit"; "q"]) then
    print (Wrote (String "010" "Thank you for using Medicine Recommendation System!"));;
    mret Break
  else if bool_decide (medicine_name = EmptyString) then
    print (Wrote "Please enter a valid medicine name.");;
    mret Continue
  else
    print (Asked "Number of recommendations (default: 5): ");;
    let top_n := read_top_n top_n_answer in
    print (Wrote (String "010" (rule "=")));;
    print (Wrote "Searching...");;
    print (Wrote (rule "="));;
    recommendations ← relay (recommend_similar medicine_name top_n true);
    (match recommendations with
     | _ :: _ =>
         original_medicine ← relay (find_medicine medicine_name);
         match original_medicine with
         | Some original_medicine =>
             print (Details original_medicine recommendations)
         | None =>
             print (Wrote ("Error: Could not find original medicine '"
                           ++ medicine_name ++ "'.")%string)
         end
     | [] =>
         print (Wrote (String "010" "No recommendations found for '"
                       ++ medicine_name ++ "'.")%string);;
         print (Wrote "The medicine might not exist in the database.")
     end);;
    print (Wrote (String "010" ""));;
    mret Continue.

End Main.

(** ** The data tools

    [manual_curator.py], [data_validator.py], [data_enricher.py] and the
    merge step of [collect_medicines.py] maintain the database the
    recommender reads.  Each class keeps the records in [self.medicines] and
    writes them back with [_save_database]; a write of the file is recorded
    as [Saved path medicines] in the output of the method.  Records are the
    ones the recommender loads: [name], [uses] and [components] are always
    present, [category] and [description] are optional keys.  The constants
    of [config.py] are parameters of the classes that use them. *)

Inductive saved := Saved (database_path : string) (medicines : list medicine).

Definition set_uses (l : list string) (med : medicine) : medicine :=
  Medicine (name med) l (components med) (category med) (description med).

Definition set_components (l : list string) (med : medicine) : medicine :=
  Medicine (name med) (uses med) l (category med) (description med).

Definition set_category (c : option string) (med : medicine) : medicine :=
  Medicine (name med) (uses med) (components med) c (description med).

Definition set_description (d : option string) (med : medicine) : medicine :=
  Medicine (name med) (uses med) (components med) (category med) d.

(** [bool(d.get(key))] on an optional string. *)
Definition truthy (v : option string) : bool :=
  match v with
  | Some (String _ _) => true
  | _ => false
  end.

(** [bool(l)] on a list. *)
Definition nonempty {A} (l : list A) : bool :=
  match l with
  | [] => false
  | _ :: _ => true
  end.

(** The values a record holds under a key. *)
Inductive field_value :=
| Str (s : string)
| Strs (l : list string).

Definition field (med : medicine) (key : string) : option field_value :=
  if decide (key = "name") then Some (Str (name med))
  else if decide (key = "uses") then Some (Strs (uses med))
  else if decide (key = "components") then Some (Strs (components med))
  else if decide (key = "category") then Str <$> category med
  else if decide (key = "description") then Str <$> description med
  else None.

Definition field_truthy (v : field_value) : bool :=
  match v with
  | Str s => truthy (Some s)
  | Strs l => nonempty l
  end.

(** The loop shared by [ManualCurator.suggest_category] and
    [DataEnricher._infer_category] over the items of [CATEGORY_MAPPINGS], in
    the order of the dict. *)
Fixpoint first_category (mappings : list (string * string)) (use_text : string)
  : option string :=
  match mappings with
  | [] => None
  | (use_term, category) :: rest =>
      if Text.contains (Text.lower use_term) use_text then Some category
      else first_category rest use_text
  end.

(** *** [manual_curator.py] *)

Module ManualCurator.
Section ManualCurator.
Variable CATEGORY_MAPPINGS : list (string * string).
Variable REQUIRED_FIELDS : list string.

Record ManualCurator := {
  database_path : string;
  medicines : list medicine
}.

Definition set_medicines (meds : list medicine) (self : ManualCurator) :=
  {| database_path := database_path self; medicines := meds |}.

Local Abbreviation Method := (method ManualCurator saved).

Definition _save_database : Method unit :=
  self ← get;
  print (Saved (database_path self) (medicines self)).

(** The loop of [check_duplicate]. *)
Fixpoint any_named (name_lower : string) (meds : list medicine) : bool :=
  match meds with
  | [] => false
  | med :: rest =>
      if decide (Text.lower (name med) = name_lower) then true
      else any_named name_lower rest
  end.

Definition check_duplicate (name : string) (self : ManualCurator) : bool :=
  let name_lower := Text.strip (Text.lower name) in
  any_named name_lower (medicines self).

Definition suggest_category (uses : list string) : option string :=
  let use_text := Text.lower (Text.join " " uses) in
  first_category CATEGORY_MAPPINGS use_text.

(** The loop of [validate_medicine_data] over [REQUIRED_FIELDS]: the first
    error, if any. *)
Fixpoint check_required (fields : list string) (medicine : medicine)
  : option string :=
  match fields with
  | [] => None
  | key :: rest =>
      match field medicine key with
      | None => Some ("Missing required field: " ++ key)%string
      | Some v =>
          if field_truthy v then check_required rest medicine
          else Some ("Required field '" ++ key ++ "' is empty")%string
      end
  end.

Definition validate_medicine_data (medicine : medicine) : bool * string :=
  match check_required REQUIRED_FIELDS medicine with
  | Some error => (false, error)
  | None =>
      if negb (nonempty (uses medicine)) && negb (nonempty (components medicine))
      then (false, "At least one of 'uses' or 'components' must have values")
      else (true, "")
  end.

Definition add_medicine_from_dict (medicine : medicine) : Method (bool * string) :=
  self ← get;
  if check_duplicate (name medicine) self then
    mret (false, ("Medicine '" ++ name medicine ++ "' already exists")%string)
  else
    let '(is_valid, error) := validate_medicine_data medicine in
    if negb is_valid then mret (false, error)
    else
      let medicine :=
        if negb (truthy (category medicine)) then
          let suggested := suggest_category (uses medicine) in
          set_category (Some (if truthy suggested then default "" suggested
                              else "Unknown")) medicine
        else medicine in
      put (set_medicines (medicines self ++ [medicine]) self);;
      _save_database;;
      mret (true, ("Successfully added '" ++ name medicine ++ "'")%string).

End ManualCurator.
End ManualCurator.

(** *** [data_validator.py] *)

Module DataValidator.

Record DataValidator := {
  database_path : string;
  medicines : list medicine;
  errors : list string;
  warnings : list string
}.

Record duplicate := Duplicate {
  dup_name : string;
  count : nat;
  indices : list nat
}.

(** [name_map] of [detect_duplicates]: a dict, kept with its keys in the
    order in which they were first inserted. *)
Fixpoint append_entry (name : string) (e : nat * medicine)
         (name_map : list (string * list (nat * medicine))) : list (string * list (nat * medicine)) :=
  match name_map with
  | [] => [(name, [e])]
  | (key, entries) :: rest =>
      if decide (key = name) then (key, entries ++ [e]) :: rest
      else (key, entries) :: append_entry name e rest
  end.

(** [name_map.get(key, [])]. *)
Fixpoint entries_under (key : string) (name_map : list (string * list (nat * medicine)))
  : list (nat * medicine) :=
  match name_map with
  | [] => []
  | (k, entries) :: rest =>
      if decide (k = key) then entries else entries_under key rest
  end.

Definition record_name (name_map : list (string * list (nat * medicine))) (e : nat * medicine)
  : list (string * list (nat * medicine)) :=
  let name := Text.strip (Text.lower (name e.2)) in
  if decide (name = EmptyString) then name_map else append_entry name e name_map.

Definition name_map (meds : list medicine) : list (string * list (nat * medicine)) :=
  foldl record_name [] (zip (seq 0 (length meds)) meds).

Definition detect_duplicates (self : DataValidator) : list duplicate :=
  (fun group : string * list (nat * medicine) =>
     Duplicate group.1 (length group.2) (group.2.*1)) <$>
  filter (fun group : string * list (nat * medicine) => 1 < length group.2)
         (name_map (medicines self)).

Record completeness := Completeness {
  total : nat;
  has_uses : nat;
  has_components : nat;
  has_both : nat;
  has_neither : nat;
  empty_entries : list (nat * string)
}.

Definition check_entry (results : completeness) (e : nat * medicine) : completeness :=
  let uses_ok := nonempty (uses e.2) in
  let components_ok := nonempty (components e.2) in
  Completeness
    (total results)
    (if uses_ok then S (has_uses results) else has_uses results)
    (if components_ok then S (has_components results) else has_components results)
    (if uses_ok && components_ok then S (has_both results) else has_both results)
    (if negb uses_ok && negb components_ok then S (has_neither results)
     else has_neither results)
    (if negb uses_ok && negb components_ok
     then empty_entries results ++ [(e.1, name e.2)]
     else empty_entries results).

Definition check_completeness (self : DataValidator) : completeness :=
  foldl check_entry
        (Completeness (length (medicines self)) 0 0 0 0 [])
        (zip (seq 0 (length (medicines self))) (medicines self)).

End DataValidator.

(** *** [data_enricher.py] *)

Module DataEnricher.
Section DataEnricher.
Variable CATEGORY_MAPPINGS : list (string * string).
Variable TERM_STANDARDIZATION : gmap string string.
(** [list(a.union(b))] on the sets of two lists; the order of the result is
    the set's own. *)
Variable list_union : list string -> list string -> list string.

Record DataEnricher := {
  database_path : string;
  medicines : list medicine
}.

Definition set_medicines (meds : list medicine) (self : DataEnricher) :=
  {| database_path := database_path self; medicines := meds |}.

Local Abbreviation Method := (method DataEnricher saved).

Definition _save_database : Method unit :=
  self ← get;
  print (Saved (database_path self) (medicines self)).

(** The first inner loop of [standardize_uses], with the running count. *)
Fixpoint standardized (uses : list string) (standardized_count : nat)
  : list string * nat :=
  match uses with
  | [] => ([], standardized_count)
  | use :: rest =>
      let use_lower := Text.strip (Text.lower use) in
      match TERM_STANDARDIZATION !! use_lower with
      | Some term =>
          let r := standardized rest (S standardized_count) in (term :: r.1, r.2)
      | None =>
          let r := standardized rest standardized_count in (use :: r.1, r.2)
      end
  end.

(** The second inner loop: duplicates removed, order kept. *)
Fixpoint unique (seen : gset string) (uses : list string) : list string :=
  match uses with
  | [] => []
  | use :: rest =>
      let use_lower := Text.lower use in
      if decide (use_lower ∈ seen) then unique seen rest
      else use :: unique ({[use_lower]} ∪ seen) rest
  end.

Fixpoint standardize_all (meds : list medicine) (standardized_count : nat)
  : list medicine * nat :=
  match meds with
  | [] => ([], standardized_count)
  | medicine :: rest =>
      let s := standardized (uses medicine) standardized_count in
      let r := standardize_all rest s.2 in
      (set_uses (unique ∅ s.1) medicine :: r.1, r.2)
  end.

Definition standardize_uses : Method nat :=
  self ← get;
  let r := standardize_all (medicines self) 0 in
  put (set_medicines r.1 self);;
  (if (0 <? r.2)%nat then _save_database else mret tt);;
  mret r.2.

Definition _infer_category (uses : list string) : string :=
  let use_text := Text.lower (Text.join " " uses) in
  default "Unknown" (first_category CATEGORY_MAPPINGS use_text).

Definition known (c : option string) : bool :=
  truthy c && negb (bool_decide (c = Some "Unknown")).

Fixpoint add_categories (meds : list medicine) (added_count : nat)
  : list medicine * nat :=
  match meds with
  | [] => ([], added_count)
  | medicine :: rest =>
      if known (category medicine) then
        let r := add_categories rest added_count in (medicine :: r.1, r.2)
      else if negb (nonempty (uses medicine)) then
        let r := add_categories rest added_count in (medicine :: r.1, r.2)
      else
        let category := _infer_category (uses medicine) in
        if known (Some category) then
          let r := add_categories rest (S added_count) in
          (set_category (Some category) medicine :: r.1, r.2)
        else
          let r := add_categories rest added_count in (medicine :: r.1, r.2)
  end.

Definition add_missing_categories : Method nat :=
  self ← get;
  let r := add_categories (medicines self) 0 in
  put (set_medicines r.1 self);;
  (if (0 <? r.2)%nat then _save_database else mret tt);;
  mret r.2.

(** [merge_duplicates].  [seen_names] holds, for a name, the record that
    [unique_medicines] holds too: the position of the shared record stands
    for it, and a merge updates the record at that position. *)
Definition merge_into (existing med : medicine) : medicine :=
  let existing := set_uses (list_union (uses existing) (uses med)) existing in
  let existing :=
    set_components (list_union (components existing) (components med)) existing in
  let existing :=
    if negb (truthy (category existing))
       || bool_decide (category existing = Some "Unknown")
    then if known (category med)
         then set_category (category med) existing
         else existing
    else existing in
  if negb (truthy (description existing)) && truthy (description med)
  then set_description (description med) existing
  else existing.

Record merging := Merging {
  merged_count : nat;
  seen_names : gmap string nat;
  unique_medicines : list medicine
}.

Definition merge_step (st : merging) (medicine : medicine) : merging :=
  let name_lower := Text.strip (Text.lower (name medicine)) in
  match seen_names st !! name_lower with
  | Some existing =>
      Merging (S (merged_count st)) (seen_names st)
              (alter (fun existing => merge_into existing medicine) existing
                     (unique_medicines st))
  | None =>
      Merging (merged_count st)
              (<[name_lower := length (unique_medicines st)]> (seen_names st))
              (unique_medicines st ++ [medicine])
  end.

Definition merge_duplicates : Method nat :=
  self ← get;
  let st := foldl merge_step (Merging 0 ∅ []) (medicines self) in
  (if (0 <? merged_count st)%nat
   then put (set_medicines (unique_medicines st) self);; _save_database
   else mret tt);;
  mret (merged_count st).

Fixpoint fill_categories (meds : list medicine) (categories : nat)
  : list medicine * nat :=
  match meds with
  | [] => ([], categories)
  | medicine :: rest =>
      if negb (truthy (category medicine)) then
        let category := _infer_category (uses medicine) in
        let r := fill_categories rest (S categories) in
        (set_category (Some category) medicine :: r.1, r.2)
      else
        let r := fill_categories rest categories in (medicine :: r.1, r.2)
  end.

(** [fill_missing_fields] returns the counts under ['categories'] and
    ['descriptions']. *)
Definition fill_missing_fields : Method (nat * nat) :=
  self ← get;
  let r := fill_categories (medicines self) 0 in
  put (set_medicines r.1 self);;
  (if (0 <? r.2)%nat || (0 <? 0)%nat then _save_database else mret tt);;
  mret (r.2, 0).

End DataEnricher.
End DataEnricher.

(** Invariants of the loops above, used in the proofs.  The keys of
    [name_map] are distinct and no key holds an empty list; after the
    records [l], [merge_duplicates] holds distinct normalised names, indexed
    by [seen_names], and has gathered the uses and components of [l]. *)
Definition well_formed (name_map : list (string * list (nat * medicine))) : Prop :=
  NoDup name_map.*1 /\ Forall (fun group => group.2 <> []) name_map.

Definition merged (st : DataEnricher.merging) (l : list medicine) : Prop :=
  let names :=
    (fun m => Text.strip (Text.lower (name m))) <$> DataEnricher.unique_medicines st in
  NoDup names /\
  (forall k p, DataEnricher.seen_names st !! k = Some p <-> names !! p = Some k) /\
  DataEnricher.merged_count st + length (DataEnricher.unique_medicines st) = length l /\
  (forall k, k ∈ names <-> k ∈ (fun m => Text.strip (Text.lower (name m))) <$> l) /\
  (DataEnricher.merged_count st = 0 -> DataEnricher.unique_medicines st = l).

Definition gathered (st : DataEnricher.merging) (l : list medicine) : Prop :=
  forall r, r ∈ DataEnricher.unique_medicines st ->
    (forall u, u ∈ uses r <->
       exists m, m ∈ l /\
                 Text.strip (Text.lower (name m)) = Text.strip (Text.lower (name r)) /\
                 u ∈ uses m) /\
    (forall c, c ∈ components r <->
       exists m, m ∈ l /\
                 Text.strip (Text.lower (name m)) = Text.strip (Text.lower (name r)) /\
                 c ∈ components m).

(** A [list_union] for the samples. *)
Definition ordered_union (a b : list string) : list string := remove_dups (a ++ b).

(** *** [collect_medicines.py]: the merge of [fetch_from_api] (lines 81-86) *)

Definition existing_names (existing_medicines : list medicine) : gset string :=
  list_to_set ((fun m => Text.lower (name m)) <$> existing_medicines).

Definition new_medicines (existing_medicines medicines : list medicine)
  : list medicine :=
  filter (fun m => Text.lower (name m) ∉ existing_names existing_medicines)
         medicines.

Definition all_medicines (existing_medicines medicines : list medicine)
  : list medicine :=
  existing_medicines ++ new_medicines existing_medicines medicines.

(** [int] on the sample answers: plain decimal numerals. *)
Definition digit_value (c : ascii) : option Z :=
  let n := nat_of_ascii c in
  if ((48 <=? n) && (n <=? 57))%nat then Some (Z.of_nat (n - 48)) else None.

Fixpoint numeral_value (acc : Z) (s : string) : option Z :=
  match s with
  | EmptyString => Some acc
  | String c s' =>
      match digit_value c with
      | Some d => numeral_value (10 * acc + d) s'
      | None => None
      end
  end.

Definition int_of_numeral (s : string) : option Z :=
  match s with
  | EmptyString => None
  | _ => numeral_value 0 s
  end.

(** Samples for the data tools. *)
Definition sample_mappings : list (string * string) :=
  [("pain", "Analgesic"); ("infection", "Antibiotic"); ("allergy", "Antihistamine")].

Definition sample_required : list string := ["name"; "uses"; "components"].

Definition sample_terms : gmap string string :=
  {["high temperature" := "fever"; "aches" := "pain relief"]}.

Definition aspirin_again : medicine :=
  Medicine " ASPIRIN " ["fever"; "headache"] ["acetylsalicylic acid"; "starch"]
           None (Some "A second entry").

Definition aspirin_padded : medicine :=
  Medicine "aspirin " ["blood thinner"] ["asa"] None None.

Definition curator (catalogue : list medicine) : ManualCurator.ManualCurator :=
  {| ManualCurator.database_path := "medicines.json";
     ManualCurator.medicines := catalogue |}.

Definition validator (catalogue : list medicine) : DataValidator.DataValidator :=
  {| DataValidator.database_path := "medicines.json";
     DataValidator.medicines := catalogue;
     DataValidator.errors := [];
     DataValidator.warnings := [] |}.

Definition enricher (catalogue : list medicine) : DataEnricher.DataEnricher :=
  {| DataEnricher.database_path := "medicines.json";
     DataEnricher.medicines := catalogue |}.

(** * Properties *)

(** ** Text *)

Lemma prefix_empty (s : string) : String.prefix EmptyString s = true.
Proof. by destruct s. Qed.

Lemma contains_empty (s : string) : Text.contains EmptyString s = true.
Proof. destruct s; by simpl. Qed.

Lemma is_space_lower (c : ascii) :
  Text.is_space c = true -> Text.lower_ascii c = c.
Proof.
  unfold Text.is_space, Text.lower_ascii. intros Hsp.
  destruct ((65 <=? nat_of_ascii c)%nat && (nat_of_ascii c <=? 90)%nat) eqn:Hup;
    [|done].
  exfalso. apply andb_true_iff in Hup as [H1%Nat.leb_le H2%Nat.leb_le].
  apply orb_true_iff in Hsp
    as [[H3%Nat.leb_le H4%Nat.leb_le]%andb_true_iff
       |[H3%Nat.leb_le H4%Nat.leb_le]%andb_true_iff]; lia.
Qed.

Lemma lstrip_lower_all_space (s : string) :
  Text.all_space s -> Text.lstrip (Text.lower s) = EmptyString.
Proof.
  unfold Text.all_space. induction s as [|c s IH]; simpl; [done|].
  intros [Hc Hs]%Forall_cons. rewrite (is_space_lower c Hc), Hc. by apply IH.
Qed.

Lemma strip_lower_all_space (s : string) :
  Text.all_space s -> Text.strip (Text.lower s) = EmptyString.
Proof. intros Hs. unfold Text.strip. by rewrite lstrip_lower_all_space. Qed.

Lemma fold_letter_lower (c : ascii) : fold_letter c = Text.lower_ascii c.
Proof. by destruct c as [[] [] [] [] [] [] [] []]. Qed.

Lemma case_fold_lower (s : string) : case_fold s = Text.lower s.
Proof.
  induction s as [|c s IH]; [done|]. simpl. by rewrite fold_letter_lower, IH.
Qed.

Lemma is_space_lower_ascii (c : ascii) :
  Text.is_space (Text.lower_ascii c) = Text.is_space c.
Proof. by destruct c as [[] [] [] [] [] [] [] []]. Qed.

Lemma lstrip_lower (s : string) :
  Text.lstrip (Text.lower s) = Text.lower (Text.lstrip s).
Proof.
  induction s as [|c s IH]; [done|]. simpl. rewrite is_space_lower_ascii.
  by destruct (Text.is_space c).
Qed.

Lemma rstrip_lower (s : string) :
  Text.rstrip (Text.lower s) = Text.lower (Text.rstrip s).
Proof.
  induction s as [|c s IH]; [done|]. simpl. rewrite IH, is_space_lower_ascii.
  destruct (Text.rstrip s); simpl; [|done]. by destruct (Text.is_space c).
Qed.

Lemma strip_lower (s : string) :
  Text.strip (Text.lower s) = Text.lower (Text.strip s).
Proof. unfold Text.strip. by rewrite lstrip_lower, rstrip_lower. Qed.

(** ** The name index *)

Lemma index_map_snoc (meds : list medicine) (med : medicine) :
  index_map (meds ++ [med]) =
  <[Text.lower (name med) := length meds]> (index_map meds).
Proof.
  unfold index_map. rewrite length_app. simpl.
  rewrite seq_app. simpl.
  rewrite zip_with_app by (by rewrite length_seq).
  by rewrite foldl_app.
Qed.

Lemma index_map_lookup_Some (meds : list medicine) (key : string) (idx : nat) :
  index_map meds !! key = Some idx <->
  (exists med, meds !! idx = Some med /\ Text.lower (name med) = key) /\
  (forall j med', meds !! j = Some med' -> Text.lower (name med') = key -> j <= idx).
Proof.
  revert idx. induction meds as [|med meds IH] using rev_ind; intros idx.
  - unfold index_map. simpl. rewrite lookup_empty. split; [done|].
    intros [(med & Hm & _) _]. by rewrite lookup_nil in Hm.
  - rewrite index_map_snoc.
    destruct (decide (Text.lower (name med) = key)) as [Hk|Hk].
    + rewrite Hk, lookup_insert_eq. split.
      * intros [= <-]. split.
        -- exists med. split; [|done]. by rewrite list_lookup_middle.
        -- intros j med' Hj _. apply lookup_lt_Some in Hj.
           rewrite length_app in Hj. simpl in Hj. lia.
      * intros [(m & Hm & _) Hlast]. f_equal.
        apply lookup_lt_Some in Hm as Hlt. rewrite length_app in Hlt. simpl in Hlt.
        pose proof (Hlast (length meds) med
          (list_lookup_middle meds [] med _ eq_refl) Hk). lia.
    + rewrite lookup_insert_ne by done. rewrite IH. split.
      * intros [(m & Hm & Hn) Hlast]. split.
        -- exists m. split; [|done]. by apply lookup_app_l_Some.
        -- intros j med' Hj Hn'. apply lookup_app_Some in Hj as [Hj|[_ Hj]].
           ++ by eapply Hlast.
           ++ apply list_lookup_singleton_Some in Hj as [_ <-]. done.
      * intros [(m & Hm & Hn) Hlast]. apply lookup_app_Some in Hm as [Hm|[_ Hm]].
        -- split; [by exists m|]. intros j med' Hj Hn'. eapply Hlast; [|done].
           by apply lookup_app_l_Some.
        -- apply list_lookup_singleton_Some in Hm as [_ <-]. done.
Qed.

Lemma index_map_lookup_None (meds : list medicine) (key : string) :
  index_map meds !! key = None <->
  Forall (fun med => Text.lower (name med) <> key) meds.
Proof.
  induction meds as [|med meds IH] using rev_ind.
  - unfold index_map. simpl. by rewrite lookup_empty.
  - rewrite index_map_snoc, Forall_app, Forall_singleton, <- IH.
    destruct (decide (Text.lower (name med) = key)) as [Hk|Hk].
    + rewrite Hk, lookup_insert_eq. split; [done|]. by intros [_ Hne].
    + rewrite lookup_insert_ne by done. tauto.
Qed.

Lemma index_map_lookup_member (meds : list medicine) (med : medicine) :
  med ∈ meds ->
  exists idx, index_map meds !! Text.lower (name med) = Some idx /\ idx < length meds.
Proof.
  intros Hin.
  destruct (index_map meds !! Text.lower (name med)) as [idx|] eqn:Hl.
  - exists idx. split; [done|].
    apply index_map_lookup_Some in Hl as [(m & Hm & _) _].
    by eapply lookup_lt_Some.
  - apply index_map_lookup_None in Hl. rewrite Forall_forall in Hl.
    by destruct (Hl med Hin).
Qed.

Lemma index_map_lookup_unique (meds : list medicine) (med : medicine) (i : nat) :
  NoDup (map (fun m => Text.lower (name m)) meds) ->
  meds !! i = Some med ->
  index_map meds !! Text.lower (name med) = Some i.
Proof.
  intros Hnd Hi.
  destruct (index_map_lookup_member meds med) as (idx & Hidx & _).
  { by eapply list_elem_of_lookup_2. }
  rewrite Hidx. f_equal.
  apply index_map_lookup_Some in Hidx as [(m & Hm & Hn) _].
  eapply NoDup_lookup; [exact Hnd| |].
  - by rewrite list_lookup_fmap, Hm.
  - rewrite list_lookup_fmap, Hi. simpl. by rewrite Hn.
Qed.

(** ** Running the methods *)

Ltac run_method :=
  repeat (unfold mbind, mret, method_bind, method_ret, result_bind, result_ret,
            Py.bind, Py.ret, Py.get, Py.put, Py.print, Py.lift,
            modify, build_vectorizer; cbn).

Section Running.
Context {L : Library}.

Lemma find_medicine_run (self : MedicineRecommender) (q : string) :
  find_medicine q self = Outcome (lookup_medicine self q) self [].
Proof.
  unfold find_medicine, lookup_medicine. run_method.
  destruct (medicine_index_map self !! _) as [idx|]; run_method; [|done].
  by destruct (getitem (medicines self) idx).
Qed.

Lemma recommend_similar_run (self : MedicineRecommender) (q : string)
    (top_n : Z) (exclude_self : bool) :
  recommend_similar q top_n exclude_self self =
  match feature_vectors self with
  | None => Outcome (Returns []) self [ModelNotTrained]
  | Some X =>
      match lookup_medicine self q with
      | Raises e => Outcome (Raises e) self []
      | Returns None => Outcome (Returns []) self [MedicineNotFound q]
      | Returns (Some med) => Outcome (rank self X med top_n exclude_self) self []
      end
  end.
Proof.
  unfold recommend_similar. run_method.
  destruct (feature_vectors self) as [X|]; run_method; [|done].
  rewrite find_medicine_run. run_method.
  destruct (lookup_medicine self q) as [[med|]|e]; run_method; try done.
  unfold rank. run_method.
  destruct (getkey _ _) as [idx|e]; run_method; [|done].
  destruct (getitem X idx) as [v|e]; run_method; [|done].
  by destruct (build_results _ _ _ _ _ _ _).
Qed.

End Running.

(** ** The results loop *)

Section Ranking.
Context {L : Library}.

Lemma build_results_spec meds similarities input_idx top_n exclude_self :
  forall idxs entries acc,
  Forall2 (entry_at meds similarities)
          (filter (kept input_idx exclude_self) idxs) entries ->
  build_results meds similarities input_idx top_n exclude_self idxs acc =
  Returns (acc ++ take (Z.to_nat (Z.max 1 (top_n - Z.of_nat (length acc)))) entries).
Proof.
  induction idxs as [|idx idxs IH]; intros entries acc Hent.
  - rewrite filter_nil in Hent. apply Forall2_nil_inv_l in Hent as ->.
    simpl. by rewrite take_nil, app_nil_r.
  - simpl. destruct (decide (kept input_idx exclude_self idx)) as [Hk|Hk].
    + rewrite filter_cons_True in Hent by done.
      apply Forall2_cons_inv_l in Hent as (e & entries' & [Hm Hs] & Hent & ->).
      assert (exclude_self && bool_decide (idx = input_idx) = false) as ->.
      { apply not_true_is_false. intros [? ?%bool_decide_eq_true]%andb_true_iff.
        by apply Hk. }
      unfold getitem. rewrite Hs, Hm. run_method.
      rewrite length_app. simpl.
      case_bool_decide as Hge.
      * replace (Z.to_nat (Z.max 1 (top_n - Z.of_nat (length acc)))) with 1 by lia.
        by destruct e.
      * rewrite (IH entries') by done. rewrite length_app. simpl.
        replace (Z.to_nat (Z.max 1 (top_n - Z.of_nat (length acc))))
          with (S (Z.to_nat (Z.max 1 (top_n - Z.of_nat (length acc + 1))))) by lia.
        simpl. rewrite <- app_assoc. by destruct e.
    + rewrite filter_cons_False in Hent by done.
      assert (exclude_self && bool_decide (idx = input_idx) = true) as ->.
      { unfold kept in Hk. apply dec_stable in Hk as [-> ->].
        by rewrite bool_decide_eq_true_2. }
      by apply IH.
Qed.

Lemma entries_exist meds (similarities : list score) (idxs : list nat) :
  length similarities = length meds ->
  Forall (fun idx => idx < length meds) idxs ->
  exists entries, Forall2 (entry_at meds similarities) idxs entries.
Proof.
  intros Hlen. induction 1 as [|idx idxs Hidx _ [entries IH]].
  - by exists [].
  - destruct (lookup_lt_is_Some_2 meds idx Hidx) as [med Hm].
    destruct (lookup_lt_is_Some_2 similarities idx) as [s Hs]; [lia|].
    exists ((med, s) :: entries). by constructor.
Qed.

End Ranking.

(** ** Sorted lists *)

Lemma StronglySorted_rev {A} (R : relation A) (l : list A) :
  StronglySorted R l -> StronglySorted (flip R) (reverse l).
Proof.
  induction 1 as [|x l _ IH Hx]; [constructor|]. rewrite reverse_cons.
  apply StronglySorted_app_2; [|done|repeat constructor].
  intros x1 x2 Hx1 ->%list_elem_of_singleton.
  rewrite elem_of_reverse in Hx1.
  rewrite Forall_forall in Hx. unfold flip. by apply Hx.
Qed.

Lemma StronglySorted_filter {A} (R : relation A) (P : A -> Prop)
    `{!forall x, Decision (P x)} (l : list A) :
  StronglySorted R l -> StronglySorted R (filter P l).
Proof.
  induction 1 as [|x l _ IH Hx]; [constructor|].
  rewrite filter_cons. destruct (decide (P x)); [|done].
  constructor; [done|]. rewrite Forall_forall in *.
  intros y [_ Hy]%list_elem_of_filter. by apply Hx.
Qed.

Lemma StronglySorted_take {A} (R : relation A) (n : nat) (l : list A) :
  StronglySorted R l -> StronglySorted R (take n l).
Proof.
  intros Hs. rewrite <- (take_drop n l) in Hs.
  by apply StronglySorted_app_1_l in Hs.
Qed.

Lemma StronglySorted_Forall2 {A B} (R : relation A) (S : relation B)
    (P : A -> B -> Prop) (l : list A) (k : list B) :
  (forall x1 x2 y1 y2, P x1 y1 -> P x2 y2 -> R x1 x2 -> S y1 y2) ->
  Forall2 P l k -> StronglySorted R l -> StronglySorted S k.
Proof.
  intros HRS. induction 1 as [|x y l k Hxy Hlk IH]; [constructor|].
  intros [Hx Hl]%StronglySorted_cons. constructor; [by apply IH|].
  clear IH Hl. induction Hlk as [|x' y' l k Hxy' _ IH]; [constructor|].
  apply Forall_cons in Hx as [Hx' Hx]. constructor; [by eapply HRS|by apply IH].
Qed.

Lemma length_filter_ne (l : list nat) (i : nat) :
  NoDup l -> i ∈ l -> length (filter (fun x => x ≠ i) l) + 1 = length l.
Proof.
  induction 1 as [|x l Hx Hnd IH]; [by intros ?%elem_of_nil|].
  rewrite filter_cons. intros [->|Hi]%elem_of_cons.
  - rewrite decide_False by (intros Hne; by apply Hne). simpl.
    assert (filter (fun x0 => x0 ≠ x) l = l) as ->; [|lia].
    clear IH Hnd. induction l as [|y l IH]; [done|].
    rewrite filter_cons_True by (intros ->; apply Hx; left).
    f_equal. apply IH. intros Hin. apply Hx. by right.
  - rewrite decide_True by (intros ->; done). simpl. rewrite <- (IH Hi). lia.
Qed.

(** ** Name lookup *)

Lemma last_filter_lookup {A} (P : A -> Prop) `{!forall x, Decision (P x)}
    (l : list A) (i : nat) (x : A) :
  l !! i = Some x -> P x ->
  (forall j y, l !! j = Some y -> P y -> j <= i) ->
  last (filter P l) = Some x.
Proof.
  intros Hi Hx Hlast.
  rewrite <- (take_drop_middle l i x Hi), filter_app, filter_cons_True by done.
  assert (filter P (drop (S i) l) = []) as ->.
  { apply elem_of_nil_inv. intros y [Hy Hin]%list_elem_of_filter.
    apply list_elem_of_lookup in Hin as [j Hj]. rewrite lookup_drop in Hj.
    pose proof (Hlast _ _ Hj Hy). lia. }
  by rewrite last_snoc.
Qed.

Lemma partial_match_scan (key : string) (meds : list medicine) :
  partial_match key meds = substring_scan meds key.
Proof.
  unfold substring_scan. induction meds as [|med meds IH]; [done|].
  simpl. rewrite filter_cons.
  destruct (Text.contains key (Text.lower (name med))) eqn:Hc.
  - by rewrite decide_True.
  - by rewrite decide_False.
Qed.

Lemma lower_empty (s : string) : Text.lower s = EmptyString -> s = EmptyString.
Proof. by destruct s. Qed.

Section Lookup.
Context {L : Library}.

Lemma lookup_medicine_two_tier_lookup (self : MedicineRecommender) (q : string) :
  loaded self ->
  lookup_medicine self q = Returns (two_tier_lookup (medicines self) q).
Proof.
  unfold loaded, lookup_medicine, two_tier_lookup, exact_match. intros ->.
  destruct (index_map (medicines self) !! _) as [idx|] eqn:Hidx.
  - apply index_map_lookup_Some in Hidx as [(med & Hm & Hn) Hlast].
    unfold getitem. rewrite Hm. run_method.
    by rewrite (last_filter_lookup _ _ idx med Hm Hn Hlast).
  - apply index_map_lookup_None in Hidx.
    assert (filter (fun med => Text.lower (name med) = Text.strip (Text.lower q))
                   (medicines self) = []) as ->.
    { apply elem_of_nil_inv. intros y [Hy Hin]%list_elem_of_filter.
      rewrite Forall_forall in Hidx. by apply (Hidx y). }
    run_method. by rewrite partial_match_scan.
Qed.

Lemma two_tier_lookup_member (meds : list medicine) (q : string) (med : medicine) :
  two_tier_lookup meds q = Some med -> med ∈ meds.
Proof.
  unfold two_tier_lookup, exact_match, substring_scan.
  destruct (last _) as [m|] eqn:Hl.
  - intros [= <-]. apply last_filter_Some in Hl as (l1 & l2 & -> & _).
    apply elem_of_app. right. left.
  - intros (l1 & l2 & -> & _)%head_filter_Some.
    apply elem_of_app. right. left.
Qed.

End Lookup.

(** ** Ranking in a trained recommender *)

Section Trained.
Context {L : Library} {Laws : LibraryLaws L}.

Lemma argsort_valid (s : list score) :
  Forall (fun idx => idx < length s) (reverse (argsort s)).
Proof.
  rewrite Forall_forall. intros idx Hin. rewrite elem_of_reverse in Hin.
  rewrite (argsort_permutation s) in Hin. apply elem_of_seq in Hin. lia.
Qed.

Lemma rank_spec (self : MedicineRecommender) (X : list vector)
    (med : medicine) (top_n : Z) (exclude_self : bool) :
  trained self -> feature_vectors self = Some X -> med ∈ medicines self ->
  exists input_idx similarities entries,
    index_map (medicines self) !! Text.lower (name med) = Some input_idx /\
    input_idx < length (medicines self) /\
    query_similarities self X med = Returns similarities /\
    length similarities = length (medicines self) /\
    Forall2 (entry_at (medicines self) similarities)
            (filter (kept input_idx exclude_self) (reverse (argsort similarities)))
            entries /\
    rank self X med top_n exclude_self =
    Returns (take (Z.to_nat (Z.max 1 top_n)) entries).
Proof.
  intros [Hl (X' & HX' & Hlen)] HX Hin. rewrite HX in HX'. injection HX' as <-.
  destruct (index_map_lookup_member _ _ Hin) as (idx & Hidx & Hlt).
  destruct (lookup_lt_is_Some_2 X idx) as [v Hv]; [lia|].
  set (sims := cosine_similarity v X).
  assert (length sims = length (medicines self)) as Hsims.
  { unfold sims. by rewrite cosine_similarity_length. }
  destruct (entries_exist (medicines self) sims
              (filter (kept idx exclude_self) (reverse (argsort sims))) Hsims)
    as [entries Hent].
  { rewrite <- Hsims. rewrite Forall_forall. intros i [_ Hi]%list_elem_of_filter.
    pose proof (argsort_valid sims) as Hv'. rewrite Forall_forall in Hv'.
    by apply Hv'. }
  exists idx, sims, entries. split_and!; try done.
  - unfold query_similarities, getkey, getitem. rewrite Hl, Hidx. run_method.
    by rewrite Hv.
  - unfold rank, getkey, getitem. rewrite Hl, Hidx. run_method. rewrite Hv.
    run_method. fold sims.
    rewrite (build_results_spec _ _ _ _ _ _ entries []) by done.
    simpl. by rewrite Z.sub_0_r.
Qed.

Lemma recommend_similar_trained (self : MedicineRecommender) (q : string)
    (med : medicine) (top_n : Z) (exclude_self : bool) :
  trained self ->
  value (find_medicine q self) = Returns (Some med) ->
  exists X, feature_vectors self = Some X /\ med ∈ medicines self /\
    recommend_similar q top_n exclude_self self =
    Outcome (rank self X med top_n exclude_self) self [].
Proof.
  intros Ht Hfind. pose proof Ht as [Hl (X & HX & _)].
  rewrite find_medicine_run in Hfind. simpl in Hfind.
  exists X. split; [done|]. split.
  - rewrite lookup_medicine_two_tier_lookup in Hfind by done.
    injection Hfind as Hfind. by eapply two_tier_lookup_member.
  - by rewrite recommend_similar_run, HX, Hfind.
Qed.

End Trained.


(** ** Loading and training *)

Section Lifecycle.
Context {L : Library} {Laws : LibraryLaws L}.

Lemma load_database_run (self : MedicineRecommender) (db : database) :
  load_database db self =
  match db with
  | Missing => Outcome (Returns false) self [DatabaseNotFound (database_path self)]
  | Malformed => Outcome (Returns false) self [InvalidJSON (database_path self)]
  | Document data =>
      let meds := default [] data in
      Outcome (Returns true)
        (set_medicine_index_map (index_map meds) (set_medicines meds self))
        [Loaded (length meds)]
  end.
Proof. by destruct db. Qed.

Lemma train_model_run (self : MedicineRecommender) :
  train_model self =
  match medicines self with
  | [] => Outcome (Returns false) self [NoMedicinesLoaded]
  | _ =>
      match fit_transform (map prepare_features (medicines self)) with
      | Raises e => Outcome (Raises e) (with_vectorizer self) []
      | Returns fitted =>
          Outcome (Returns true)
            (set_feature_vectors (Some fitted.2)
               (set_vectorizer (Some (Fitted fitted.1)) (with_vectorizer self)))
            [ModelTrained (length (medicines self)); FeatureSpace (n_columns fitted.2)]
      end
  end.
Proof.
  destruct self as [path [|med meds] v X m]; [reflexivity|].
  destruct v as [v|]; lazy;
    match goal with |- context [match ?r with Returns _ => _ | Raises _ => _ end] =>
      by destruct r
    end.
Qed.

Lemma init_loaded (path : string) : loaded (init path).
Proof. done. Qed.

Lemma load_database_loaded (self : MedicineRecommender) (db : database) :
  loaded self -> loaded (self_after (load_database db self)).
Proof. intros Hl. rewrite load_database_run. by destruct db. Qed.

Lemma train_model_trained (self : MedicineRecommender) :
  loaded self ->
  value (train_model self) = Returns true ->
  trained (self_after (train_model self)).
Proof.
  intros Hl. rewrite train_model_run.
  destruct (medicines self) as [|med meds] eqn:Hmeds; [done|].
  destruct (fit_transform _) as [[m X]|e] eqn:Hfit; [|done]. intros _.
  apply fit_transform_rows in Hfit. rewrite length_map in Hfit.
  split.
  - unfold loaded, with_vectorizer in *. by destruct (vectorizer self).
  - exists X. split; [done|]. simpl. rewrite Hfit.
    unfold with_vectorizer. destruct (vectorizer self); simpl; by rewrite Hmeds.
Qed.

End Lifecycle.

(** ** The stable argsort meets the contract of [argsort] *)

Section StableArgsortCorrect.
Context {A : Type} (le : relation A).
Context `{!RelDecision le, !Transitive le, !Total le}.

Lemma insert_key_Permutation (p : nat * A) (l : list (nat * A)) :
  insert_key le p l ≡ₚ p :: l.
Proof.
  induction l as [|q l IH]; [done|]. simpl.
  destruct (decide (le q.2 p.2)); [|done].
  rewrite IH. apply Permutation_swap.
Qed.

Lemma insert_key_sorted (p : nat * A) (l : list (nat * A)) :
  StronglySorted (fun a b => le a.2 b.2) l ->
  StronglySorted (fun a b => le a.2 b.2) (insert_key le p l).
Proof.
  induction 1 as [|q l Hl IH Hq]; simpl; [repeat constructor|].
  destruct (decide (le q.2 p.2)) as [Hle|Hnle].
  - constructor; [done|]. rewrite insert_key_Permutation. by constructor.
  - assert (le p.2 q.2) as Hpq by (by destruct (total le p.2 q.2)).
    constructor; [by constructor|]. constructor; [done|].
    eapply Forall_impl; [exact Hq|]. intros r Hr. simpl in *. by etrans.
Qed.

Lemma foldl_insert_key_Permutation (l acc : list (nat * A)) :
  foldl (fun sorted p => insert_key le p sorted) acc l ≡ₚ acc ++ l.
Proof.
  revert acc. induction l as [|p l IH]; intros acc; simpl.
  - by rewrite app_nil_r.
  - rewrite IH, insert_key_Permutation. simpl. apply Permutation_middle.
Qed.

Lemma foldl_insert_key_sorted (l acc : list (nat * A)) :
  StronglySorted (fun a b => le a.2 b.2) acc ->
  StronglySorted (fun a b => le a.2 b.2)
    (foldl (fun sorted p => insert_key le p sorted) acc l).
Proof.
  revert acc. induction l as [|p l IH]; intros acc Hacc; simpl; [done|].
  by apply IH, insert_key_sorted.
Qed.

Lemma stable_argsort_permutation (s : list A) :
  stable_argsort le s ≡ₚ seq 0 (length s).
Proof.
  unfold stable_argsort. rewrite foldl_insert_key_Permutation. simpl.
  unfold enumerate. by rewrite fst_zip by (by rewrite length_seq).
Qed.

Lemma enumerate_lookup (s : list A) :
  Forall (fun p => s !! p.1 = Some p.2) (enumerate s).
Proof.
  unfold enumerate. rewrite Forall_forall. intros [i x] Hin.
  apply list_elem_of_lookup in Hin as [j Hj].
  apply lookup_zip_with_Some in Hj as (a & b & [= <- <-] & Ha & Hb).
  apply lookup_seq in Ha as [-> _]. done.
Qed.

Lemma stable_argsort_ascending (s : list A) :
  StronglySorted
    (fun a b => forall x y, s !! a = Some x -> s !! b = Some y -> le x y)
    (stable_argsort le s).
Proof.
  unfold stable_argsort.
  set (sorted := foldl _ _ _).
  assert (Forall (fun p => s !! p.1 = Some p.2) sorted) as Hlk.
  { unfold sorted. rewrite foldl_insert_key_Permutation. apply enumerate_lookup. }
  assert (StronglySorted (fun a b => le a.2 b.2) sorted) as Hs.
  { apply foldl_insert_key_sorted. constructor. }
  clearbody sorted. induction Hs as [|p l _ IH Hp]; [constructor|].
  apply Forall_cons in Hlk as [Hp1 Hl]. simpl. constructor; [by apply IH|].
  clear IH. induction l as [|q l IH]; [constructor|].
  apply Forall_cons in Hp as [Hpq Hp]. apply Forall_cons in Hl as [Hq1 Hl].
  constructor; [|by apply IH].
  intros x y Hx Hy. rewrite Hp1 in Hx. rewrite Hq1 in Hy. by simplify_eq.
Qed.

(** Equal keys stay in index order. *)
Lemma insert_key_stable (p : nat * A) (l : list (nat * A)) :
  StronglySorted (fun a b => le a.2 b.2 /\ (le b.2 a.2 -> a.1 < b.1)) l ->
  Forall (fun q => q.1 < p.1) l ->
  StronglySorted (fun a b => le a.2 b.2 /\ (le b.2 a.2 -> a.1 < b.1))
    (insert_key le p l).
Proof.
  induction 1 as [|q l Hl IH Hq]; simpl; [repeat constructor|].
  intros [Hqp Hlp]%Forall_cons.
  destruct (decide (le q.2 p.2)) as [Hle|Hnle].
  - constructor; [by apply IH|]. rewrite insert_key_Permutation.
    by constructor.
  - assert (le p.2 q.2) as Hpq by (by destruct (total le p.2 q.2)).
    constructor; [by constructor|]. constructor; [done|].
    eapply Forall_impl; [exact Hq|]. intros r [Hqr _]. simpl in *. split.
    + by etrans.
    + intros Hrp. destruct Hnle. by etrans.
Qed.

Lemma foldl_insert_key_stable (l acc : list (nat * A)) :
  StronglySorted (fun a b => le a.2 b.2 /\ (le b.2 a.2 -> a.1 < b.1)) acc ->
  StronglySorted (fun a b => a.1 < b.1) l ->
  Forall (fun a => Forall (fun p => a.1 < p.1) l) acc ->
  StronglySorted (fun a b => le a.2 b.2 /\ (le b.2 a.2 -> a.1 < b.1))
    (foldl (fun sorted p => insert_key le p sorted) acc l).
Proof.
  revert acc. induction l as [|p l IH]; intros acc Hacc Hl Hlt; simpl; [done|].
  apply StronglySorted_cons in Hl as [Hp Hl].
  apply IH; [|done|].
  - apply insert_key_stable; [done|].
    eapply Forall_impl; [exact Hlt|]. by intros a [? _]%Forall_cons.
  - rewrite insert_key_Permutation. constructor; [done|].
    eapply Forall_impl; [exact Hlt|]. by intros a [_ ?]%Forall_cons.
Qed.

Lemma enumerate_increasing (s : list A) (k : nat) :
  StronglySorted (fun a b => a.1 < b.1) (zip (seq k (length s)) s).
Proof.
  revert k. induction s as [|x s IH]; intros k; simpl; constructor; [apply IH|].
  rewrite Forall_forall. intros [i y] Hin. apply elem_of_zip_l in Hin.
  apply elem_of_seq in Hin. simpl. lia.
Qed.

Lemma stable_argsort_keeps_ties (s : list A) :
  StronglySorted
    (fun a b => forall x y, s !! a = Some x -> s !! b = Some y ->
                            le y x -> a < b)
    (stable_argsort le s).
Proof.
  unfold stable_argsort.
  set (sorted := foldl _ _ _).
  assert (Forall (fun p => s !! p.1 = Some p.2) sorted) as Hlk.
  { unfold sorted. rewrite foldl_insert_key_Permutation. apply enumerate_lookup. }
  assert (StronglySorted (fun a b => le a.2 b.2 /\ (le b.2 a.2 -> a.1 < b.1))
            sorted) as Hs.
  { apply foldl_insert_key_stable; [constructor|apply enumerate_increasing|constructor]. }
  clearbody sorted. induction Hs as [|p l _ IH Hp]; [constructor|].
  apply Forall_cons in Hlk as [Hp1 Hl]. simpl. constructor; [by apply IH|].
  clear IH. induction l as [|q l IH]; [constructor|].
  apply Forall_cons in Hp as [[_ Hpq] Hp]. apply Forall_cons in Hl as [Hq1 Hl].
  constructor; [|by apply IH].
  intros x y Hx Hy Hyx. rewrite Hp1 in Hx. rewrite Hq1 in Hy. simplify_eq.
  by apply Hpq.
Qed.

End StableArgsortCorrect.

Lemma count_fit_rows docs m X :
  count_fit docs = Returns (m, X) -> length X = length docs.
Proof.
  unfold count_fit. destruct (count_fit_transform docs) as [cols|e]; [|done].
  intros [= _ <-]. unfold count_rows. by rewrite length_fmap, length_seq.
Qed.

Lemma exact_library_laws : LibraryLaws exact_library.
Proof.
  split; try apply _.
  - exact count_fit_rows.
  - intros v X. apply length_fmap.
  - apply (stable_argsort_permutation le).
  - apply (stable_argsort_ascending le).
Qed.

(** ** The fitted vocabulary *)

Lemma elem_of_concat {A} (x : A) (ls : list (list A)) :
  x ∈ concat ls <-> exists l, l ∈ ls /\ x ∈ l.
Proof.
  induction ls as [|l ls IH]; simpl.
  - split; [by intros ?%elem_of_nil|]. by intros (l & ?%elem_of_nil & _).
  - rewrite elem_of_app, IH. split.
    + intros [Hx|(l' & Hl' & Hx)]; [exists l; split; [left|done]|].
      exists l'. split; [by right|done].
    + intros (l' & [->|Hl']%elem_of_cons & Hx); [by left|]. right. by exists l'.
Qed.

Lemma first_seen_elem_of (t : string) (feats : list string) :
  t ∈ first_seen feats <-> t ∈ feats.
Proof.
  unfold first_seen.
  assert (forall acc,
    t ∈ foldl (fun acc t0 => if decide (t0 ∈ acc) then acc else acc ++ [t0])
              acc feats <-> t ∈ acc \/ t ∈ feats) as Hgen.
  { induction feats as [|f feats IH]; intros acc; simpl.
    - split; [by left|]. by intros [?|?%elem_of_nil].
    - rewrite IH, elem_of_cons. destruct (decide (f ∈ acc)) as [Hf|Hf].
      + split; [tauto|]. intros [?|[->|?]]; tauto.
      + rewrite elem_of_app, list_elem_of_singleton. tauto. }
  rewrite Hgen. split; [|by right]. by intros [?%elem_of_nil|?].
Qed.

Lemma count_pos (t : string) (feats : list string) :
  0 < count t feats <-> t ∈ feats.
Proof.
  unfold count. induction feats as [|f feats IH]; simpl.
  - split; [lia|by intros ?%elem_of_nil].
  - rewrite filter_cons, elem_of_cons. destruct (decide (f = t)) as [->|Hne].
    + simpl. split; [by left|lia].
    + rewrite IH. split; [by right|]. by intros [->|?].
Qed.

Lemma document_frequency_df (docs : list string) (t : string) :
  document_frequency (count t <$> (analyze <$> docs)) = df docs t.
Proof.
  unfold document_frequency, df. induction docs as [|doc docs IH]; [done|].
  rewrite !fmap_cons, !filter_cons.
  destruct (decide (0 < count t (analyze doc))) as [Hc|Hc];
    destruct (decide (t ∈ analyze doc)) as [Hin|Hin]; simpl;
    rewrite ?IH; try done; by apply count_pos in Hc || apply count_pos in Hin.
Qed.

Lemma df_pos (docs : list string) (t : string) :
  1 <= df docs t <-> t ∈ concat (analyze <$> docs).
Proof.
  rewrite elem_of_concat. unfold df. split.
  - intros Hpos. destruct (filter _ docs) as [|doc l] eqn:Hf; [simpl in Hpos; lia|].
    assert (doc ∈ filter (fun doc => t ∈ analyze doc) docs) as Hin
      by (rewrite Hf; left).
    apply list_elem_of_filter in Hin as [Ht Hd].
    exists (analyze doc). split; [by apply list_elem_of_fmap_2|done].
  - intros (l & (doc & -> & Hd)%list_elem_of_fmap & Ht).
    assert (doc ∈ filter (fun doc => t ∈ analyze doc) docs) as Hin
      by (by apply list_elem_of_filter).
    destruct (filter _ docs); [by apply elem_of_nil in Hin|simpl; lia].
Qed.

Lemma within_bounds_spec (n_doc dfc : nat) :
  within_bounds n_doc dfc = true <-> 1 <= dfc /\ 100 * dfc <= 95 * n_doc.
Proof.
  unfold within_bounds, min_df, max_df_percent.
  by rewrite andb_true_iff, !Nat.leb_le.
Qed.

Lemma count_fit_transform_columns (docs : list string) (cols : list column) :
  count_fit_transform docs = Returns cols ->
  forall col, col ∈ cols <->
    col.2 = (count col.1 <$> (analyze <$> docs)) /\
    1 <= df docs col.1 /\ 100 * df docs col.1 <= 95 * length docs.
Proof.
  unfold count_fit_transform, count_vocab, limit_features.
  unfold mbind, mret, result_bind, result_ret.
  destruct (first_seen _) as [|t0 vocab] eqn:Hvocab; [done|].
  cbv beta iota zeta.
  match goal with |- context [if ?b then _ else _] => destruct b end; [done|].
  destruct (filter _ _) as [|c0 kept] eqn:Hkept; [done|].
  intros [= <-] col. unfold sort_features.
  rewrite merge_sort_Permutation, <- Hkept, list_elem_of_filter.
  rewrite within_bounds_spec, list_elem_of_fmap, <- Hvocab.
  split.
  - intros [Hb (t & -> & Ht)]. simpl in *.
    by rewrite document_frequency_df in Hb.
  - intros (Hcol & Hdf). destruct col as [t col]. simpl in *. subst col.
    rewrite document_frequency_df. split; [done|]. exists t. split; [done|].
    apply first_seen_elem_of, df_pos. tauto.
Qed.

(** ** The lookup of the specification *)

Lemma two_tier_lookup_findByName (meds : list medicine) (q : string) :
  two_tier_lookup meds q = findByName meds (Text.strip q).
Proof.
  unfold two_tier_lookup, findByName, exact_match, substring_scan.
  rewrite case_fold_lower, <- strip_lower.
  set (key := Text.strip (Text.lower q)).
  assert (filter (fun med => case_fold (name med) = key) meds =
          filter (fun med => Text.lower (name med) = key) meds) as ->.
  { apply list_filter_iff. intros med. by rewrite case_fold_lower. }
  assert (filter (fun med => Text.contains key (case_fold (name med)) = true) meds =
          filter (fun med => Text.contains key (Text.lower (name med)) = true) meds)
    as ->; [|done].
  apply list_filter_iff. intros med. by rewrite case_fold_lower.
Qed.

(** * The properties of the specification *)

Section Claims.
Context {L : Library} {Laws : LibraryLaws L}.

(** C1, amended.  In a trained recommender, for a query that resolves to a
    record, [recommend_similar] returns a list whose scores never increase
    from one entry to the next.  The entries follow the reversed output of
    [argsort]: their catalogue positions form a sublist of it, so results
    with equal scores come in the reverse of the order in which [argsort]
    leaves them, not in ascending catalogue position. *)
Theorem recommend_similar_descending (self : MedicineRecommender) (q : string)
    (top_n : Z) (exclude_self : bool) (med : medicine) :
  trained self ->
  value (find_medicine q self) = Returns (Some med) ->
  exists X similarities idxs recs,
    feature_vectors self = Some X /\
    query_similarities self X med = Returns similarities /\
    value (recommend_similar q top_n exclude_self self) = Returns recs /\
    StronglySorted (fun a b => score_le b.2 a.2) recs /\
    idxs `sublist_of` reverse (argsort similarities) /\
    Forall2 (entry_at (medicines self) similarities) idxs recs.
Proof.
  intros Ht Hfind.
  destruct (recommend_similar_trained self q med top_n exclude_self Ht Hfind)
    as (X & HX & Hin & Hrun).
  destruct (rank_spec self X med top_n exclude_self Ht HX Hin)
    as (idx & sims & entries & _ & _ & Hsims & _ & Hent & Hrank).
  set (n := Z.to_nat (Z.max 1 top_n)) in *.
  exists X, sims,
    (take n (filter (kept idx exclude_self) (reverse (argsort sims)))),
    (take n entries).
  split_and!; try done.
  - by rewrite Hrun, Hrank.
  - apply StronglySorted_take.
    eapply (StronglySorted_Forall2 _ _ _ _ _ _ Hent).
    apply StronglySorted_filter, StronglySorted_rev, argsort_ascending.
  - etrans; [apply sublist_take|apply sublist_filter].
  - by apply Forall2_take.
  Unshelve.
  intros i j a b [_ Hi] [_ Hj] Hij. simpl. unfold flip in Hij. by apply Hij.
Qed.

(** C2, amended.  [load_database] on a document with no records succeeds:
    it prints that 0 medicines were loaded and returns [True], leaving the
    catalogue and the name index empty.  It is [train_model] that rejects
    the empty catalogue: called next, it prints the no-medicines line and
    returns [False] without touching the recommender. *)
Theorem load_database_no_records (self : MedicineRecommender)
    (data : option (list medicine)) :
  default [] data = [] ->
  let self' := self_after (load_database (Document data) self) in
  load_database (Document data) self = Outcome (Returns true) self' [Loaded 0] /\
  medicines self' = [] /\
  medicine_index_map self' = ∅ /\
  feature_vectors self' = feature_vectors self /\
  train_model self' = Outcome (Returns false) self' [NoMedicinesLoaded].
Proof.
  intros Hdata. rewrite load_database_run. simpl. rewrite Hdata.
  by split_and!.
Qed.

(** C3, amended.  While no training has completed ([feature_vectors] is
    still [None]) [recommend_similar] prints the model-not-trained line and
    returns the empty list, for every query, without changing the
    recommender; it raises nothing. *)
Theorem recommend_similar_untrained (self : MedicineRecommender) (q : string)
    (top_n : Z) (exclude_self : bool) :
  feature_vectors self = None ->
  recommend_similar q top_n exclude_self self =
  Outcome (Returns []) self [ModelNotTrained].
Proof. intros Hnone. by rewrite recommend_similar_run, Hnone. Qed.

(** Where no two records share a lowercased name, [exclude_self=True] keeps
    the resolved record out of the results (the reading of C4 that the code
    meets). *)
Lemma recommend_similar_excludes_query (self : MedicineRecommender)
    (q : string) (top_n : Z) (med : medicine) :
  trained self ->
  NoDup ((fun m => Text.lower (name m)) <$> medicines self) ->
  value (find_medicine q self) = Returns (Some med) ->
  exists recs,
    value (recommend_similar q top_n true self) = Returns recs /\
    med ∉ recs.*1.
Proof.
  intros Ht Hnd Hfind.
  destruct (recommend_similar_trained self q med top_n true Ht Hfind)
    as (X & HX & Hin & Hrun).
  destruct (rank_spec self X med top_n true Ht HX Hin)
    as (idx & sims & entries & Hidx & _ & _ & _ & Hent & Hrank).
  exists (take (Z.to_nat (Z.max 1 top_n)) entries).
  split; [by rewrite Hrun, Hrank|].
  intros (e & -> & He)%list_elem_of_fmap.
  apply list_elem_of_lookup in He as [i Hi]. apply lookup_take_Some in Hi as [Hi _].
  destruct (Forall2_lookup_r _ _ _ _ _ Hent Hi) as (idx' & Hidx' & Hm & _).
  apply list_elem_of_lookup_2, list_elem_of_filter in Hidx' as [Hk _].
  pose proof (index_map_lookup_unique _ _ _ Hnd Hm) as Hu.
  rewrite Hidx in Hu. injection Hu as ->. by apply Hk.
Qed.

(** C5.  In a trained recommender over M records, for a query that resolves
    to a record and [top_n >= 1], [recommend_similar] with
    [exclude_self=True] returns at most [top_n] entries, and exactly
    [min(top_n, M - 1)] of them. *)
Theorem recommend_similar_length (self : MedicineRecommender) (q : string)
    (top_n : Z) (med : medicine) :
  trained self ->
  value (find_medicine q self) = Returns (Some med) ->
  (1 <= top_n)%Z ->
  exists recs,
    value (recommend_similar q top_n true self) = Returns recs /\
    (Z.of_nat (length recs) <= top_n)%Z /\
    length recs = Z.to_nat top_n `min` (length (medicines self) - 1).
Proof.
  intros Ht Hfind Htop.
  destruct (recommend_similar_trained self q med top_n true Ht Hfind)
    as (X & HX & Hin & Hrun).
  destruct (rank_spec self X med top_n true Ht HX Hin)
    as (idx & sims & entries & _ & Hlt & _ & Hsims & Hent & Hrank).
  exists (take (Z.to_nat (Z.max 1 top_n)) entries).
  split; [by rewrite Hrun, Hrank|].
  assert (length entries + 1 = length (medicines self)) as Hlen.
  { rewrite <- (Forall2_length _ _ _ Hent).
    rewrite (list_filter_iff _ (fun x => x ≠ idx)).
    2:{ intros x. unfold kept. split; [intros Hk ->; by apply Hk|by intros ? [_ ?]]. }
    rewrite filter_reverse, length_reverse.
    rewrite (filter_Permutation _ _ _ (argsort_permutation sims)).
    rewrite length_filter_ne; [by rewrite length_seq| apply NoDup_seq|].
    apply elem_of_seq. lia. }
  rewrite length_take. lia.
Qed.

(** C6.  On a loaded catalogue [find_medicine] answers as [findByName]
    does on the query stripped of its surrounding whitespace: the exact,
    case-insensitive match through the name index first; only on an exact
    miss the first record in catalogue order whose name contains the
    stripped query, case ignored; [None] when both tiers miss. *)
Theorem find_medicine_two_tiers (self : MedicineRecommender) (q : string) :
  loaded self ->
  value (find_medicine q self) =
  Returns (findByName (medicines self) (Text.strip q)).
Proof.
  intros Hl. rewrite find_medicine_run. simpl.
  rewrite lookup_medicine_two_tier_lookup by done.
  by rewrite two_tier_lookup_findByName.
Qed.

(** C9.  On a loaded, non-empty catalogue whose names are all non-empty,
    [find_medicine] applied to the empty string or to a string of
    whitespace resolves to the first record of the catalogue. *)
Theorem find_medicine_blank (self : MedicineRecommender) (q : string)
    (first : medicine) (rest : list medicine) :
  loaded self ->
  medicines self = first :: rest ->
  Forall (fun med => name med ≠ EmptyString) (medicines self) ->
  Text.all_space q ->
  value (find_medicine q self) = Returns (Some first).
Proof.
  intros Hl Hmeds Hnames Hq. rewrite find_medicine_run. simpl.
  unfold lookup_medicine. rewrite (strip_lower_all_space q Hq), Hl.
  assert (index_map (medicines self) !! EmptyString = None) as ->.
  { apply index_map_lookup_None. eapply Forall_impl; [exact Hnames|].
    intros med Hne Hlow. by apply Hne, lower_empty. }
  run_method. rewrite Hmeds. simpl. by rewrite contains_empty.
Qed.

(** C10.  [find_medicine] and [recommend_similar] leave the recommender as
    they found it - catalogue, name index, vectorizer and feature vectors -
    whatever their arguments and whether they return or raise. *)
Theorem lookups_preserve_state (self : MedicineRecommender) (q : string)
    (top_n : Z) (exclude_self : bool) :
  self_after (find_medicine q self) = self /\
  self_after (recommend_similar q top_n exclude_self self) = self.
Proof.
  split; [by rewrite find_medicine_run|].
  rewrite recommend_similar_run.
  destruct (feature_vectors self); [|done].
  by destruct (lookup_medicine self q) as [[?|]|?].
Qed.

End Claims.

(** * The fitted vocabulary and the terms of the specification *)













(** * Similarity scores *)

(** ** The weighted library meets the contracts *)

Lemma tfidf_fit_transform_rows {A : Arithmetic} docs m X :
  Tfidf.fit_transform docs = Returns (m, X) -> length X = length docs.
Proof.
  unfold Tfidf.fit_transform. destruct (count_fit_transform docs) as [cols|e]; [|done].
  intros [= _ <-]. unfold count_rows. by rewrite !length_fmap, length_seq.
Qed.

Lemma tfidf_library_laws (A : Arithmetic) :
  Transitive (@num_le A) -> Total (@num_le A) -> LibraryLaws (@Tfidf.library A).
Proof.
  intros Htrans Htotal. split.
  - exact Htrans.
  - exact Htotal.
  - exact tfidf_fit_transform_rows.
  - intros v X. apply length_fmap.
  - apply (stable_argsort_permutation num_le).
  - apply (stable_argsort_ascending num_le).
Qed.

Lemma real_library_laws : LibraryLaws (@Tfidf.library reals).
Proof.
  apply tfidf_library_laws.
  - intros x y z. apply Rle_trans.
  - intros x y. destruct (Rle_or_lt x y) as [?|?]; [by left|right]. by apply Rlt_le.
Qed.

(** ** Exact arithmetic *)

Local Ltac refold := repeat change (list_fmap ?B ?C ?f ?l) with (f <$> l) in *.

Lemma foldl_Rsum {B} (g : B -> R) (a : R) (l : list B) :
  foldl (fun s x => s + g x)%R a l = (a + Rsum (g <$> l))%R.
Proof.
  revert a. induction l as [|x l IH]; intros a; simpl; [lra|].
  rewrite IH. refold. lra.
Qed.

Lemma sum_squares_Rsum (v : list R) :
  Tfidf.sum_squares (A := reals) v = Rsum ((fun x => x * x)%R <$> v).
Proof.
  unfold Tfidf.sum_squares. simpl. rewrite (foldl_Rsum (fun x => x * x)%R). lra.
Qed.

Lemma safe_sparse_dot_Rsum (v w : list R) :
  Tfidf.safe_sparse_dot (A := reals) v w =
  Rsum ((fun p : R * R => p.1 * p.2)%R <$> zip v w).
Proof.
  unfold Tfidf.safe_sparse_dot. simpl.
  rewrite (foldl_Rsum (fun p : R * R => p.1 * p.2)%R). lra.
Qed.

Lemma Rsum_nonneg (l : list R) : Forall (fun x => 0 <= x)%R l -> (0 <= Rsum l)%R.
Proof. induction 1 as [|x l Hx _ IH]; simpl; refold; lra. Qed.

Lemma sum_squares_nonneg (v : list R) : (0 <= Tfidf.sum_squares (A := reals) v)%R.
Proof.
  rewrite sum_squares_Rsum. apply Rsum_nonneg, Forall_fmap, Forall_forall.
  intros x _. simpl. nra.
Qed.

Lemma Rsum_squares_scaled (n : R) (v : list R) :
  n <> 0%R ->
  Rsum ((fun x => x * x)%R <$> ((fun x => x / n)%R <$> v)) =
  (Rsum ((fun x => x * x)%R <$> v) / (n * n))%R.
Proof.
  intros Hn. induction v as [|x v IH]; simpl; refold.
  - field. done.
  - rewrite IH. field. done.
Qed.

Lemma normalize_cases (v : list R) :
  (Tfidf.sum_squares (A := reals) v = 0%R /\ Tfidf.normalize (A := reals) v = v) \/
  (0 < sqrt (Tfidf.sum_squares (A := reals) v) /\
   Tfidf.normalize (A := reals) v =
   (fun x => x / sqrt (Tfidf.sum_squares (A := reals) v))%R <$> v)%R.
Proof.
  unfold Tfidf.normalize. cbn [num_is_zero num_sqrt num_div reals].
  pose proof (sum_squares_nonneg v) as Hs.
  destruct (Req_EM_T _ _) as [Hz|Hnz].
  - left. split; [|done]. by apply sqrt_eq_0.
  - right. split; [|done]. pose proof (sqrt_pos (Tfidf.sum_squares (A := reals) v)). lra.
Qed.

Lemma sum_squares_normalize (v : list R) :
  (Tfidf.sum_squares (A := reals) (Tfidf.normalize (A := reals) v) <= 1)%R.
Proof.
  destruct (normalize_cases v) as [[Hz ->]|[Hpos ->]]; [lra|].
  rewrite sum_squares_Rsum, Rsum_squares_scaled by lra.
  rewrite <- sum_squares_Rsum, sqrt_sqrt by apply sum_squares_nonneg.
  assert (Tfidf.sum_squares (A := reals) v <> 0%R) as Hne.
  { intros Hz. rewrite Hz, sqrt_0 in Hpos. lra. }
  right. by field.
Qed.

Lemma normalize_nonneg (v : list R) :
  Forall (fun x => 0 <= x)%R v ->
  Forall (fun x => 0 <= x)%R (Tfidf.normalize (A := reals) v).
Proof.
  intros Hv. destruct (normalize_cases v) as [[Hz ->]|[Hpos ->]]; [done|].
  apply Forall_fmap. eapply Forall_impl; [exact Hv|]. intros x Hx. simpl.
  apply Rle_mult_inv_pos; lra.
Qed.

Lemma Rsum_products_le (u w : list R) :
  (2 * Rsum ((fun p : R * R => p.1 * p.2) <$> zip u w) <=
   Rsum ((fun x => x * x) <$> u) + Rsum ((fun x => x * x) <$> w))%R.
Proof.
  assert (forall l, 0 <= Rsum ((fun x => x * x) <$> l))%R as Hsq.
  { intros l. apply Rsum_nonneg, Forall_fmap, Forall_forall. intros x _. simpl. nra. }
  revert w. induction u as [|a u IH]; intros [|b w]; simpl; refold.
  - lra.
  - pose proof (Hsq w). nra.
  - pose proof (Hsq u). nra.
  - specialize (IH w).
    assert (2 * (a * b) <= a * a + b * b)%R as Hab.
    { pose proof (Rle_0_sqr (a - b)) as Hsqr. unfold Rsqr in Hsqr. lra. }
    lra.
Qed.

Lemma Rsum_products_nonneg (u w : list R) :
  Forall (fun x => 0 <= x)%R u -> Forall (fun x => 0 <= x)%R w ->
  (0 <= Rsum ((fun p : R * R => p.1 * p.2) <$> zip u w))%R.
Proof.
  intros Hu. revert w. induction Hu as [|a u Ha _ IH]; intros w Hw; [simpl; lra|].
  destruct Hw as [|b w Hb Hw]; simpl; refold; [lra|]. specialize (IH w Hw). nra.
Qed.

Lemma cosine_bounds (v : list R) (X : list (list R)) :
  Forall (fun x => 0 <= x)%R v ->
  Forall (Forall (fun x => 0 <= x)%R) X ->
  Forall (fun s => 0 <= s <= 1)%R (Tfidf.cosine_similarity (A := reals) v X).
Proof.
  intros Hv HX. unfold Tfidf.cosine_similarity. apply Forall_fmap.
  eapply Forall_impl; [exact HX|]. intros y Hy. simpl.
  rewrite safe_sparse_dot_Rsum. split.
  - by apply Rsum_products_nonneg; apply normalize_nonneg.
  - pose proof (Rsum_products_le (Tfidf.normalize (A := reals) v)
                                 (Tfidf.normalize (A := reals) y)) as Hle.
    rewrite <- !sum_squares_Rsum in Hle.
    pose proof (sum_squares_normalize v). pose proof (sum_squares_normalize y). lra.
Qed.

Lemma normalize_zero (zero : list R) :
  Forall (fun x => x = 0%R) zero -> Tfidf.normalize (A := reals) zero = zero.
Proof.
  intros Hz. destruct (normalize_cases zero) as [[_ ->]|[Hpos _]]; [done|].
  exfalso. assert (Tfidf.sum_squares (A := reals) zero = 0%R) as Hs.
  { rewrite sum_squares_Rsum. clear Hpos.
    induction Hz as [|x l -> _ IH]; simpl; refold; lra. }
  rewrite Hs, sqrt_0 in Hpos. lra.
Qed.

Lemma dot_zero_l (zero w : list R) :
  Forall (fun x => x = 0%R) zero ->
  Tfidf.safe_sparse_dot (A := reals) zero w = 0%R.
Proof.
  intros Hz. rewrite safe_sparse_dot_Rsum. revert w.
  induction Hz as [|x l -> _ IH]; intros [|b w]; simpl; refold; try lra.
  rewrite IH. lra.
Qed.

Lemma dot_zero_r (v zero : list R) :
  Forall (fun x => x = 0%R) zero ->
  Tfidf.safe_sparse_dot (A := reals) v zero = 0%R.
Proof.
  intros Hz. rewrite safe_sparse_dot_Rsum. revert v.
  induction Hz as [|x l -> _ IH]; intros [|a v]; simpl; refold; try lra.
  rewrite IH. lra.
Qed.

(** The weights and the rows of the fitted model are not negative. *)
Lemma idf_nonneg (n_samples dfc : nat) :
  dfc <= n_samples ->
  (0 <= idf INR Rdiv Rplus ln n_samples dfc)%R.
Proof.
  intros Hle. unfold idf. simpl.
  assert (0 < INR (dfc + 1))%R as Hpos by (apply lt_0_INR; lia).
  assert (INR (dfc + 1) <= INR (n_samples + 1))%R as Hinr by (apply le_INR; lia).
  assert (1 <= INR (n_samples + 1) / INR (dfc + 1))%R as Hq.
  { apply (Rmult_le_reg_r (INR (dfc + 1))); [done|].
    replace (INR (n_samples + 1) / INR (dfc + 1) * INR (dfc + 1))%R
      with (INR (n_samples + 1)) by (field; lra). lra. }
  assert (0 <= ln (INR (n_samples + 1) / INR (dfc + 1)))%R; [|lra].
  rewrite <- ln_1. destruct Hq as [Hlt| <-]; [|lra]. left. apply ln_increasing; lra.
Qed.

Lemma fitted_rows_nonneg (docs : list string) (m : list string * list R)
    (X : list (list R)) :
  Tfidf.fit_transform (A := reals) docs = Returns (m, X) ->
  Forall (Forall (fun x => 0 <= x)%R) X.
Proof.
  unfold Tfidf.fit_transform.
  destruct (count_fit_transform docs) as [cols|e] eqn:Hfit; [|done].
  intros [= _ <-]. apply Forall_fmap, Forall_forall. intros counts _. simpl.
  apply normalize_nonneg. unfold Tfidf.weigh.
  pose proof (count_fit_transform_columns docs cols Hfit) as Hcols.
  assert (Forall (fun w => 0 <= w)%R
            (idf_ INR Rdiv Rplus ln (length docs) cols)) as Hw.
  { unfold idf_. apply Forall_fmap, Forall_forall. intros col Hcol. simpl.
    apply idf_nonneg. apply Hcols in Hcol as [-> _].
    unfold document_frequency. etrans; [apply length_filter|].
    by rewrite !length_fmap. }
  cbn [num_mul num_of_nat num_div num_add num_log reals].
  revert Hw. generalize (idf_ INR Rdiv Rplus ln (length docs) cols). clear.
  induction counts as [|c counts IH]; intros weights Hw; [constructor|].
  destruct Hw as [|w weights Hw0 Hw]; [constructor|]. simpl. constructor.
  - apply Rmult_le_pos; [apply pos_INR|done].
  - by apply IH.
Qed.

Section RealScores.
#[local] Existing Instance real_library_laws.
Local Abbreviation real_library := (@Tfidf.library reals).

(** C8.  In exact arithmetic every similarity between two feature vectors
    of a trained recommender lies in [[0, 1]], and so does every score that
    [recommend_similar] returns; the similarity of a zero vector with any
    vector, itself included, is 0. *)
Theorem similarity_in_unit_interval (self : @MedicineRecommender real_library) :
  loaded self ->
  value (train_model self) = Returns true ->
  let self' := self_after (train_model self) in
  let X := default [] (feature_vectors self') in
  length X = length (medicines self) /\
  (forall v, v ∈ X ->
     Forall (fun s => 0 <= s <= 1)%R (cosine_similarity (Library := real_library) v X)) /\
  (forall q top_n exclude_self recs,
     value (recommend_similar q top_n exclude_self self') = Returns recs ->
     Forall (fun r => 0 <= r.2 <= 1)%R recs) /\
  (forall zero v,
     Forall (fun x => x = 0%R) zero ->
     cosine_similarity (Library := real_library) zero [v] = [0%R] /\
     cosine_similarity (Library := real_library) v [zero] = [0%R]).
Proof.
  intros Hl Htrain self' X.
  pose proof (train_model_trained self Hl Htrain) as Ht. fold self' in Ht.
  subst X self'. revert Ht. rewrite train_model_run in Htrain |- *.
  destruct (medicines self) as [|med0 meds] eqn:Hmeds; [done|].
  destruct (fit_transform _) as [[m X]|e] eqn:Hfit; [|done].
  cbn [self_after feature_vectors set_feature_vectors snd from_option].
  unfold Datatypes.id. intros Ht.
  pose proof (fitted_rows_nonneg _ _ _ Hfit) as Hnonneg.
  assert (forall v, v ∈ X ->
            Forall (fun s => 0 <= s <= 1)%R
                   (cosine_similarity (Library := real_library) v X)) as Hpairs.
  { intros v Hv. apply cosine_bounds; [|done].
    rewrite Forall_forall in Hnonneg. by apply Hnonneg. }
  split; [|split; [done|split]].
  - apply (fit_transform_rows (L := real_library)) in Hfit.
    by rewrite Hfit, length_map.
  - intros q top_n exclude_self recs. rewrite recommend_similar_run.
    cbn [feature_vectors set_feature_vectors].
    destruct (lookup_medicine _ q) as [[med|]|e] eqn:Hlook; cbn [value];
      [|by intros [= <-]|done].
    intros Hrank.
    assert (med ∈ medicines (set_feature_vectors (Some X)
              (set_vectorizer (Some (Fitted m)) (with_vectorizer self)))) as Hin.
    { destruct Ht as [Hl' _].
      rewrite (lookup_medicine_two_tier_lookup _ q Hl') in Hlook.
      injection Hlook as Hlook. by eapply two_tier_lookup_member. }
    destruct (rank_spec _ X med top_n exclude_self Ht eq_refl Hin)
      as (idx & sims & entries & _ & _ & Hsims & _ & Hent & Hrun).
    rewrite Hrun in Hrank. injection Hrank as <-.
    apply Forall_take.
    assert (Forall (fun s => 0 <= s <= 1)%R sims) as Hbound.
    { unfold query_similarities in Hsims.
      destruct (getkey _ _) as [i|]; [|done]. simpl in Hsims.
      unfold getitem in Hsims.
      match type of Hsims with context [match ?t with _ => _ end] =>
        destruct t as [v|] eqn:Hv end; [|done].
      simpl in Hsims. injection Hsims as <-. apply Hpairs.
      by eapply list_elem_of_lookup_2. }
    clear -Hent Hbound. induction Hent as [|i r idxs entries [_ Hr] _ IH]; [constructor|].
    constructor; [|done]. rewrite Forall_forall in Hbound. apply Hbound.
    by eapply list_elem_of_lookup_2.
  - intros zero v Hz. cbn [cosine_similarity real_library Tfidf.library].
    unfold Tfidf.cosine_similarity. simpl. rewrite (normalize_zero zero Hz).
    by rewrite dot_zero_l, dot_zero_r.
Qed.

End RealScores.

(** * The sample catalogues *)

#[local] Existing Instance exact_library_laws.

Lemma serving_scenario_trained : trained (serving scenario).
Proof.
  split; [vm_compute; reflexivity|].
  eexists. split; vm_compute; reflexivity.
Defined.

(** The scenarios of the specification: lookups ignore case, a fragment of
    a name resolves through the fallback, and Ibuprofen ranks above
    Amoxicillin for Aspirin. *)
Example find_medicine_ignores_case :
  value (find_medicine "aspirin" (serving scenario)) = Returns (Some aspirin) /\
  value (find_medicine "ASPIRIN" (serving scenario)) = Returns (Some aspirin).
Proof. split; vm_compute; reflexivity. Qed.

Example find_medicine_fragment :
  value (find_medicine "spir" (serving scenario)) = Returns (Some aspirin).
Proof. vm_compute; reflexivity. Qed.

Example recommend_similar_scenario :
  value (recommend_similar "Aspirin" 2 true (serving scenario)) =
  Returns [(ibuprofen, 3); (amoxicillin, 0)].
Proof. vm_compute; reflexivity. Qed.

(** A non-positive [top_n] still yields one entry: the loop tests the length
    only after appending. *)
Example recommend_similar_top_n_zero :
  value (recommend_similar "Aspirin" 0 true (serving scenario)) =
  Returns [(ibuprofen, 3)].
Proof. vm_compute; reflexivity. Qed.

(** ** C1 *)

Lemma recommend_similar_descending_witness :
  exists X similarities idxs recs,
    feature_vectors (serving scenario) = Some X /\
    query_similarities (serving scenario) X aspirin = Returns similarities /\
    value (recommend_similar "Aspirin" 2 true (serving scenario)) = Returns recs /\
    StronglySorted (fun a b => score_le b.2 a.2) recs /\
    idxs `sublist_of` reverse (argsort similarities) /\
    Forall2 (entry_at (medicines (serving scenario)) similarities) idxs recs.
Proof.
  apply (recommend_similar_descending (serving scenario) "Aspirin" 2 true aspirin).
  - exact serving_scenario_trained.
  - vm_compute; reflexivity.
Defined.

(** C1 as stated fails.  Amoxicillin and Cetirizine share no term with
    Aspirin, so both score 0 against it; the stable argsort lists them in
    catalogue order and the reversal returns Cetirizine (position 2) before
    Amoxicillin (position 1). *)
Lemma recommend_similar_ties_descending :
  let self := serving [aspirin; amoxicillin; cetirizine] in
  trained self /\
  value (find_medicine "Aspirin" self) = Returns (Some aspirin) /\
  value (recommend_similar "Aspirin" 5 true self) =
    Returns [(cetirizine, 0); (amoxicillin, 0)] /\
  ~ ties_in_catalogue_order (L := exact_library) (medicines self)
      [(cetirizine, 0); (amoxicillin, 0)].
Proof.
  split_and!.
  - split; [vm_compute; reflexivity|].
    eexists. split; vm_compute; reflexivity.
  - vm_compute; reflexivity.
  - vm_compute; reflexivity.
  - intros Hties.
    pose proof (Hties 0 1 (cetirizine, 0) (amoxicillin, 0) 2 1) as Hlt.
    cbn in Hlt. specialize (Hlt ltac:(lia) eq_refl eq_refl ltac:(lia) ltac:(lia)
                                eq_refl eq_refl). lia.
Qed.

(** ** C2 *)

Lemma load_database_no_records_witness :
  let self := init (L := exact_library) "medicines.json" in
  let self' := self_after (load_database (Document (Some [])) self) in
  load_database (Document (Some [])) self = Outcome (Returns true) self' [Loaded 0] /\
  medicines self' = [] /\
  medicine_index_map self' = ∅ /\
  feature_vectors self' = feature_vectors self /\
  train_model self' = Outcome (Returns false) self' [NoMedicinesLoaded].
Proof.
  apply (load_database_no_records (L := exact_library) (init "medicines.json") (Some [])).
  reflexivity.
Defined.

(** C2 as stated fails: loading a document with no records reports success
    to the caller. *)
Lemma load_database_empty_succeeds :
  value (load_database (L := exact_library) (Document (Some []))
                       (init "medicines.json")) = Returns true.
Proof. reflexivity. Qed.

(** ** C3 *)

Lemma recommend_similar_untrained_witness :
  recommend_similar "Aspirin" 5 true (stocked scenario) =
  Outcome (Returns []) (stocked scenario) [ModelNotTrained].
Proof.
  apply (recommend_similar_untrained (stocked scenario) "Aspirin" 5 true).
  reflexivity.
Defined.

(** C3 as stated fails: before training the caller is handed a returned
    empty list, not a raised error, and it is the very value a trained
    recommender returns for a name it cannot resolve. *)
Lemma recommend_similar_untrained_returns :
  feature_vectors (stocked scenario) = None /\
  value (recommend_similar "Aspirin" 5 true (stocked scenario)) = Returns [] /\
  trained (serving scenario) /\
  value (recommend_similar "Paracetamol" 5 true (serving scenario)) = Returns [].
Proof.
  split_and!; try (vm_compute; reflexivity). exact serving_scenario_trained.
Qed.

(** ** C4 *)

(** C4 on a catalogue with two records whose names differ only in case.
    The query ["aspiri"] misses the name index and resolves through the
    fallback to the first record, Aspirin; the name index holds position 1
    for ["aspirin"], so position 1 is the one skipped (and the one whose
    vector is compared), and Aspirin itself is returned as a recommendation. *)
Theorem recommend_similar_returns_query_record :
  let self := serving [aspirin; aspirin_lowercase] in
  trained self /\
  value (find_medicine "aspiri" self) = Returns (Some aspirin) /\
  medicine_index_map self !! "aspirin" = Some 1 /\
  value (recommend_similar "aspiri" 5 true self) = Returns [(aspirin, 0)].
Proof.
  split_and!; try (vm_compute; reflexivity).
  split; [vm_compute; reflexivity|].
  eexists. split; vm_compute; reflexivity.
Qed.

(** ** C5 *)

Lemma recommend_similar_length_witness :
  exists recs,
    value (recommend_similar "Aspirin" 5 true (serving scenario)) = Returns recs /\
    (Z.of_nat (length recs) <= 5)%Z /\
    length recs = Z.to_nat 5 `min` (length (medicines (serving scenario)) - 1).
Proof.
  apply (recommend_similar_length (serving scenario) "Aspirin" 5 aspirin).
  - exact serving_scenario_trained.
  - vm_compute; reflexivity.
  - lia.
Defined.

(** ** C6 *)

Lemma find_medicine_two_tiers_witness :
  value (find_medicine "spir" (serving scenario)) =
  Returns (findByName (medicines (serving scenario)) (Text.strip "spir")).
Proof.
  apply (find_medicine_two_tiers (serving scenario) "spir").
  vm_compute; reflexivity.
Defined.

(** The query is stripped before both tiers: no name contains [" spir"], so
    both tiers of [findByName] miss on the query as typed, and the code
    resolves it to Aspirin. *)
Lemma find_medicine_strips_query :
  findByName (medicines (serving scenario)) " spir" = None /\
  value (find_medicine " spir" (serving scenario)) = Returns (Some aspirin).
Proof. split; vm_compute; reflexivity. Qed.

(** Case is ignored in both tiers. *)
Example findByName_ignores_case :
  findByName scenario "ASPIRIN" = Some aspirin /\
  findByName scenario "iBu" = Some ibuprofen.
Proof. split; vm_compute; reflexivity. Qed.

(** ** C7 *)



(** A term of every document is dropped, one of two documents in three is
    kept; a single document cannot be fitted at all. *)
Example common_term_dropped :
  (cols ← count_fit_transform
             ["fever tablet"; "cough tablet"; "cough syrup tablet"];
   mret (vocabulary_ cols)) =
  Returns ["cough"; "cough syrup"; "cough tablet"; "fever"; "fever tablet";
           "syrup"; "syrup tablet"].
Proof. vm_compute; reflexivity. Qed.

Example single_document_not_fitted :
  count_fit_transform ["fever tablet"] = Raises ValueError.
Proof. vm_compute; reflexivity. Qed.

(** ** C8 *)

Lemma similarity_in_unit_interval_witness :
  let self := stocked_in reals scenario in
  let self' := self_after (train_model self) in
  let X := default [] (feature_vectors self') in
  length X = length (medicines self) /\
  (forall v, v ∈ X ->
     Forall (fun s => 0 <= s <= 1)%R
            (cosine_similarity (Library := @Tfidf.library reals) v X)) /\
  (forall q top_n exclude_self recs,
     value (recommend_similar q top_n exclude_self self') = Returns recs ->
     Forall (fun r => 0 <= r.2 <= 1)%R recs) /\
  (forall zero v,
     Forall (fun x => x = 0%R) zero ->
     cosine_similarity (Library := @Tfidf.library reals) zero [v] = [0%R] /\
     cosine_similarity (Library := @Tfidf.library reals) v [zero] = [0%R]).
Proof.
  apply (similarity_in_unit_interval (stocked_in reals scenario)).
  - reflexivity.
  - reflexivity.
Defined.

(** In binary64 the similarity of Aspirin with itself is the number that
    follows 1: its nine weights are equal, each becomes 0.33333333333333337
    after normalisation, and the nine squares add up to 1.0000000000000002. *)
Lemma self_similarity_above_one :
  value (recommend_similar "Aspirin" 1 false
           (serving_in Binary64.arithmetic [aspirin; amoxicillin; cetirizine])) =
  Returns [(aspirin, Binary64.after_one)] /\
  PrimFloat.ltb (Binary64.of_nat 1) Binary64.after_one = true /\
  ~ num_le (Arithmetic := Binary64.arithmetic) Binary64.after_one (num_of_nat 1).
Proof.
  split; [vm_compute; reflexivity|]. split; [vm_compute; reflexivity|].
  vm_compute. discriminate.
Qed.

(** ** C9 *)

Lemma find_medicine_blank_witness :
  value (find_medicine "  " (serving scenario)) = Returns (Some aspirin).
Proof.
  apply (find_medicine_blank (serving scenario) "  " aspirin
           [ibuprofen; amoxicillin]).
  - vm_compute; reflexivity.
  - vm_compute; reflexivity.
  - vm_compute. repeat constructor; discriminate.
  - repeat constructor.
Defined.

(** * Further properties of the recommender *)

(** ** Queries up to case and surrounding whitespace *)

Lemma all_space_nil : Text.all_space EmptyString.
Proof. constructor. Qed.

Lemma all_space_cons (c : ascii) (s : string) :
  Text.all_space (String c s) <-> Text.is_space c = true /\ Text.all_space s.
Proof. unfold Text.all_space. simpl. by rewrite Forall_cons. Qed.

Lemma lstrip_all_space (s : string) :
  Text.all_space s -> Text.lstrip s = EmptyString.
Proof.
  induction s as [|c s IH]; [done|]. intros [Hc Hs]%all_space_cons.
  simpl. rewrite Hc. by apply IH.
Qed.

Lemma rstrip_all_space (s : string) :
  Text.all_space s -> Text.rstrip s = EmptyString.
Proof.
  induction s as [|c s IH]; [done|]. intros [Hc Hs]%all_space_cons.
  simpl. by rewrite (IH Hs), Hc.
Qed.

Lemma lstrip_app_l (a t : string) :
  Text.all_space a -> Text.lstrip (a ++ t) = Text.lstrip t.
Proof.
  induction a as [|c a IH]; [done|]. intros [Hc Ha]%all_space_cons.
  simpl. rewrite Hc. by apply IH.
Qed.

Lemma rstrip_app_r (t b : string) :
  Text.all_space b -> Text.rstrip (t ++ b) = Text.rstrip t.
Proof.
  intros Hb. induction t as [|c t IH]; simpl.
  - by apply rstrip_all_space.
  - by rewrite IH.
Qed.

Lemma lstrip_app_r (s b : string) :
  Text.lstrip (s ++ b) =
  match Text.lstrip s with
  | EmptyString => Text.lstrip b
  | r => (r ++ b)%string
  end.
Proof.
  induction s as [|c s IH].
  - change (EmptyString ++ b)%string with b. simpl. by destruct (Text.lstrip b).
  - change (String c s ++ b)%string with (String c (s ++ b)). simpl.
    by destruct (Text.is_space c).
Qed.

Lemma strip_pad (a s b : string) :
  Text.all_space a -> Text.all_space b ->
  Text.strip (a ++ s ++ b) = Text.strip s.
Proof.
  intros Ha Hb. unfold Text.strip. rewrite lstrip_app_l, lstrip_app_r by done.
  destruct (Text.lstrip s) as [|c r] eqn:Hs.
  - by rewrite (lstrip_all_space b Hb).
  - by rewrite rstrip_app_r.
Qed.

Lemma lower_app (s t : string) :
  Text.lower (s ++ t) = (Text.lower s ++ Text.lower t)%string.
Proof.
  induction s as [|c s IH]; [done|].
  change (String c s ++ t)%string with (String c (s ++ t)). simpl.
  by rewrite IH.
Qed.

Lemma lower_all_space (s : string) : Text.all_space s -> Text.lower s = s.
Proof.
  induction s as [|c s IH]; [done|]. intros [Hc Hs]%all_space_cons.
  simpl. by rewrite (is_space_lower c Hc), IH.
Qed.

(** ** What a lookup returns *)

Lemma prefix_refl (s : string) : String.prefix s s = true.
Proof.
  induction s as [|c s IH]; [done|]. simpl.
  destruct (ascii_dec c c); [done|congruence].
Qed.

Lemma contains_refl (s : string) : Text.contains s s = true.
Proof. destruct s; [done|]. cbn [Text.contains]. by rewrite prefix_refl. Qed.

Lemma two_tier_lookup_contains (meds : list medicine) (q : string) (med : medicine) :
  two_tier_lookup meds q = Some med ->
  Text.contains (Text.strip (Text.lower q)) (Text.lower (name med)) = true.
Proof.
  unfold two_tier_lookup, exact_match, substring_scan.
  set (key := Text.strip (Text.lower q)).
  destruct (last _) as [m|] eqn:Hlast.
  - intros [= ->].
    assert (med ∈ filter (fun med => Text.lower (name med) = key) meds)
      as [Hk Hin]%list_elem_of_filter.
    { apply last_Some in Hlast as [l' ->]. apply elem_of_app. right. left. }
    rewrite Hk. apply contains_refl.
  - intros Hmed.
    assert (med ∈ filter (fun med => Text.contains key (Text.lower (name med)) = true)
                         meds) as [Hk Hin]%list_elem_of_filter.
    { apply list_elem_of_lookup. exists 0. by rewrite <- head_lookup. }
    done.
Qed.

Lemma two_tier_lookup_None (meds : list medicine) (q : string) :
  two_tier_lookup meds q = None <->
  Forall (fun med => Text.contains (Text.strip (Text.lower q))
                                   (Text.lower (name med)) = false) meds.
Proof.
  unfold two_tier_lookup, exact_match, substring_scan.
  set (key := Text.strip (Text.lower q)). split.
  - intros Hnone. destruct (last _) as [m|]; [done|].
    rewrite Forall_forall. intros med Hin.
    destruct (Text.contains key (Text.lower (name med))) eqn:Hc; [|done].
    assert (med ∈ filter (fun med => Text.contains key (Text.lower (name med)) = true)
                         meds) as Hf by (by apply list_elem_of_filter).
    apply list_elem_of_lookup in Hf as [i Hi].
    destruct (filter (fun med => Text.contains _ _ = true) _); [|done].
    by rewrite lookup_nil in Hi.
  - intros Hall. rewrite Forall_forall in Hall.
    assert (forall P `{!forall x, Decision (P x)},
              (forall med, P med -> Text.contains key (Text.lower (name med)) = true) ->
              filter P meds = []) as Hempty.
    { intros P ? HP. apply elem_of_nil_inv. intros med [Hm Hin]%list_elem_of_filter.
      specialize (Hall med Hin). rewrite (HP med Hm) in Hall. done. }
    rewrite (Hempty (fun med => Text.lower (name med) = key)).
    2:{ intros med <-. apply contains_refl. }
    simpl. by rewrite Hempty.
Qed.

Section FurtherLookup.
Context {L : Library}.

(** X1.  The answer of [find_medicine] depends on the query only up to
    letter case and surrounding whitespace. *)
Theorem find_medicine_query_normal (self : MedicineRecommender)
    (q q' a b : string) :
  Text.lower q' = Text.lower q ->
  Text.all_space a -> Text.all_space b ->
  find_medicine (a ++ q' ++ b) self = find_medicine q self.
Proof.
  intros Hq Ha Hb. rewrite !find_medicine_run. f_equal.
  unfold lookup_medicine.
  rewrite !lower_app, Hq, (lower_all_space a Ha), (lower_all_space b Hb).
  by rewrite strip_pad.
Qed.

(** X2.  On a loaded catalogue [find_medicine] never raises; a record it
    returns is in the catalogue and its lowercased name contains the
    lowercased, stripped query; it returns [None] exactly when no
    lowercased name in the catalogue contains that key. *)
Theorem find_medicine_contains (self : MedicineRecommender) (q : string) :
  loaded self ->
  let key := Text.strip (Text.lower q) in
  (exists found, value (find_medicine q self) = Returns found) /\
  (forall med, value (find_medicine q self) = Returns (Some med) ->
     med ∈ medicines self /\
     Text.contains key (Text.lower (name med)) = true) /\
  (value (find_medicine q self) = Returns None <->
   Forall (fun med => Text.contains key (Text.lower (name med)) = false)
          (medicines self)).
Proof.
  intros Hl key. rewrite find_medicine_run. simpl.
  rewrite (lookup_medicine_two_tier_lookup self q Hl).
  split; [by eexists|]. split.
  - intros med [= Hmed]. split; [exact (two_tier_lookup_member _ q _ Hmed)|].
    exact (two_tier_lookup_contains _ q _ Hmed).
  - unfold key. rewrite <- two_tier_lookup_None. split; [by intros [= ->]|by intros ->].
Qed.

End FurtherLookup.

(** ** Recommending: edges and composition *)

Section FurtherRanking.
Context {L : Library} {Laws : LibraryLaws L}.

Lemma lookup_medicine_trained (self : MedicineRecommender) (q : string) :
  trained self ->
  lookup_medicine self q = Returns (two_tier_lookup (medicines self) q).
Proof. intros [Hl _]. by apply lookup_medicine_two_tier_lookup. Qed.

(** X3.  A trained recommender answers every call of [recommend_similar]
    by returning a list: no query, [top_n] or [exclude_self] makes it raise
    [KeyError] or [IndexError]. *)
Theorem recommend_similar_returns (self : MedicineRecommender) (q : string)
    (top_n : Z) (exclude_self : bool) :
  trained self ->
  exists recs, value (recommend_similar q top_n exclude_self self) = Returns recs.
Proof.
  intros Ht. pose proof Ht as [Hl (X & HX & _)].
  rewrite recommend_similar_run, HX, (lookup_medicine_trained self q Ht).
  destruct (two_tier_lookup (medicines self) q) as [med|] eqn:Hfind; [|by eexists].
  destruct (rank_spec self X med top_n exclude_self Ht HX
              (two_tier_lookup_member _ q _ Hfind))
    as (idx & sims & entries & _ & _ & _ & _ & _ & Hrank).
  simpl. rewrite Hrank. by eexists.
Qed.

(** X4.  Once vectors are stored, a query that no lowercased name of the
    loaded catalogue contains makes [recommend_similar] print the not-found
    line with the query as typed and return the empty list, leaving the
    recommender unchanged. *)
Theorem recommend_similar_not_found (self : MedicineRecommender)
    (X : list vector) (q : string) (top_n : Z) (exclude_self : bool) :
  loaded self ->
  feature_vectors self = Some X ->
  Forall (fun med => Text.contains (Text.strip (Text.lower q))
                                   (Text.lower (name med)) = false)
         (medicines self) ->
  recommend_similar q top_n exclude_self self =
  Outcome (Returns []) self [MedicineNotFound q].
Proof.
  intros Hl HX Hnone. apply two_tier_lookup_None in Hnone.
  by rewrite recommend_similar_run, HX, (lookup_medicine_two_tier_lookup self q Hl),
    Hnone.
Qed.

Lemma filter_all {A} (P : A -> Prop) `{!forall x, Decision (P x)} (l : list A) :
  (forall x, P x) -> filter P l = l.
Proof.
  intros HP. induction l as [|x l IH]; [done|].
  by rewrite filter_cons_True, IH.
Qed.

Lemma kept_positions (idx : nat) (exclude_self : bool) (s : list score) :
  idx < length s ->
  length (filter (kept idx exclude_self) (reverse (argsort s))) =
  length s - (if exclude_self then 1 else 0).
Proof.
  intros Hlt. rewrite filter_reverse, length_reverse.
  rewrite (filter_Permutation _ _ _ (argsort_permutation s)).
  destruct exclude_self.
  - rewrite (list_filter_iff _ (fun x => x ≠ idx)).
    2:{ intros x. unfold kept. split; [intros Hk ->; by apply Hk|by intros ? [_ ?]]. }
    pose proof (length_filter_ne (seq 0 (length s)) idx (NoDup_seq _ _)) as Hne.
    rewrite length_seq in Hne. rewrite elem_of_seq in Hne. lia.
  - rewrite filter_all by (by intros x [? _]). rewrite length_seq. lia.
Qed.

(** X5.  For a resolved query a trained recommender over M records returns
    [min(max(top_n, 1), M - 1)] entries with [exclude_self=True] and
    [min(max(top_n, 1), M)] without it: a [top_n] of zero or less still
    yields one entry, since the loop tests the length only after appending. *)
Theorem recommend_similar_count (self : MedicineRecommender) (q : string)
    (top_n : Z) (exclude_self : bool) (med : medicine) :
  trained self ->
  value (find_medicine q self) = Returns (Some med) ->
  exists recs,
    value (recommend_similar q top_n exclude_self self) = Returns recs /\
    length recs =
    Z.to_nat (Z.max top_n 1) `min`
      (length (medicines self) - (if exclude_self then 1 else 0)).
Proof.
  intros Ht Hfind.
  destruct (recommend_similar_trained self q med top_n exclude_self Ht Hfind)
    as (X & HX & Hin & Hrun).
  destruct (rank_spec self X med top_n exclude_self Ht HX Hin)
    as (idx & sims & entries & _ & Hlt & _ & Hsims & Hent & Hrank).
  exists (take (Z.to_nat (Z.max 1 top_n)) entries).
  split; [by rewrite Hrun, Hrank|].
  rewrite length_take, <- (Forall2_length _ _ _ Hent), kept_positions by lia.
  rewrite Hsims. lia.
Qed.

(** X6.  Every entry a trained recommender returns pairs a record of the
    catalogue with the similarity computed for that record's position, and
    no position is returned twice. *)
Theorem recommend_similar_positions (self : MedicineRecommender) (q : string)
    (top_n : Z) (exclude_self : bool) (med : medicine) :
  trained self ->
  value (find_medicine q self) = Returns (Some med) ->
  exists X similarities idxs recs,
    feature_vectors self = Some X /\
    query_similarities self X med = Returns similarities /\
    value (recommend_similar q top_n exclude_self self) = Returns recs /\
    Forall2 (entry_at (medicines self) similarities) idxs recs /\
    NoDup idxs /\
    Forall (fun idx => idx < length (medicines self)) idxs.
Proof.
  intros Ht Hfind.
  destruct (recommend_similar_trained self q med top_n exclude_self Ht Hfind)
    as (X & HX & Hin & Hrun).
  destruct (rank_spec self X med top_n exclude_self Ht HX Hin)
    as (idx & sims & entries & _ & _ & Hsims & Hlen & Hent & Hrank).
  set (n := Z.to_nat (Z.max 1 top_n)) in *.
  set (idxs := take n (filter (kept idx exclude_self) (reverse (argsort sims)))).
  assert (idxs `sublist_of` reverse (argsort sims)) as Hsub.
  { unfold idxs. etrans; [apply sublist_take|apply sublist_filter]. }
  exists X, sims, idxs, (take n entries). split_and!; try done.
  - by rewrite Hrun, Hrank.
  - by apply Forall2_take.
  - eapply sublist_NoDup; [|exact Hsub].
    rewrite reverse_Permutation, (argsort_permutation sims). apply NoDup_seq.
  - rewrite <- Hlen. rewrite Forall_forall. intros i Hi.
    pose proof (argsort_valid sims) as Hv. rewrite Forall_forall in Hv.
    apply Hv. by eapply elem_of_sublist.
Qed.

(** X7.  When the stripped, lowercased query is a key of the name index,
    the position the index holds is the one of the resolved record, and
    with [exclude_self=True] that position is never among the results, also
    when several records share the lowercased name. *)
Theorem recommend_similar_excludes_indexed (self : MedicineRecommender)
    (q : string) (top_n : Z) (idx : nat) :
  trained self ->
  medicine_index_map self !! Text.strip (Text.lower q) = Some idx ->
  exists med X similarities idxs recs,
    medicines self !! idx = Some med /\
    value (find_medicine q self) = Returns (Some med) /\
    feature_vectors self = Some X /\
    query_similarities self X med = Returns similarities /\
    value (recommend_similar q top_n true self) = Returns recs /\
    Forall2 (entry_at (medicines self) similarities) idxs recs /\
    idx ∉ idxs.
Proof.
  intros Ht Hkey. pose proof Ht as [Hl _]. pose proof Hkey as Hkey'.
  rewrite Hl in Hkey'. apply index_map_lookup_Some in Hkey' as [(med & Hm & Hn) _].
  assert (value (find_medicine q self) = Returns (Some med)) as Hfind.
  { rewrite find_medicine_run. simpl. unfold lookup_medicine, getitem.
    by rewrite Hkey, Hm. }
  destruct (recommend_similar_trained self q med top_n true Ht Hfind)
    as (X & HX & Hin & Hrun).
  destruct (rank_spec self X med top_n true Ht HX Hin)
    as (idx' & sims & entries & Hidx' & _ & Hsims & _ & Hent & Hrank).
  rewrite Hn, <- Hl, Hkey in Hidx'. injection Hidx' as <-.
  set (n := Z.to_nat (Z.max 1 top_n)) in *.
  exists med, X, sims, (take n (filter (kept idx true) (reverse (argsort sims)))),
    (take n entries).
  split_and!; try done.
  - by rewrite Hrun, Hrank.
  - by apply Forall2_take.
  - intros Hi. eapply elem_of_sublist in Hi; [|apply sublist_take].
    apply list_elem_of_filter in Hi as [Hk _]. by apply Hk.
Qed.

(** X8.  [load_database] keeps the stored feature vectors.  After a trained
    recommender reloads a catalogue without retraining, a query resolving to
    a record whose position in the name index lies beyond the old catalogue
    makes [recommend_similar] raise [IndexError]. *)
Theorem recommend_similar_stale_vectors (self : MedicineRecommender)
    (catalogue : list medicine) (q : string) (med : medicine) (idx : nat)
    (top_n : Z) (exclude_self : bool) :
  trained self ->
  let self' := self_after (load_database (Document (Some catalogue)) self) in
  value (find_medicine q self') = Returns (Some med) ->
  index_map catalogue !! Text.lower (name med) = Some idx ->
  length (medicines self) <= idx ->
  feature_vectors self' = feature_vectors self /\
  recommend_similar q top_n exclude_self self' =
  Outcome (Raises IndexError) self' [].
Proof.
  intros [_ (X & HX & Hlen)] self' Hfind Hidx Hge.
  assert (feature_vectors self' = Some X) as HX'.
  { unfold self'. by rewrite load_database_run. }
  split; [by rewrite HX', HX|].
  rewrite find_medicine_run in Hfind. simpl in Hfind.
  rewrite recommend_similar_run, HX', Hfind. f_equal.
  unfold rank, getkey, getitem.
  assert (medicine_index_map self' = index_map catalogue) as ->.
  { unfold self'. by rewrite load_database_run. }
  rewrite Hidx. run_method.
  by rewrite (lookup_ge_None_2 X idx) by lia.
Qed.

(** X9.  [train_model] never changes the catalogue, the name index or the
    database path.  Unless it returns [True] the stored feature vectors stay
    as they were; in particular, when [fit_transform] raises, the exception
    leaves [train_model] with nothing printed and the previous vectors in
    place. *)
Theorem train_model_frame (self : MedicineRecommender) :
  let after := train_model self in
  medicines (self_after after) = medicines self /\
  medicine_index_map (self_after after) = medicine_index_map self /\
  database_path (self_after after) = database_path self /\
  (value after <> Returns true ->
   feature_vectors (self_after after) = feature_vectors self) /\
  (forall e, value after = Raises e ->
     fit_transform (map prepare_features (medicines self)) = Raises e /\
     printed after = []).
Proof.
  cbv zeta. rewrite train_model_run.
  destruct (medicines self) as [|med meds] eqn:Hmeds.
  { simpl. rewrite ?Hmeds. by split_and!. }
  destruct (fit_transform _) as [fitted|e] eqn:Hfit; simpl;
    unfold with_vectorizer; destruct (vectorizer self); simpl;
    rewrite ?Hmeds; split_and!; try done; by intros ? [= ->].
Qed.

(** X10.  Whatever the recommender held before, loading a document and
    then training with result [True] leaves a trained recommender over
    exactly the records of the document, which are at least one: the name
    index is the one of the catalogue and there is one feature vector per
    record. *)
Theorem load_then_train (self : MedicineRecommender)
    (data : option (list medicine)) :
  let loading := load_database (Document data) self in
  let training := train_model (self_after loading) in
  value training = Returns true ->
  value loading = Returns true /\
  trained (self_after training) /\
  medicines (self_after training) = default [] data /\
  default [] data <> [].
Proof.
  intros loading training Htrue.
  assert (loaded (self_after loading)) as Hl.
  { unfold loading. by rewrite load_database_run. }
  assert (medicines (self_after loading) = default [] data) as Hmeds.
  { unfold loading. by rewrite load_database_run. }
  split; [unfold loading; by rewrite load_database_run|].
  split; [by apply train_model_trained|].
  pose proof (train_model_run (self_after loading)) as Hrun. fold training in Hrun.
  rewrite Hmeds in Hrun. destruct (default [] data) as [|med meds] eqn:Hdata.
  - rewrite Hrun in Htrue. done.
  - split; [|done]. rewrite Hrun.
    destruct (fit_transform _); simpl; unfold with_vectorizer;
      by destruct (vectorizer _).
Qed.

End FurtherRanking.

(** ** When the vectorizer can be fitted *)

Lemma count_fit_transform_unfold (docs : list string) :
  count_fit_transform docs =
  match first_seen (concat (analyze <$> docs)) with
  | [] => Raises ValueError
  | vocab =>
      if (95 * length docs <? 100)%nat then Raises ValueError
      else
        match filter (fun col : column =>
                        within_bounds (length docs) (document_frequency col.2) = true)
                     ((fun t => (t, count t <$> (analyze <$> docs))) <$> vocab) with
        | [] => Raises ValueError
        | kept => Returns (sort_features kept)
        end
  end.
Proof.
  unfold count_fit_transform, count_vocab, limit_features.
  unfold mbind, mret, result_bind, result_ret, max_df_percent, min_df.
  destruct (first_seen _) as [|t0 vocab]; [done|]. cbv beta iota zeta.
  change (100 * 1) with 100.
  destruct (95 * length docs <? 100)%nat; [done|].
  by destruct (filter _ _).
Qed.

Lemma count_fit_transform_raises (docs : list string) (e : exception) :
  count_fit_transform docs = Raises e -> e = ValueError.
Proof.
  rewrite count_fit_transform_unfold.
  destruct (first_seen _); [by intros [= <-]|].
  destruct (_ <? _)%nat; [by intros [= <-]|].
  destruct (filter _ _); [by intros [= <-]|done].
Qed.

Lemma count_fit_transform_returns (docs : list string) (t : string) :
  1 <= df docs t -> 100 * df docs t <= 95 * length docs ->
  exists cols, count_fit_transform docs = Returns cols.
Proof.
  intros Hpos Hmax. rewrite count_fit_transform_unfold.
  assert (t ∈ first_seen (concat (analyze <$> docs))) as Hin
    by (by apply first_seen_elem_of, df_pos).
  destruct (first_seen _) as [|t0 vocab] eqn:Hvocab; [by apply elem_of_nil in Hin|].
  rewrite (proj2 (Nat.ltb_ge _ _)) by lia.
  assert ((t, count t <$> (analyze <$> docs)) ∈
          filter (fun col : column =>
                    within_bounds (length docs) (document_frequency col.2) = true)
                 ((fun t => (t, count t <$> (analyze <$> docs))) <$> (t0 :: vocab)))
    as Hkept.
  { apply list_elem_of_filter. split.
    - simpl. rewrite document_frequency_df. by apply within_bounds_spec.
    - by apply (list_elem_of_fmap_2 (fun t => (t, count t <$> (analyze <$> docs)))). }
  destruct (filter _ _) as [|c kept]; [by apply elem_of_nil in Hkept|by eexists].
Qed.

Lemma count_fit_transform_term (docs : list string) (cols : list column) :
  count_fit_transform docs = Returns cols ->
  exists t, 1 <= df docs t /\ 100 * df docs t <= 95 * length docs.
Proof.
  intros Hfit. pose proof (count_fit_transform_columns docs cols Hfit) as Hcols.
  destruct cols as [|col cols].
  - rewrite count_fit_transform_unfold in Hfit.
    destruct (first_seen _); [done|]. destruct (_ <? _)%nat; [done|].
    destruct (filter _ _) as [|c kept]; [done|]. injection Hfit as Hfit.
    apply (f_equal length) in Hfit. unfold sort_features in Hfit.
    by rewrite merge_sort_Permutation in Hfit.
  - exists col.1. apply Hcols. left.
Qed.

Lemma df_replicate (n : nat) (doc t : string) :
  df (replicate n doc) t = if decide (t ∈ analyze doc) then n else 0.
Proof.
  unfold df. induction n as [|n IH]; simpl; [by destruct (decide _)|].
  rewrite filter_cons. destruct (decide (t ∈ analyze doc)); simpl; by rewrite IH.
Qed.

(** X11.  Fitting the vectorizer returns exactly when some term occurs in
    at least one and at most 95% of the feature texts; otherwise it raises
    [ValueError], the only exception it raises. *)
Theorem count_fit_transform_succeeds (docs : list string) :
  ((exists cols, count_fit_transform docs = Returns cols) <->
   exists t, 1 <= df docs t /\ 100 * df docs t <= 95 * length docs) /\
  (count_fit_transform docs = Raises ValueError <->
   forall t, 1 <= df docs t -> 95 * length docs < 100 * df docs t) /\
  (forall e, count_fit_transform docs = Raises e -> e = ValueError).
Proof.
  split_and!.
  - split.
    + intros [cols Hfit]. by eapply count_fit_transform_term.
    + intros (t & Hpos & Hmax). by eapply count_fit_transform_returns.
  - split.
    + intros Hraise t Hpos.
      destruct (decide (100 * df docs t <= 95 * length docs)) as [Hmax|]; [|lia].
      destruct (count_fit_transform_returns docs t Hpos Hmax) as [cols Hfit].
      by rewrite Hfit in Hraise.
    + intros Hall. destruct (count_fit_transform docs) as [cols|e] eqn:Hfit.
      * destruct (count_fit_transform_term docs cols Hfit) as (t & Hpos & Hmax).
        specialize (Hall t Hpos). lia.
      * by rewrite (count_fit_transform_raises docs e Hfit).
  - apply count_fit_transform_raises.
Qed.

(** X12.  A corpus whose feature texts are all the same, and so any corpus
    of a single text, cannot be fitted: every term of it is in every
    document, above the 95% ceiling. *)
Theorem count_fit_transform_identical (n : nat) (doc : string) :
  count_fit_transform (replicate n doc) = Raises ValueError.
Proof.
  destruct (count_fit_transform (replicate n doc)) as [cols|e] eqn:Hfit.
  - destruct (count_fit_transform_term _ cols Hfit) as (t & Hpos & Hmax).
    rewrite df_replicate in Hpos. rewrite df_replicate, length_replicate in Hmax.
    destruct (decide (t ∈ analyze doc)); lia.
  - by rewrite (count_fit_transform_raises _ e Hfit).
Qed.

(** ** The command line *)

Lemma bind_returns {S M A B} (m : method S M A) (k : A -> method S M B)
    (self self' : S) (a : A) (out : list M) :
  m self = Outcome (Returns a) self' out ->
  (m ≫= k) self = after out (k a self').
Proof.
  intros Hm. unfold mbind, method_bind, Py.bind, after. by rewrite Hm.
Qed.

Lemma bind_raises {S M A B} (m : method S M A) (k : A -> method S M B)
    (self self' : S) (e : exception) (out : list M) :
  m self = Outcome (Raises e) self' out ->
  (m ≫= k) self = Outcome (Raises e) self' out.
Proof.
  intros Hm. unfold mbind, method_bind, Py.bind. by rewrite Hm.
Qed.

Ltac bind_print :=
  erewrite (bind_returns (Py.print _)) by reflexivity.

Section FurtherMain.
Context {L : Library} {Laws : LibraryLaws L}.

Lemma relay_outcome {A} (m : method MedicineRecommender line A)
    (self self' : MedicineRecommender) (v : result A) (out : list line) :
  m self = Outcome v self' out ->
  relay m self = Outcome v self' (Said <$> out).
Proof. intros Hm. unfold relay. by rewrite Hm. Qed.

(** X13.  [main] reaches its interaction loop only with a trained
    recommender: when the start-up reports success, the database was a
    document with at least one record, these records are the catalogue, the
    name index is theirs and there is one feature vector per record. *)
Theorem startup_ready (self : MedicineRecommender) (db : database) :
  value (startup db self) = Returns true ->
  exists data,
    db = Document data /\
    default [] data <> [] /\
    medicines (self_after (startup db self)) = default [] data /\
    trained (self_after (startup db self)).
Proof.
  unfold startup. repeat bind_print.
  destruct db as [| |data].
  1,2: erewrite bind_returns
         by (apply relay_outcome; rewrite load_database_run; reflexivity);
       cbn [negb]; bind_print; done.
  erewrite bind_returns by (apply relay_outcome; rewrite load_database_run; reflexivity).
  cbn [negb]. bind_print.
  set (self1 := set_medicine_index_map _ _).
  assert (loaded self1) as Hl by done.
  assert (medicines self1 = default [] data) as Hmeds by done.
  pose proof (train_model_trained self1 Hl) as Htrained.
  pose proof (train_model_run self1) as Hrun. rewrite Hmeds in Hrun.
  destruct (default [] data) as [|med meds] eqn:Hdata.
  - erewrite bind_returns by (apply relay_outcome, Hrun).
    cbn [negb]. bind_print. done.
  - destruct (fit_transform _) as [fitted|e] eqn:Hfit.
    + erewrite bind_returns by (apply relay_outcome, Hrun).
      cbn [negb]. bind_print. simpl. intros _.
      exists data. split; [done|]. rewrite Hdata. split; [done|].
      rewrite Hrun in Htrained. simpl in Htrained. split.
      * unfold with_vectorizer. by destruct (vectorizer self1).
      * by apply Htrained.
    + erewrite bind_raises by (apply relay_outcome, Hrun). done.
Qed.

Variable int : string -> option Z.



(** X15.  One turn of [main] for a typed name that no lowercased name of
    the catalogue contains: the recommender prints its not-found line,
    [main] adds that no recommendations were found and that the medicine
    might not exist, and the loop continues with the recommender unchanged. *)
Theorem turn_not_found (self : MedicineRecommender)
    (name_answer top_n_answer : string) :
  trained self ->
  let medicine_name := Text.strip name_answer in
  medicine_name <> EmptyString ->
  Text.lower medicine_name ∉ ["quit"; "exit"; "q"] ->
  Forall (fun med => Text.contains (Text.strip (Text.lower medicine_name))
                                   (Text.lower (name med)) = false)
         (medicines self) ->
  turn int name_answer top_n_answer self =
  Outcome (Returns Continue) self
    [Wrote (rule "-");
     Asked "Enter medicine name (or 'quit' to exit): ";
     Asked "Number of recommendations (default: 5): ";
     Wrote (String "010" (rule "="));
     Wrote "Searching...";
     Wrote (rule "=");
     Said (MedicineNotFound medicine_name);
     Wrote (String "010" "No recommendations found for '" ++ medicine_name ++ "'.")%string;
     Wrote "The medicine might not exist in the database.";
     Wrote (String "010" "")].
Proof.
  intros [Hl (X & HX & _)] medicine_name Hname Hquit Hnone.
  apply two_tier_lookup_None in Hnone.
  assert (recommend_similar medicine_name (read_top_n int top_n_answer) true self =
          Outcome (Returns []) self [MedicineNotFound medicine_name]) as Hrun.
  { by rewrite recommend_similar_run, HX,
      (lookup_medicine_two_tier_lookup self medicine_name Hl), Hnone. }
  unfold turn. repeat bind_print. fold medicine_name.
  rewrite (bool_decide_eq_false_2 _ Hquit), (bool_decide_eq_false_2 _ Hname).
  repeat bind_print.
  erewrite bind_returns by (apply relay_outcome, Hrun).
  cbv iota.
  erewrite (bind_returns (Py.print _ ≫= _)).
  2:{ bind_print. reflexivity. }
  bind_print. reflexivity.
Qed.

(** X16.  A turn of [main] never changes the recommender and never raises
    on a trained one; it ends the loop exactly when the stripped, lowercased
    name typed is [quit], [exit] or [q]. *)
Theorem turn_frame (self : MedicineRecommender)
    (name_answer top_n_answer : string) :
  trained self ->
  let after := turn int name_answer top_n_answer self in
  self_after after = self /\
  (value after = Returns Break <->
   Text.lower (Text.strip name_answer) ∈ ["quit"; "exit"; "q"]) /\
  (value after = Returns Continue <->
   Text.lower (Text.strip name_answer) ∉ ["quit"; "exit"; "q"]).
Proof.
  intros Ht. pose proof Ht as [Hl (X & HX & _)]. cbv zeta.
  unfold turn. repeat bind_print. case_bool_decide as Hquit.
  { bind_print. simpl. by split_and!. }
  case_bool_decide as Hname.
  { bind_print. simpl. by split_and!. }
  repeat bind_print.
  set (medicine_name := Text.strip name_answer) in *.
  set (top_n := read_top_n int top_n_answer).
  pose proof (recommend_similar_run self medicine_name top_n true) as Hrun.
  pose proof (find_medicine_run self medicine_name) as Hfind.
  rewrite HX, (lookup_medicine_two_tier_lookup self medicine_name Hl) in Hrun.
  rewrite (lookup_medicine_two_tier_lookup self medicine_name Hl) in Hfind.
  destruct (two_tier_lookup (medicines self) medicine_name) as [med|] eqn:Hlookup.
  - destruct (rank_spec self X med top_n true Ht HX
                (two_tier_lookup_member _ medicine_name _ Hlookup))
      as (idx & sims & entries & _ & _ & _ & _ & _ & Hrank).
    rewrite Hrank in Hrun.
    erewrite bind_returns by (apply relay_outcome, Hrun).
    destruct (take _ entries) as [|r recs]; cbv iota.
    + erewrite (bind_returns (Py.print _ ≫= _)).
      2:{ bind_print. reflexivity. }
      bind_print. simpl. by split_and!.
    + erewrite (bind_returns (relay _ ≫= _)).
      2:{ erewrite bind_returns by (apply relay_outcome, Hfind). reflexivity. }
      bind_print. simpl. by split_and!.
  - erewrite bind_returns by (apply relay_outcome, Hrun).
    cbv iota.
    erewrite (bind_returns (Py.print _ ≫= _)).
    2:{ bind_print. reflexivity. }
    bind_print. simpl. by split_and!.
Qed.

End FurtherMain.

(** * Properties of the data tools *)

(** ** [manual_curator.py] *)

Lemma any_named_spec (key : string) (meds : list medicine) :
  ManualCurator.any_named key meds = true <->
  exists med, med ∈ meds /\ Text.lower (name med) = key.
Proof.
  induction meds as [|m meds IH]; simpl.
  - split; [done|]. intros (med & Hin & _). by apply elem_of_nil in Hin.
  - destruct (decide (Text.lower (name m) = key)) as [Hk|Hk].
    + split; [|done]. intros _. exists m. split; [left|done].
    + rewrite IH. split.
      * intros (med & Hin & Hn). exists med. split; [by right|done].
      * intros (med & Hin & Hn). apply elem_of_cons in Hin as [->|Hin]; [done|].
        by exists med.
Qed.

Lemma any_named_false (key : string) (meds : list medicine) :
  ManualCurator.any_named key meds = false <->
  Forall (fun med => Text.lower (name med) <> key) meds.
Proof.
  rewrite Forall_forall. split.
  - intros Hf med Hin Hn.
    assert (ManualCurator.any_named key meds = true) as Ht
      by (apply any_named_spec; by exists med).
    congruence.
  - intros Hall. destruct (ManualCurator.any_named key meds) eqn:Ht; [|done].
    apply any_named_spec in Ht as (med & Hin & Hn). by destruct (Hall med Hin).
Qed.

(** X17.  [check_duplicate] answers [True] exactly when some record's
    lowercased name is the stripped, lowercased argument, which is exactly
    when that text is a key of the name index the recommender builds from
    the same records. *)
Theorem check_duplicate_indexed (self : ManualCurator.ManualCurator) (q : string) :
  (ManualCurator.check_duplicate q self = true <->
   exists med, med ∈ ManualCurator.medicines self /\
               Text.lower (name med) = Text.strip (Text.lower q)) /\
  (ManualCurator.check_duplicate q self = true <->
   is_Some (index_map (ManualCurator.medicines self) !! Text.strip (Text.lower q))).
Proof.
  unfold ManualCurator.check_duplicate. split; [apply any_named_spec|].
  destruct (index_map _ !! _) as [idx|] eqn:Hidx.
  - split; [by eexists|]. intros _.
    apply index_map_lookup_Some in Hidx as [(med & Hm & Hn) _].
    apply any_named_spec. exists med. split; [|done].
    by eapply list_elem_of_lookup_2.
  - apply index_map_lookup_None in Hidx. apply any_named_false in Hidx.
    rewrite Hidx. split; [done|]. by intros [? ?].
Qed.

Section Curator.
Variable CATEGORY_MAPPINGS : list (string * string).
Variable REQUIRED_FIELDS : list string.

Local Abbreviation add_medicine_from_dict :=
  (ManualCurator.add_medicine_from_dict CATEGORY_MAPPINGS REQUIRED_FIELDS).
Local Abbreviation validate_medicine_data :=
  (ManualCurator.validate_medicine_data REQUIRED_FIELDS).

(** The record [add_medicine_from_dict] stores. *)
Lemma add_medicine_from_dict_run (self : ManualCurator.ManualCurator)
    (medicine : medicine) :
  add_medicine_from_dict medicine self =
  if ManualCurator.check_duplicate (name medicine) self then
    Outcome (Returns (false, "Medicine '" ++ name medicine ++ "' already exists")%string)
            self []
  else if negb (validate_medicine_data medicine).1 then
    Outcome (Returns (false, (validate_medicine_data medicine).2)) self []
  else
    let stored :=
      if negb (truthy (category medicine)) then
        let suggested :=
          ManualCurator.suggest_category CATEGORY_MAPPINGS (uses medicine) in
        set_category (Some (if truthy suggested then default "" suggested
                            else "Unknown")) medicine
      else medicine in
    let self' :=
      ManualCurator.set_medicines (ManualCurator.medicines self ++ [stored]) self in
    Outcome (Returns (true, "Successfully added '" ++ name medicine ++ "'")%string)
            self'
            [Saved (ManualCurator.database_path self') (ManualCurator.medicines self')].
Proof.
  unfold ManualCurator.add_medicine_from_dict.
  unfold mbind, mret, method_bind, method_ret, bind, ret, get. cbn.
  destruct (ManualCurator.check_duplicate _ _); [done|].
  destruct (ManualCurator.validate_medicine_data _ _) as [[|] error]; cbn; [|done].
  by destruct (truthy (category medicine)).
Qed.

(** X18.  [add_medicine_from_dict] never raises.  It answers [True] exactly
    when the name is no duplicate and the record validates; then the
    catalogue grows by one record at its end, with the name, uses and
    components given and a non-empty category, and the file is written once
    with the new catalogue.  Otherwise the curator is unchanged and nothing
    is written. *)
Theorem add_medicine_from_dict_outcome (self : ManualCurator.ManualCurator)
    (medicine : medicine) :
  let o := add_medicine_from_dict medicine self in
  exists ok message,
    value o = Returns (ok, message) /\
    (ok = true <->
     ManualCurator.check_duplicate (name medicine) self = false /\
     (validate_medicine_data medicine).1 = true) /\
    (ok = true ->
     exists stored,
       ManualCurator.medicines (self_after o) =
       ManualCurator.medicines self ++ [stored] /\
       name stored = name medicine /\
       uses stored = uses medicine /\
       components stored = components medicine /\
       description stored = description medicine /\
       truthy (category stored) = true /\
       (truthy (category medicine) = true -> stored = medicine) /\
       ManualCurator.database_path (self_after o) =
       ManualCurator.database_path self /\
       printed o = [Saved (ManualCurator.database_path self)
                          (ManualCurator.medicines self ++ [stored])]) /\
    (ok = false -> self_after o = self /\ printed o = []).
Proof.
  intros o. subst o. rewrite add_medicine_from_dict_run.
  destruct (ManualCurator.check_duplicate _ _) eqn:Hdup.
  { eexists _, _. split; [done|]. split; [|done]. split; [done|]. by intros [? _]. }
  destruct (validate_medicine_data medicine) as [[|] error] eqn:Hval; cbn [negb fst snd].
  2:{ eexists _, _. split; [done|]. split; [|done]. split; [done|]. by intros [_ ?]. }
  cbv zeta. eexists _, _. split; [done|]. split; [done|]. split; [|done].
  intros _. eexists. split; [done|].
  destruct (truthy (category medicine)) eqn:Hcat; cbn [negb].
  - by repeat split.
  - repeat split; try done.
    destruct (truthy (ManualCurator.suggest_category _ _)) eqn:Hs; [|done].
    by destruct (ManualCurator.suggest_category _ _) as [[|c s]|].
Qed.

(** X19.  When no stored name carries surrounding whitespace and the
    lowercased names are pairwise distinct, they are still pairwise distinct
    after [add_medicine_from_dict], whatever record is offered. *)
Theorem add_medicine_from_dict_distinct (self : ManualCurator.ManualCurator)
    (medicine : medicine) :
  Forall (fun m => Text.strip (Text.lower (name m)) = Text.lower (name m))
         (ManualCurator.medicines self) ->
  NoDup ((fun m => Text.lower (name m)) <$> ManualCurator.medicines self) ->
  NoDup ((fun m => Text.lower (name m)) <$>
         ManualCurator.medicines (self_after (add_medicine_from_dict medicine self))).
Proof.
  intros Hstripped Hnd. rewrite add_medicine_from_dict_run.
  destruct (ManualCurator.check_duplicate _ _) eqn:Hdup; [done|].
  destruct (negb _); [done|]. cbv zeta. cbn [self_after ManualCurator.medicines
    ManualCurator.set_medicines].
  rewrite fmap_app. apply NoDup_app. split; [done|]. split; [|apply NoDup_singleton].
  intros key Hkey Hnew.
  assert (key = Text.lower (name medicine)) as ->.
  { destruct (truthy (category medicine)); cbn in Hnew;
      by apply list_elem_of_singleton in Hnew. }
  apply list_elem_of_fmap in Hkey as (m & Hm & Hin).
  unfold ManualCurator.check_duplicate in Hdup.
  apply any_named_false in Hdup. rewrite Forall_forall in Hdup, Hstripped.
  apply (Hdup m Hin). rewrite <- (Hstripped m Hin). by rewrite <- Hm.
Qed.

End Curator.

(** ** [data_validator.py] *)

Local Abbreviation normal_name := (fun m : medicine => Text.strip (Text.lower (name m))).

Lemma entries_under_append (key n : string) (e : nat * medicine)
    (nm : list (string * list (nat * medicine))) :
  DataValidator.entries_under key (DataValidator.append_entry n e nm) =
  if decide (key = n) then DataValidator.entries_under n nm ++ [e]
  else DataValidator.entries_under key nm.
Proof.
  induction nm as [|[k es] nm IH]; simpl.
  - destruct (decide (n = key)), (decide (key = n)); congruence.
  - destruct (decide (k = n)) as [->|Hkn]; simpl.
    + destruct (decide (n = key)) as [<-|Hne].
      * by rewrite !decide_True.
      * by rewrite decide_False by congruence.
    + destruct (decide (k = key)) as [->|Hne].
      * by rewrite decide_False by congruence.
      * exact IH.
Qed.

Lemma append_entry_keys (n : string) (e : nat * medicine)
    (nm : list (string * list (nat * medicine))) :
  (DataValidator.append_entry n e nm).*1 =
  if decide (n ∈ nm.*1) then nm.*1 else nm.*1 ++ [n].
Proof.
  induction nm as [|[k es] nm IH].
  - simpl. by destruct (decide (n ∈ [])) as [?%elem_of_nil|].
  - cbn [DataValidator.append_entry].
    destruct (decide (k = n)) as [->|Hkn]; rewrite !fmap_cons; cbn [fst].
    + rewrite decide_True by left. done.
    + rewrite IH. destruct (decide (n ∈ nm.*1)) as [Hin|Hin].
      * rewrite decide_True by (by right). done.
      * rewrite decide_False; [done|]. intros [->|?]%elem_of_cons; done.
Qed.

Lemma append_entry_well_formed (n : string) (e : nat * medicine)
    (nm : list (string * list (nat * medicine))) :
  well_formed nm -> well_formed (DataValidator.append_entry n e nm).
Proof.
  intros [Hnd Hne]. split.
  - rewrite append_entry_keys. destruct (decide _) as [|Hn]; [done|].
    apply NoDup_app. split; [done|]. split; [|apply NoDup_singleton].
    by intros x Hx ->%list_elem_of_singleton.
  - clear Hnd. induction Hne as [|[k es] nm Hes Hne IH]; simpl.
    + by repeat constructor.
    + destruct (decide (k = n)); constructor; simpl; try done.
      by destruct es.
Qed.

Lemma elem_of_well_formed (nm : list (string * list (nat * medicine)))
    (key : string) (es : list (nat * medicine)) :
  well_formed nm ->
  (key, es) ∈ nm <-> es <> [] /\ DataValidator.entries_under key nm = es.
Proof.
  intros [Hnd Hne]. induction nm as [|[k es0] nm IH]; simpl.
  - split; [by intros ?%elem_of_nil|]. by intros [? <-].
  - apply NoDup_cons in Hnd as [Hk Hnd]. apply Forall_cons in Hne as [Hes0 Hne].
    simpl in *. rewrite elem_of_cons, (IH Hnd Hne).
    destruct (decide (k = key)) as [->|Hkk].
    + split.
      * intros [[= ->]|[Hes Hu]]; [done|].
        exfalso. apply Hk.
        assert ((key, es) ∈ nm) as Hin by (by apply (IH Hnd Hne)).
        apply list_elem_of_fmap. by exists (key, es).
      * intros [_ ->]. by left.
    + split.
      * intros [[= -> ->]|?]; done.
      * intros ?. by right.
Qed.

Lemma record_name_fold (l : list (nat * medicine))
    (nm : list (string * list (nat * medicine))) (key : string) :
  DataValidator.entries_under key (foldl DataValidator.record_name nm l) =
  DataValidator.entries_under key nm ++
  (if decide (key = EmptyString) then []
   else filter (fun e => normal_name e.2 = key) l).
Proof.
  revert nm. induction l as [|e l IH]; intros nm; simpl.
  - destruct (decide _); by rewrite ?filter_nil, app_nil_r.
  - rewrite IH. unfold DataValidator.record_name.
    destruct (decide (normal_name e.2 = EmptyString)) as [He|He].
    + destruct (decide (key = EmptyString)) as [->|Hk]; [done|].
      rewrite filter_cons_False; [done|]. simpl. congruence.
    + rewrite entries_under_append.
      destruct (decide (key = normal_name e.2)) as [->|Hk].
      * rewrite !decide_False by done. rewrite filter_cons_True by done.
        by rewrite <- app_assoc.
      * destruct (decide (key = EmptyString)); [done|].
        rewrite filter_cons_False; [done|]. simpl. congruence.
Qed.

Lemma record_name_fold_well_formed (l : list (nat * medicine))
    (nm : list (string * list (nat * medicine))) :
  well_formed nm -> well_formed (foldl DataValidator.record_name nm l).
Proof.
  revert nm. induction l as [|e l IH]; intros nm Hwf; [done|]. simpl.
  apply IH. unfold DataValidator.record_name.
  destruct (decide _); [done|]. by apply append_entry_well_formed.
Qed.

Lemma elem_of_name_map (meds : list medicine) (key : string)
    (es : list (nat * medicine)) :
  (key, es) ∈ DataValidator.name_map meds <->
  key <> EmptyString /\ es <> [] /\
  es = filter (fun e => normal_name e.2 = key) (zip (seq 0 (length meds)) meds).
Proof.
  unfold DataValidator.name_map.
  rewrite elem_of_well_formed
    by (apply record_name_fold_well_formed; split; constructor).
  rewrite record_name_fold. simpl.
  destruct (decide (key = EmptyString)) as [->|Hk].
  - split; [by intros [? <-]|]. by intros [? _].
  - split; [by intros [? <-]|]. by intros (_ & ? & ->).
Qed.

Lemma elem_of_enumerate {A} (l : list A) (i : nat) (x : A) :
  (i, x) ∈ zip (seq 0 (length l)) l <-> l !! i = Some x.
Proof.
  rewrite list_elem_of_lookup. split.
  - intros [j Hj]. apply lookup_zip_with_Some in Hj as (i' & x' & [= -> ->] & Hs & Hl).
    apply lookup_seq in Hs as [-> _]. done.
  - intros Hi. exists i. apply lookup_zip_with_Some. exists i, x.
    split; [done|]. split; [|done]. apply lookup_seq. split; [done|].
    by eapply lookup_lt_Some.
Qed.

Lemma StronglySorted_seq (s n : nat) : StronglySorted lt (seq s n).
Proof.
  revert s. induction n as [|n IH]; intros s; simpl; constructor; [apply IH|].
  apply Forall_forall. intros y Hy%elem_of_seq. lia.
Qed.

Lemma StronglySorted_sublist {A} (R : relation A) (l k : list A) :
  l `sublist_of` k -> StronglySorted R k -> StronglySorted R l.
Proof.
  induction 1 as [|x l k Hs IH|x l k Hs IH]; intros Hk; [done| |].
  - apply StronglySorted_inv in Hk as [Hk Hx]. constructor; [by apply IH|].
    rewrite Forall_forall in Hx |- *. intros y Hy. apply Hx.
    by eapply elem_of_sublist.
  - apply StronglySorted_inv in Hk as [Hk _]. by apply IH.
Qed.

Lemma positions_sorted (key : string) (meds : list medicine) :
  StronglySorted lt
    (filter (fun e : nat * medicine => normal_name e.2 = key)
            (zip (seq 0 (length meds)) meds)).*1.
Proof.
  apply (StronglySorted_sublist _ _ (seq 0 (length meds))); [|apply StronglySorted_seq].
  rewrite <- (fst_zip (seq 0 (length meds)) meds) at 2 by (by rewrite length_seq).
  apply fmap_sublist, sublist_filter.
Qed.

Lemma elem_of_positions (key : string) (meds : list medicine) (i : nat) :
  i ∈ (filter (fun e : nat * medicine => normal_name e.2 = key)
              (zip (seq 0 (length meds)) meds)).*1 <->
  exists med, meds !! i = Some med /\ normal_name med = key.
Proof.
  rewrite list_elem_of_fmap. split.
  - intros ([j med] & -> & [Hn Hin]%list_elem_of_filter).
    exists med. split; [|done]. by apply elem_of_enumerate.
  - intros (med & Hi & Hn). exists (i, med). split; [done|].
    apply list_elem_of_filter. split; [done|]. by apply elem_of_enumerate.
Qed.

Lemma elem_of_detect_duplicates (self : DataValidator.DataValidator)
    (d : DataValidator.duplicate) :
  d ∈ DataValidator.detect_duplicates self <->
  exists es,
    es = filter (fun e : nat * medicine => normal_name e.2 = DataValidator.dup_name d)
                (zip (seq 0 (length (DataValidator.medicines self)))
                     (DataValidator.medicines self)) /\
    DataValidator.dup_name d <> EmptyString /\
    1 < length es /\
    DataValidator.count d = length es /\
    DataValidator.indices d = es.*1.
Proof.
  unfold DataValidator.detect_duplicates. rewrite list_elem_of_fmap. split.
  - intros ([k es] & -> & [Hlen Hin]%list_elem_of_filter). simpl in *.
    apply elem_of_name_map in Hin as (Hk & _ & Hes). by exists es.
  - intros (es & Hes & Hk & Hlen & Hc & Hi). exists (DataValidator.dup_name d, es).
    split.
    + destruct d; simpl in *. by subst.
    + apply list_elem_of_filter. split; [done|]. apply elem_of_name_map.
      split; [done|]. split; [|done]. intros ->. simpl in Hlen. lia.
Qed.

Lemma two_elements {A} (l : list A) (x y : A) :
  x ∈ l -> y ∈ l -> x <> y -> 1 < length l.
Proof.
  destruct l as [|a [|b l]]; simpl; [by intros ?%elem_of_nil| |lia].
  intros ->%list_elem_of_singleton ->%list_elem_of_singleton. done.
Qed.

Lemma detect_duplicates_complete (self : DataValidator.DataValidator)
    (i j : nat) (mi mj : medicine) :
  i <> j ->
  DataValidator.medicines self !! i = Some mi ->
  DataValidator.medicines self !! j = Some mj ->
  normal_name mi = normal_name mj ->
  normal_name mi <> EmptyString ->
  exists d, d ∈ DataValidator.detect_duplicates self /\
            DataValidator.dup_name d = normal_name mi.
Proof.
  intros Hij Hi Hj Hn Hne.
  set (es := filter (fun e : nat * medicine => normal_name e.2 = normal_name mi)
                    (zip (seq 0 (length (DataValidator.medicines self)))
                         (DataValidator.medicines self))).
  exists (DataValidator.Duplicate (normal_name mi) (length es) es.*1).
  split; [|done]. apply elem_of_detect_duplicates. exists es. simpl.
  split; [done|]. split; [done|]. split; [|done].
  apply (two_elements es (i, mi) (j, mj)).
  - apply list_elem_of_filter. split; [done|]. by apply elem_of_enumerate.
  - apply list_elem_of_filter. split; [done|]. by apply elem_of_enumerate.
  - congruence.
Qed.

(** X20.  The report of [detect_duplicates] is exact.  Each group carries a
    non-empty normalised name (lowercased, then stripped), lists in
    ascending order exactly the positions of the records with that name,
    counts them, and has at least two; no name is reported twice; and two
    records at different positions with the same non-empty normalised name
    are always reported. *)
Theorem detect_duplicates_exact (self : DataValidator.DataValidator) :
  let meds := DataValidator.medicines self in
  NoDup (DataValidator.dup_name <$> DataValidator.detect_duplicates self) /\
  (forall d, d ∈ DataValidator.detect_duplicates self ->
     DataValidator.dup_name d <> EmptyString /\
     DataValidator.count d = length (DataValidator.indices d) /\
     2 <= DataValidator.count d /\
     StronglySorted lt (DataValidator.indices d) /\
     forall i, i ∈ DataValidator.indices d <->
               exists med, meds !! i = Some med /\
                           normal_name med = DataValidator.dup_name d) /\
  (forall i j mi mj,
     i <> j -> meds !! i = Some mi -> meds !! j = Some mj ->
     normal_name mi = normal_name mj -> normal_name mi <> EmptyString ->
     exists d, d ∈ DataValidator.detect_duplicates self /\
               DataValidator.dup_name d = normal_name mi).
Proof.
  intros meds. split; [|split].
  - unfold DataValidator.detect_duplicates. rewrite <- list_fmap_compose.
    apply (sublist_NoDup _ (DataValidator.name_map meds).*1).
    + apply record_name_fold_well_formed. split; constructor.
    + apply fmap_sublist, sublist_filter.
  - intros d (es & Hes & Hk & Hlen & Hc & Hi)%elem_of_detect_duplicates.
    split; [done|]. rewrite Hc, Hi, length_fmap. split; [done|]. split; [lia|].
    rewrite Hes. split; [apply positions_sorted|]. intros i. apply elem_of_positions.
  - intros i j mi mj. apply detect_duplicates_complete.
Qed.

Lemma normal_names_distinct (meds : list medicine) :
  NoDup (normal_name <$> meds) -> NoDup ((fun m => Text.lower (name m)) <$> meds).
Proof.
  intros Hnd. apply (NoDup_fmap_1 Text.strip). by rewrite <- list_fmap_compose.
Qed.

Lemma detect_duplicates_nil (self : DataValidator.DataValidator) :
  NoDup (normal_name <$> DataValidator.medicines self) ->
  DataValidator.detect_duplicates self = [].
Proof.
  intros Hnd. apply elem_of_nil_inv.
  intros d (es & Hes & Hk & Hlen & Hc & Hi)%elem_of_detect_duplicates.
  assert (StronglySorted lt es.*1) as Hsorted
    by (rewrite Hes; apply positions_sorted).
  assert (forall i, i ∈ es.*1 -> exists med,
            DataValidator.medicines self !! i = Some med /\
            normal_name med = DataValidator.dup_name d) as Hpos.
  { intros i. rewrite Hes. apply elem_of_positions. }
  destruct es as [|[i mi] [|[j mj] es]]; simpl in *; [lia|lia|].
  apply StronglySorted_inv in Hsorted as [_ Hlt].
  apply Forall_cons in Hlt as [Hlt _].
  destruct (Hpos i) as (mi' & Hmi & Hni); [left|].
  destruct (Hpos j) as (mj' & Hmj & Hnj); [right; left|].
  assert (i = j); [|lia].
  eapply NoDup_lookup; [exact Hnd| |].
  - by rewrite list_lookup_fmap, Hmi.
  - rewrite list_lookup_fmap, Hmj. simpl. by rewrite Hni, Hnj.
Qed.

(** X21.  On a catalogue without blank names [detect_duplicates] reports
    nothing exactly when the normalised names are pairwise distinct; the
    lowercased names, which key the recommender's name index, are then
    pairwise distinct too. *)
Theorem detect_duplicates_none (self : DataValidator.DataValidator) :
  Forall (fun m => normal_name m <> EmptyString) (DataValidator.medicines self) ->
  (DataValidator.detect_duplicates self = [] <->
   NoDup (normal_name <$> DataValidator.medicines self)) /\
  (DataValidator.detect_duplicates self = [] ->
   NoDup ((fun m => Text.lower (name m)) <$> DataValidator.medicines self)).
Proof.
  intros Hblank.
  assert (DataValidator.detect_duplicates self = [] ->
          NoDup (normal_name <$> DataValidator.medicines self)) as Hdistinct.
  { intros Hnil. apply NoDup_alt. intros i j k Hi Hj.
    rewrite list_lookup_fmap in Hi, Hj.
    destruct (DataValidator.medicines self !! i) as [mi|] eqn:Hmi; [|done].
    destruct (DataValidator.medicines self !! j) as [mj|] eqn:Hmj; [|done].
    simpl in Hi, Hj. injection Hi as Hi. injection Hj as Hj.
    destruct (decide (i = j)) as [|Hij]; [done|].
    destruct (detect_duplicates_complete self i j mi mj) as (d & Hd & _); try done.
    - congruence.
    - rewrite Forall_forall in Hblank. apply Hblank.
      by eapply list_elem_of_lookup_2.
    - rewrite Hnil in Hd. by apply elem_of_nil in Hd. }
  split; [split; [done|apply detect_duplicates_nil]|].
  intros Hnil. by apply normal_names_distinct, Hdistinct.
Qed.

Section CleanReport.
Context {L : Library} {Laws : LibraryLaws L}.

(** X22.  A clean report protects the recommender: when the validator finds
    no duplicates in a catalogue without blank names, a recommender trained
    on that catalogue never returns the record the query resolves to. *)
Theorem detect_duplicates_clean_excludes (self : DataValidator.DataValidator)
    (recommender : MedicineRecommender) (q : string) (top_n : Z) (med : medicine) :
  trained recommender ->
  medicines recommender = DataValidator.medicines self ->
  Forall (fun m => normal_name m <> EmptyString) (DataValidator.medicines self) ->
  DataValidator.detect_duplicates self = [] ->
  value (find_medicine q recommender) = Returns (Some med) ->
  exists recs,
    value (recommend_similar q top_n true recommender) = Returns recs /\
    med ∉ recs.*1.
Proof.
  intros Ht Hmeds Hblank Hnil Hfind.
  apply recommend_similar_excludes_query; [done| |done].
  rewrite Hmeds. apply normal_names_distinct, NoDup_alt. intros i j k Hi Hj.
  rewrite list_lookup_fmap in Hi, Hj.
  destruct (DataValidator.medicines self !! i) as [mi|] eqn:Hmi; [|done].
  destruct (DataValidator.medicines self !! j) as [mj|] eqn:Hmj; [|done].
  simpl in Hi, Hj. injection Hi as Hi. injection Hj as Hj.
  destruct (decide (i = j)) as [|Hij]; [done|].
  destruct (detect_duplicates_complete self i j mi mj) as (d & Hd & _); try done.
  - congruence.
  - rewrite Forall_forall in Hblank. apply Hblank.
    by eapply list_elem_of_lookup_2.
  - rewrite Hnil in Hd. by apply elem_of_nil in Hd.
Qed.

End CleanReport.

Lemma check_entry_fold (n : nat) (l : list (nat * medicine)) :
  let r := foldl DataValidator.check_entry (DataValidator.Completeness n 0 0 0 0 []) l in
  DataValidator.total r = n /\
  DataValidator.has_uses r = length (filter (fun e => uses e.2 <> []) l) /\
  DataValidator.has_components r = length (filter (fun e => components e.2 <> []) l) /\
  DataValidator.has_both r =
    length (filter (fun e => uses e.2 <> [] /\ components e.2 <> []) l) /\
  DataValidator.has_neither r =
    length (filter (fun e => uses e.2 = [] /\ components e.2 = []) l) /\
  DataValidator.empty_entries r =
    (fun e => (e.1, name e.2)) <$>
    filter (fun e => uses e.2 = [] /\ components e.2 = []) l.
Proof.
  induction l as [|e l IH] using rev_ind; [done|].
  cbv zeta in IH |- *. rewrite foldl_app. cbn [foldl].
  rewrite !filter_app, !length_app, fmap_app.
  destruct IH as (Ht & Hu & Hc & Hb & Hn & He).
  set (r0 := foldl _ _ l) in *. unfold DataValidator.check_entry.
  cbn [DataValidator.total DataValidator.has_uses DataValidator.has_components
       DataValidator.has_both DataValidator.has_neither DataValidator.empty_entries].
  rewrite Ht, Hu, Hc, Hb, Hn, He. clear.
  rewrite !filter_cons, !filter_nil.
  destruct (uses e.2) as [|u us], (components e.2) as [|c cs]; simpl;
    repeat (destruct (decide _) as [?|?]; try tauto; try done; try (exfalso; tauto));
    repeat split; simpl;
    rewrite ?app_nil_r, ?Nat.add_1_r, ?Nat.add_0_r; try reflexivity; try lia.
Qed.

(** X23.  The counters of [check_completeness] are consistent: every record
    is counted in [has_neither] or in at least one of [has_uses] and
    [has_components], those with both once more in [has_both]; and
    [empty_entries] lists, in ascending order of position and with their
    names, exactly the records that have neither uses nor components. *)
Theorem check_completeness_counts (self : DataValidator.DataValidator) :
  let meds := DataValidator.medicines self in
  let r := DataValidator.check_completeness self in
  DataValidator.total r = length meds /\
  DataValidator.has_uses r + DataValidator.has_components r + DataValidator.has_neither r =
    DataValidator.total r + DataValidator.has_both r /\
  length (DataValidator.empty_entries r) = DataValidator.has_neither r /\
  StronglySorted lt (DataValidator.empty_entries r).*1 /\
  forall i n, (i, n) ∈ DataValidator.empty_entries r <->
    exists med, meds !! i = Some med /\ uses med = [] /\ components med = [] /\
                n = name med.
Proof.
  intros meds r. subst r. unfold DataValidator.check_completeness. fold meds.
  destruct (check_entry_fold (length meds) (zip (seq 0 (length meds)) meds))
    as (Ht & Hu & Hc & Hb & Hn & He).
  rewrite Ht, Hu, Hc, Hb, Hn, He. split; [done|]. split; [|split; [|split]].
  - assert (length (zip (seq 0 (length meds)) meds) = length meds) as Hlen.
    { rewrite length_zip_with, length_seq. lia. }
    rewrite <- Hlen at 4. clear.
    induction (zip (seq 0 (length meds)) meds) as [|e l IH]; [done|].
    rewrite !filter_cons.
    destruct (uses e.2) as [|u us], (components e.2) as [|c cs]; simpl;
      repeat (destruct (decide _) as [?|?]; try tauto; try done; try (exfalso; tauto));
      simpl; lia.
  - by rewrite length_fmap.
  - rewrite <- list_fmap_compose.
    apply (StronglySorted_sublist _ _ (seq 0 (length meds))); [|apply StronglySorted_seq].
    rewrite <- (fst_zip (seq 0 (length meds)) meds) at 2 by (by rewrite length_seq).
    apply fmap_sublist, sublist_filter.
  - intros i n. rewrite list_elem_of_fmap. split.
    + intros ([j med] & [= -> ->] & [[Hu' Hc'] Hin]%list_elem_of_filter).
      exists med. simpl in *. split; [by apply elem_of_enumerate|done].
    + intros (med & Hi & Hu' & Hc' & ->). exists (i, med). split; [done|].
      apply list_elem_of_filter. split; [done|]. by apply elem_of_enumerate.
Qed.

(** ** [data_enricher.py] *)

Lemma fmap_alter_same {A B} (h : A -> B) (g : A -> A) (i : nat) (l : list A) :
  (forall x, h (g x) = h x) -> h <$> alter g i l = h <$> l.
Proof.
  intros Hg. revert i. induction l as [|x l IH]; intros [|i]; simpl; [done..| |].
  - by rewrite Hg.
  - f_equal. apply IH.
Qed.

Section Enricher.
Variable CATEGORY_MAPPINGS : list (string * string).
Variable TERM_STANDARDIZATION : gmap string string.
Variable list_union : list string -> list string -> list string.

Local Abbreviation merge_into := (DataEnricher.merge_into list_union).
Local Abbreviation merge_step := (DataEnricher.merge_step list_union).
Local Abbreviation merge_duplicates := (DataEnricher.merge_duplicates list_union).

Lemma merge_into_fields (existing med : medicine) :
  name (merge_into existing med) = name existing /\
  uses (merge_into existing med) = list_union (uses existing) (uses med) /\
  components (merge_into existing med) =
    list_union (components existing) (components med).
Proof.
  unfold DataEnricher.merge_into. cbn.
  repeat match goal with |- context [if ?b then _ else _] => destruct b; cbn end;
    done.
Qed.

Lemma merge_step_merged (st : DataEnricher.merging) (l : list medicine)
    (med : medicine) :
  merged st l -> merged (merge_step st med) (l ++ [med]).
Proof.
  intros (Hnd & Hseen & Hcount & Hnames & Hsame). unfold DataEnricher.merge_step.
  destruct (DataEnricher.seen_names st !! _) as [p|] eqn:Hp.
  - unfold merged. cbn [DataEnricher.unique_medicines DataEnricher.seen_names
                        DataEnricher.merged_count].
    rewrite fmap_alter_same by (intros x; by rewrite (proj1 (merge_into_fields x med))).
    split; [done|]. split; [done|]. split; [|split; [|done]].
    + rewrite length_alter, length_app. simpl. lia.
    + intros k. rewrite fmap_app, elem_of_app, Hnames. simpl.
      rewrite list_elem_of_singleton. split; [by left|]. intros [?| ->]; [done|].
      apply Hnames. apply Hseen in Hp. by eapply list_elem_of_lookup_2.
  - assert (normal_name med ∉ normal_name <$> DataEnricher.unique_medicines st) as Hnew.
    { intros [p Hin]%list_elem_of_lookup. apply Hseen in Hin. simpl in Hin. congruence. }
    unfold merged. cbn [DataEnricher.unique_medicines DataEnricher.seen_names
                        DataEnricher.merged_count].
    rewrite !fmap_app. simpl. split; [|split; [|split; [|split]]].
    + apply NoDup_app. split; [done|]. split; [|apply NoDup_singleton].
      by intros x Hx ->%list_elem_of_singleton.
    + intros k p. rewrite <- (length_fmap normal_name).
      destruct (decide (k = normal_name med)) as [->|Hk].
      * rewrite lookup_insert_eq. split.
        -- intros [= <-]. by rewrite list_lookup_middle.
        -- intros [Hin|[Hlen Hin]]%lookup_app_Some.
           ++ destruct Hnew. by eapply list_elem_of_lookup_2.
           ++ f_equal. apply lookup_lt_Some in Hin. simpl in Hin. lia.
      * rewrite lookup_insert_ne by done. rewrite Hseen. split.
        -- apply lookup_app_l_Some.
        -- intros [Hin|[Hlen Hin]]%lookup_app_Some; [done|].
           apply list_lookup_singleton_Some in Hin as [_ ?]. congruence.
    + rewrite !length_app. simpl. lia.
    + intros k. rewrite !elem_of_app, Hnames. done.
    + intros H0. by rewrite Hsame.
Qed.

Lemma merge_fold_merged (l : list medicine) :
  merged (foldl merge_step (DataEnricher.Merging 0 ∅ []) l) l.
Proof.
  induction l as [|med l IH] using rev_ind.
  - split; [constructor|]. split; [|split; [done|split; [done|done]]].
    intros k p. simpl. by rewrite lookup_empty, lookup_nil.
  - rewrite foldl_app. by apply merge_step_merged.
Qed.

Lemma merge_duplicates_run (self : DataEnricher.DataEnricher) :
  merge_duplicates self =
  let st := foldl merge_step (DataEnricher.Merging 0 ∅ [])
                  (DataEnricher.medicines self) in
  if (0 <? DataEnricher.merged_count st)%nat then
    Outcome (Returns (DataEnricher.merged_count st))
            (DataEnricher.set_medicines (DataEnricher.unique_medicines st) self)
            [Saved (DataEnricher.database_path self) (DataEnricher.unique_medicines st)]
  else Outcome (Returns (DataEnricher.merged_count st)) self [].
Proof.
  unfold DataEnricher.merge_duplicates.
  unfold mbind, mret, method_bind, method_ret, bind, ret, get.
  cbv beta iota zeta delta [value self_after printed].
  set (st := foldl _ _ _).
  by destruct (0 <? DataEnricher.merged_count st)%nat.
Qed.

Lemma merge_duplicates_after (self : DataEnricher.DataEnricher) :
  DataEnricher.medicines (self_after (merge_duplicates self)) =
  DataEnricher.unique_medicines
    (foldl merge_step (DataEnricher.Merging 0 ∅ []) (DataEnricher.medicines self)).
Proof.
  rewrite merge_duplicates_run. cbv zeta.
  destruct (merge_fold_merged (DataEnricher.medicines self)) as (_ & _ & _ & _ & Hsame).
  destruct (0 <? _)%nat eqn:Hn; [done|]. simpl.
  symmetry. apply Hsame. apply Nat.ltb_ge in Hn. lia.
Qed.

(** X24.  [merge_duplicates] never raises and leaves a catalogue whose
    normalised names (lowercased, then stripped) are pairwise distinct and
    are the names it started with; the number it returns is the number of
    records that disappeared, and it is 0 exactly when the names were
    distinct already.  The file is written, with the new catalogue, exactly
    when something was merged; otherwise the enricher is unchanged. *)
Theorem merge_duplicates_distinct (self : DataEnricher.DataEnricher) :
  let o := merge_duplicates self in
  let after := DataEnricher.medicines (self_after o) in
  exists n,
    value o = Returns n /\
    n + length after = length (DataEnricher.medicines self) /\
    NoDup (normal_name <$> after) /\
    (forall k, k ∈ normal_name <$> after <->
               k ∈ normal_name <$> DataEnricher.medicines self) /\
    (n = 0 <-> NoDup (normal_name <$> DataEnricher.medicines self)) /\
    DataEnricher.database_path (self_after o) = DataEnricher.database_path self /\
    (n = 0 -> self_after o = self /\ printed o = []) /\
    (0 < n -> printed o = [Saved (DataEnricher.database_path self) after]).
Proof.
  intros o after. subst o after. rewrite merge_duplicates_after.
  rewrite merge_duplicates_run. cbv zeta.
  destruct (merge_fold_merged (DataEnricher.medicines self))
    as (Hnd & _ & Hcount & Hnames & Hsame).
  set (st := foldl _ _ _) in *. exists (DataEnricher.merged_count st).
  split; [by destruct (0 <? _)%nat|]. split; [done|]. split; [done|].
  split; [done|]. split; [|split; [by destruct (0 <? _)%nat|split]].
  - split.
    + intros H0. by rewrite <- (Hsame H0).
    + intros Hnd'.
      assert (length (normal_name <$> DataEnricher.unique_medicines st) =
              length (normal_name <$> DataEnricher.medicines self)) as Hlen.
      { apply Permutation_length, NoDup_Permutation; done. }
      rewrite !length_fmap in Hlen. lia.
  - intros ->. by destruct (0 <? 0)%nat eqn:H0.
  - intros Hpos. apply Nat.ltb_lt in Hpos. by rewrite Hpos.
Qed.

(** X25.  After [merge_duplicates] the validator has nothing to report:
    [detect_duplicates] returns the empty list on the merged catalogue, and
    the lowercased names that key the recommender's index are pairwise
    distinct. *)
Theorem merge_duplicates_clears_report (self : DataEnricher.DataEnricher)
    (validator : DataValidator.DataValidator) :
  DataValidator.medicines validator =
  DataEnricher.medicines (self_after (merge_duplicates self)) ->
  DataValidator.detect_duplicates validator = [] /\
  NoDup ((fun m => Text.lower (name m)) <$> DataValidator.medicines validator).
Proof.
  intros Hmeds.
  assert (NoDup (normal_name <$> DataValidator.medicines validator)) as Hnd.
  { rewrite Hmeds, merge_duplicates_after.
    by destruct (merge_fold_merged (DataEnricher.medicines self)) as (Hnd & _). }
  split; [by apply detect_duplicates_nil|by apply normal_names_distinct].
Qed.

Section Union.
Hypothesis list_union_spec :
  forall a b x, x ∈ list_union a b <-> x ∈ a \/ x ∈ b.

Lemma gathered_snoc_other (field : medicine -> list string)
    (l : list medicine) (med r : medicine) (x : string) :
  normal_name r <> normal_name med ->
  (exists m, m ∈ l /\ normal_name m = normal_name r /\ x ∈ field m) <->
  (exists m, m ∈ l ++ [med] /\ normal_name m = normal_name r /\ x ∈ field m).
Proof.
  intros Hne. split.
  - intros (m & Hin & Hn & Hx). exists m. split; [|done].
    apply elem_of_app. by left.
  - intros (m & [Hin| ->%list_elem_of_singleton]%elem_of_app & Hn & Hx); [|congruence].
    by exists m.
Qed.

Lemma gathered_snoc_same (field : medicine -> list string)
    (l : list medicine) (med r : medicine) (x : string) :
  normal_name r = normal_name med ->
  (exists m, m ∈ l /\ normal_name m = normal_name r /\ x ∈ field m) \/ x ∈ field med <->
  (exists m, m ∈ l ++ [med] /\ normal_name m = normal_name r /\ x ∈ field m).
Proof.
  intros He. split.
  - intros [(m & Hin & Hn & Hx)|Hx].
    + exists m. split; [|done]. apply elem_of_app. by left.
    + exists med. split; [|done]. apply elem_of_app. right. left.
  - intros (m & [Hin| ->%list_elem_of_singleton]%elem_of_app & Hn & Hx); [|by right].
    left. by exists m.
Qed.

Lemma merge_step_gathered (st : DataEnricher.merging) (l : list medicine)
    (med : medicine) :
  merged st l -> gathered st l -> gathered (merge_step st med) (l ++ [med]).
Proof.
  intros (Hnd & Hseen & _ & Hnames & _) Hg. unfold DataEnricher.merge_step.
  destruct (DataEnricher.seen_names st !! _) as [p|] eqn:Hp.
  - cbn [gathered DataEnricher.unique_medicines]. unfold gathered.
    cbn [DataEnricher.unique_medicines].
    apply Hseen in Hp. rewrite list_lookup_fmap in Hp.
    destruct (DataEnricher.unique_medicines st !! p) as [r0|] eqn:Hr0; [|done].
    simpl in Hp. injection Hp as Hp.
    intros r [i Hi]%list_elem_of_lookup.
    destruct (decide (i = p)) as [->|Hip].
    + rewrite list_lookup_alter_eq, Hr0 in Hi. simpl in Hi. injection Hi as <-.
      destruct (merge_into_fields r0 med) as (Hn & Hu & Hc).
      rewrite Hn, Hu, Hc.
      destruct (Hg r0) as [Hgu Hgc]; [by eapply list_elem_of_lookup_2|].
      split; intros x; rewrite list_union_spec.
      * rewrite Hgu. by apply (gathered_snoc_same uses).
      * rewrite Hgc. by apply (gathered_snoc_same components).
    + rewrite list_lookup_alter_ne in Hi by congruence.
      destruct (Hg r) as [Hgu Hgc]; [by eapply list_elem_of_lookup_2|].
      assert (normal_name r <> normal_name med) as Hne.
      { intros He. apply Hip. eapply NoDup_lookup; [exact Hnd| |].
        - by rewrite list_lookup_fmap, Hi.
        - rewrite list_lookup_fmap, Hr0. simpl. congruence. }
      split; intros x.
      * rewrite Hgu. by apply (gathered_snoc_other uses).
      * rewrite Hgc. by apply (gathered_snoc_other components).
  - assert (normal_name med ∉ normal_name <$> DataEnricher.unique_medicines st) as Hnew.
    { intros [p Hin]%list_elem_of_lookup. apply Hseen in Hin. simpl in Hin. congruence. }
    unfold gathered. cbn [DataEnricher.unique_medicines].
    intros r [Hin| ->%list_elem_of_singleton]%elem_of_app.
    + destruct (Hg r Hin) as [Hgu Hgc].
      assert (normal_name r <> normal_name med) as Hne.
      { intros He. apply Hnew. rewrite <- He. apply list_elem_of_fmap. by exists r. }
      split; intros x.
      * rewrite Hgu. by apply (gathered_snoc_other uses).
      * rewrite Hgc. by apply (gathered_snoc_other components).
    + assert (forall field x,
                x ∈ field med <->
                exists m, m ∈ l ++ [med] /\ normal_name m = normal_name med /\
                          x ∈ (field m : list string)) as Hown.
      { intros field x. split.
        - intros Hx. exists med. split; [|done]. apply elem_of_app. right. left.
        - intros (m & [Hin| ->%list_elem_of_singleton]%elem_of_app & Hn & Hx); [|done].
          destruct Hnew. apply Hnames. rewrite <- Hn.
          apply list_elem_of_fmap. by exists m. }
      split; intros x; [apply (Hown uses)|apply (Hown components)].
Qed.

Lemma merge_fold_gathered (l : list medicine) :
  gathered (foldl merge_step (DataEnricher.Merging 0 ∅ []) l) l.
Proof.
  induction l as [|med l IH] using rev_ind.
  - intros r Hr. simpl in Hr. by apply elem_of_nil in Hr.
  - rewrite foldl_app. apply merge_step_gathered; [apply merge_fold_merged|done].
Qed.

(** X26.  Merging loses nothing and invents nothing: in the catalogue
    [merge_duplicates] leaves, the uses of a record are exactly the uses of
    the original records with the same normalised name, and likewise its
    components. *)
Theorem merge_duplicates_gathers (self : DataEnricher.DataEnricher) (r : medicine) :
  r ∈ DataEnricher.medicines (self_after (merge_duplicates self)) ->
  (forall u, u ∈ uses r <->
     exists m, m ∈ DataEnricher.medicines self /\
               normal_name m = normal_name r /\ u ∈ uses m) /\
  (forall c, c ∈ components r <->
     exists m, m ∈ DataEnricher.medicines self /\
               normal_name m = normal_name r /\ c ∈ components m).
Proof.
  rewrite merge_duplicates_after. apply merge_fold_gathered.
Qed.

End Union.

End Enricher.

Section Standardize.
Variable CATEGORY_MAPPINGS : list (string * string).
Variable TERM_STANDARDIZATION : gmap string string.

Local Abbreviation standard :=
  (fun u : string => default u (TERM_STANDARDIZATION !! Text.strip (Text.lower u))).
Local Abbreviation listed :=
  (fun u : string => is_Some (TERM_STANDARDIZATION !! Text.strip (Text.lower u))).
Local Abbreviation standardize_uses := (DataEnricher.standardize_uses TERM_STANDARDIZATION).
Local Abbreviation add_missing_categories :=
  (DataEnricher.add_missing_categories CATEGORY_MAPPINGS).
Local Abbreviation fill_missing_fields :=
  (DataEnricher.fill_missing_fields CATEGORY_MAPPINGS).
Local Abbreviation _infer_category := (DataEnricher._infer_category CATEGORY_MAPPINGS).

Lemma standardized_spec (l : list string) (c : nat) :
  DataEnricher.standardized TERM_STANDARDIZATION l c =
  (standard <$> l, c + length (filter listed l)).
Proof.
  revert c. induction l as [|u l IH]; intros c; simpl.
  - f_equal. lia.
  - destruct (TERM_STANDARDIZATION !! _) as [term|] eqn:Hu; rewrite IH; simpl.
    + rewrite filter_cons_True by (by rewrite Hu). simpl. f_equal. lia.
    + rewrite filter_cons_False; [done|]. rewrite Hu. by intros [? ?].
Qed.

Lemma unique_spec (seen : gset string) (l : list string) :
  NoDup (Text.lower <$> DataEnricher.unique seen l) /\
  (forall u, u ∈ DataEnricher.unique seen l -> u ∈ l /\ Text.lower u ∉ seen) /\
  (forall u, u ∈ l ->
     Text.lower u ∈ seen \/ Text.lower u ∈ Text.lower <$> DataEnricher.unique seen l).
Proof.
  revert seen. induction l as [|x l IH]; intros seen; simpl.
  - split; [constructor|]. split; by intros u ?%elem_of_nil.
  - destruct (decide (Text.lower x ∈ seen)) as [Hx|Hx].
    + destruct (IH seen) as (Hnd & Hin & Hall). split; [done|]. split.
      * intros u Hu. destruct (Hin u Hu). split; [by right|done].
      * intros u [->|Hu]%elem_of_cons; [by left|]. by apply Hall.
    + destruct (IH ({[Text.lower x]} ∪ seen)) as (Hnd & Hin & Hall).
      split; [|split].
      * rewrite fmap_cons. apply NoDup_cons. split; [|done].
        intros (u & Hu & Hmem)%list_elem_of_fmap. destruct (Hin u Hmem) as [_ Hns].
        apply Hns, elem_of_union. left. by apply elem_of_singleton.
      * intros u [->|Hu]%elem_of_cons; [split; [left|done]|].
        destruct (Hin u Hu) as [? Hns]. split; [by right|].
        intros ?. apply Hns, elem_of_union. by right.
      * intros u [->|Hu]%elem_of_cons; [right; left|].
        destruct (Hall u Hu) as [[->%elem_of_singleton|?]%elem_of_union|?].
        -- right. left.
        -- by left.
        -- right. by right.
Qed.

Lemma standardize_all_spec (meds : list medicine) (c : nat) :
  DataEnricher.standardize_all TERM_STANDARDIZATION meds c =
  ((fun m => set_uses (DataEnricher.unique ∅ (standard <$> uses m)) m) <$> meds,
   c + length (filter listed (meds ≫= uses))).
Proof.
  revert c. induction meds as [|m meds IH]; intros c; simpl.
  - f_equal. lia.
  - rewrite standardized_spec. simpl. rewrite IH. simpl.
    rewrite filter_app, length_app. f_equal. symmetry. apply Nat.add_assoc.
Qed.

Lemma standardize_uses_run (self : DataEnricher.DataEnricher) :
  standardize_uses self =
  let r := DataEnricher.standardize_all TERM_STANDARDIZATION
             (DataEnricher.medicines self) 0 in
  Outcome (Returns r.2) (DataEnricher.set_medicines r.1 self)
          (if (0 <? r.2)%nat then [Saved (DataEnricher.database_path self) r.1] else []).
Proof.
  unfold DataEnricher.standardize_uses.
  unfold mbind, mret, method_bind, method_ret, bind, ret, get, put.
  cbv beta iota zeta delta [value self_after printed].
  set (r := DataEnricher.standardize_all _ _ _).
  by destruct (0 <? r.2)%nat.
Qed.

(** X27.  [standardize_uses] never raises and returns the number of uses,
    over all records, whose stripped lowercased text is a key of
    [TERM_STANDARDIZATION].  It keeps every record in place with its name,
    components, category and description; the new uses of a record are
    pairwise distinct up to case, each is an old use or its standard term,
    and every old use is still represented up to case.  The file is written
    exactly when the count is positive. *)
Theorem standardize_uses_outcome (self : DataEnricher.DataEnricher) :
  let o := standardize_uses self in
  let after := DataEnricher.medicines (self_after o) in
  exists n,
    value o = Returns n /\
    n = length (filter listed (DataEnricher.medicines self ≫= uses)) /\
    length after = length (DataEnricher.medicines self) /\
    (forall i m, DataEnricher.medicines self !! i = Some m ->
       exists m', after !! i = Some m' /\
         name m' = name m /\ components m' = components m /\
         category m' = category m /\ description m' = description m /\
         NoDup (Text.lower <$> uses m') /\
         (forall u', u' ∈ uses m' -> exists u, u ∈ uses m /\ u' = standard u) /\
         (forall u, u ∈ uses m ->
            exists u', u' ∈ uses m' /\ Text.lower u' = Text.lower (standard u))) /\
    DataEnricher.database_path (self_after o) = DataEnricher.database_path self /\
    printed o = if (0 <? n)%nat
                then [Saved (DataEnricher.database_path self) after] else [].
Proof.
  intros o after. subst o after. rewrite standardize_uses_run, standardize_all_spec.
  cbv zeta. cbn [fst snd value self_after printed DataEnricher.medicines
                 DataEnricher.set_medicines DataEnricher.database_path].
  eexists. split; [done|]. split; [done|]. split; [by rewrite length_fmap|].
  split; [|done]. intros i m Hi. eexists. rewrite list_lookup_fmap, Hi. simpl.
  split; [done|]. do 4 (split; [done|]).
  destruct (unique_spec ∅ (standard <$> uses m)) as (Hnd & Hin & Hall).
  split; [done|]. split.
  - intros u' Hu'. destruct (Hin u' Hu') as [(u & -> & Hu)%list_elem_of_fmap _].
    by exists u.
  - intros u Hu. destruct (Hall (standard u)) as [Hs|Hs].
    + apply list_elem_of_fmap. by exists u.
    + by apply elem_of_empty in Hs.
    + apply list_elem_of_fmap in Hs as (u' & Hl & Hu'). by exists u'.
Qed.

Local Abbreviation repaired := (fun m : medicine =>
  if DataEnricher.known (category m) then m
  else if negb (nonempty (uses m)) then m
  else if DataEnricher.known (Some (_infer_category (uses m)))
       then set_category (Some (_infer_category (uses m))) m
       else m).
Local Abbreviation repairable := (fun m : medicine =>
  DataEnricher.known (category m) = false /\ nonempty (uses m) = true /\
  DataEnricher.known (Some (_infer_category (uses m))) = true).

Lemma add_categories_spec (meds : list medicine) (c : nat) :
  DataEnricher.add_categories CATEGORY_MAPPINGS meds c =
  (repaired <$> meds, c + length (filter repairable meds)).
Proof.
  revert c. induction meds as [|m meds IH]; intros c; simpl.
  - f_equal. lia.
  - destruct (DataEnricher.known (category m)) eqn:Hk; simpl.
    { rewrite IH. simpl. rewrite filter_cons_False; [done|].
      intros [? _]. congruence. }
    destruct (nonempty (uses m)) eqn:Hu; simpl.
    2:{ rewrite IH. simpl. rewrite filter_cons_False; [done|].
        intros (_ & ? & _). congruence. }
    destruct (DataEnricher.known (Some _)) eqn:Hi; rewrite IH; simpl.
    + rewrite filter_cons_True by done. simpl. f_equal. lia.
    + rewrite filter_cons_False; [done|]. intros (_ & _ & ?). congruence.
Qed.

Lemma add_missing_categories_run (self : DataEnricher.DataEnricher) :
  add_missing_categories self =
  let r := DataEnricher.add_categories CATEGORY_MAPPINGS
             (DataEnricher.medicines self) 0 in
  Outcome (Returns r.2) (DataEnricher.set_medicines r.1 self)
          (if (0 <? r.2)%nat then [Saved (DataEnricher.database_path self) r.1] else []).
Proof.
  unfold DataEnricher.add_missing_categories.
  unfold mbind, mret, method_bind, method_ret, bind, ret, get, put.
  cbv beta iota zeta delta [value self_after printed].
  set (r := DataEnricher.add_categories _ _ _).
  by destruct (0 <? r.2)%nat.
Qed.

Lemma repaired_fixed (m : medicine) : repaired (repaired m) = repaired m.
Proof.
  cbv beta. destruct (DataEnricher.known (category m)) eqn:Hk; [by rewrite Hk|].
  destruct (nonempty (uses m)) eqn:Hu; cbn [negb]; [|by rewrite Hk, Hu].
  destruct (DataEnricher.known (Some _)) eqn:Hi; [|by rewrite Hk, Hu, Hi].
  cbn [category set_category uses]. by rewrite Hi.
Qed.

Lemma repaired_not_repairable (m : medicine) : ~ repairable (repaired m).
Proof.
  cbv beta. destruct (DataEnricher.known (category m)) eqn:Hk.
  { intros [? _]. congruence. }
  destruct (nonempty (uses m)) eqn:Hu; cbn [negb].
  2:{ intros (_ & ? & _). congruence. }
  destruct (DataEnricher.known (Some _)) eqn:Hi.
  - cbn [category set_category uses]. intros [? _]. congruence.
  - intros (_ & _ & ?). congruence.
Qed.

(** X28.  [add_missing_categories] never raises.  A record receives a
    category exactly when its own category is missing, empty or ['Unknown'],
    it has at least one use, and the category inferred from its uses is
    neither empty nor ['Unknown']; it then holds the inferred category and
    keeps its other fields, and every other record is left as it was.  The
    number returned is the number of records that received a category, and
    the file is written exactly when that number is positive.  Called again
    at once the method returns 0, changes nothing and writes nothing. *)
Theorem add_missing_categories_settles (self : DataEnricher.DataEnricher) :
  let o := add_missing_categories self in
  let after := DataEnricher.medicines (self_after o) in
  exists n,
    value o = Returns n /\
    n = length (filter repairable (DataEnricher.medicines self)) /\
    printed o = (if (0 <? n)%nat
                 then [Saved (DataEnricher.database_path self) after] else []) /\
    DataEnricher.database_path (self_after o) = DataEnricher.database_path self /\
    length after = length (DataEnricher.medicines self) /\
    (forall i m, DataEnricher.medicines self !! i = Some m ->
       exists m', after !! i = Some m' /\
         name m' = name m /\ uses m' = uses m /\ components m' = components m /\
         description m' = description m /\
         (repairable m -> category m' = Some (_infer_category (uses m))) /\
         (~ repairable m -> m' = m) /\
         (DataEnricher.known (category m) = true -> m' = m)) /\
    add_missing_categories (self_after o) = Outcome (Returns 0) (self_after o) [].
Proof.
  intros o after. subst o after. rewrite add_missing_categories_run, add_categories_spec.
  cbv zeta. cbn [fst snd value self_after printed DataEnricher.medicines
                 DataEnricher.set_medicines DataEnricher.database_path].
  eexists. split; [done|]. split; [done|]. split; [done|]. split; [done|].
  split; [by rewrite length_fmap|]. split.
  - intros i m Hi. eexists. rewrite list_lookup_fmap, Hi. simpl. split; [done|].
    destruct (DataEnricher.known (category m)) eqn:Hk.
    { repeat split; try done. intros [? _]. congruence. }
    destruct (nonempty (uses m)) eqn:Hu; simpl.
    2:{ repeat split; try done. intros (_ & ? & _). congruence. }
    destruct (DataEnricher.known (Some _)) eqn:Hinfer.
    + repeat split; try done. intros Hno. destruct Hno. by repeat split.
    + repeat split; try done. intros (_ & _ & ?). congruence.
  - rewrite add_missing_categories_run, add_categories_spec. cbv zeta.
    cbn [fst snd DataEnricher.medicines DataEnricher.set_medicines
         DataEnricher.database_path].
    assert (filter repairable (repaired <$> DataEnricher.medicines self) = []) as ->.
    { apply elem_of_nil_inv. intros m [Hm (m0 & -> & _)%list_elem_of_fmap]%list_elem_of_filter.
      by apply (repaired_not_repairable m0). }
    simpl. unfold DataEnricher.set_medicines. simpl. do 2 f_equal.
    rewrite <- list_fmap_compose. apply list_fmap_ext. intros _ m _. simpl.
    apply repaired_fixed.
Qed.

Lemma first_category_member (mappings : list (string * string)) (use_text c : string) :
  first_category mappings use_text = Some c -> exists term, (term, c) ∈ mappings.
Proof.
  induction mappings as [|[term c0] mappings IH]; simpl; [done|].
  destruct (Text.contains _ _).
  - intros [= ->]. exists term. left.
  - intros (t & Hin)%IH. exists t. by right.
Qed.

Lemma fill_categories_spec (meds : list medicine) (c : nat) :
  DataEnricher.fill_categories CATEGORY_MAPPINGS meds c =
  ((fun m => if truthy (category m) then m
             else set_category (Some (_infer_category (uses m))) m) <$> meds,
   c + length (filter (fun m => truthy (category m) = false) meds)).
Proof.
  revert c. induction meds as [|m meds IH]; intros c; simpl.
  - f_equal. lia.
  - destruct (truthy (category m)) eqn:Hc; simpl; rewrite IH; simpl.
    + rewrite filter_cons_False by (by rewrite Hc). done.
    + rewrite filter_cons_True by done. simpl. f_equal. lia.
Qed.

Lemma fill_missing_fields_run (self : DataEnricher.DataEnricher) :
  fill_missing_fields self =
  let r := DataEnricher.fill_categories CATEGORY_MAPPINGS
             (DataEnricher.medicines self) 0 in
  Outcome (Returns (r.2, 0)) (DataEnricher.set_medicines r.1 self)
          (if (0 <? r.2)%nat then [Saved (DataEnricher.database_path self) r.1] else []).
Proof.
  unfold DataEnricher.fill_missing_fields.
  unfold mbind, mret, method_bind, method_ret, bind, ret, get, put.
  cbv beta iota zeta delta [value self_after printed].
  set (r := DataEnricher.fill_categories _ _ _).
  rewrite orb_false_r. by destruct (0 <? r.2)%nat.
Qed.

(** X29.  When no category of [CATEGORY_MAPPINGS] is the empty string,
    [fill_missing_fields] returns the number of records without a category
    (key absent or empty), leaves every record with a non-empty category
    and with its other fields, and keeps a category that was there; called
    again at once it counts 0, changes nothing and writes nothing. *)
Theorem fill_missing_fields_settles (self : DataEnricher.DataEnricher) :
  Forall (fun item => item.2 <> EmptyString) CATEGORY_MAPPINGS ->
  let o := fill_missing_fields self in
  let after := DataEnricher.medicines (self_after o) in
  value o =
    Returns (length (filter (fun m => truthy (category m) = false)
                            (DataEnricher.medicines self)), 0) /\
  Forall (fun m => truthy (category m) = true) after /\
  length after = length (DataEnricher.medicines self) /\
  (forall i m, DataEnricher.medicines self !! i = Some m ->
     exists m', after !! i = Some m' /\
       name m' = name m /\ uses m' = uses m /\ components m' = components m /\
       description m' = description m /\
       (truthy (category m) = true -> m' = m)) /\
  fill_missing_fields (self_after o) = Outcome (Returns (0, 0)) (self_after o) [].
Proof.
  intros Hmap o after. subst o after.
  assert (forall l, truthy (Some (_infer_category l)) = true) as Hinfer.
  { intros l. unfold DataEnricher._infer_category.
    destruct (first_category _ _) as [c|] eqn:Hc; [|done]. simpl.
    apply first_category_member in Hc as [term Hin].
    rewrite Forall_forall in Hmap. specialize (Hmap _ Hin). simpl in Hmap.
    by destruct c. }
  rewrite fill_missing_fields_run, fill_categories_spec.
  cbv zeta. cbn [fst snd value self_after printed DataEnricher.medicines
                 DataEnricher.set_medicines DataEnricher.database_path].
  assert (Forall (fun m => truthy (category m) = true)
            ((fun m => if truthy (category m) then m
                       else set_category (Some (_infer_category (uses m))) m) <$>
             DataEnricher.medicines self)) as Hall.
  { apply Forall_fmap, Forall_forall. intros m _. simpl.
    destruct (truthy (category m)) eqn:Hc; [done|]. apply Hinfer. }
  split; [done|]. split; [done|]. split; [by rewrite length_fmap|]. split.
  - intros i m Hi. eexists. rewrite list_lookup_fmap, Hi. simpl. split; [done|].
    by destruct (truthy (category m)).
  - rewrite fill_missing_fields_run, fill_categories_spec. cbv zeta.
    cbn [fst snd DataEnricher.medicines DataEnricher.set_medicines
         DataEnricher.database_path].
    set (after := _ <$> DataEnricher.medicines self) in *.
    assert (filter (fun m => truthy (category m) = false) after = []) as ->.
    { apply elem_of_nil_inv. intros m [Hm Hin]%list_elem_of_filter.
      rewrite Forall_forall in Hall. rewrite (Hall m Hin) in Hm. done. }
    simpl. unfold DataEnricher.set_medicines. simpl. do 2 f_equal.
    rewrite <- (list_fmap_id after) at 2. apply list_fmap_ext. intros i m Hm.
    rewrite Forall_forall in Hall. simpl.
    rewrite (Hall m); [done|]. by eapply list_elem_of_lookup_2.
Qed.

End Standardize.

(** ** [collect_medicines.py] *)

(** X30.  The merge of [fetch_from_api] keeps the existing records, in
    order, in front, and appends exactly the fetched records whose
    lowercased name is not an existing one.  When the lowercased names are
    pairwise distinct among the existing records and among the fetched
    ones, they are pairwise distinct in the merged catalogue. *)
Theorem all_medicines_distinct (existing_medicines medicines : list medicine) :
  NoDup ((fun m => Text.lower (name m)) <$> existing_medicines) ->
  NoDup ((fun m => Text.lower (name m)) <$> medicines) ->
  NoDup ((fun m => Text.lower (name m)) <$>
         all_medicines existing_medicines medicines) /\
  take (length existing_medicines) (all_medicines existing_medicines medicines) =
    existing_medicines /\
  (forall m, m ∈ drop (length existing_medicines)
                      (all_medicines existing_medicines medicines) <->
             m ∈ medicines /\
             Text.lower (name m) ∉
               (fun m => Text.lower (name m)) <$> existing_medicines).
Proof.
  intros Hold Hnew. unfold all_medicines, new_medicines, existing_names.
  split; [|split].
  - rewrite fmap_app. apply NoDup_app. split; [done|]. split.
    + intros k Hk (m & -> & [Hm _]%list_elem_of_filter)%list_elem_of_fmap.
      apply Hm. by apply elem_of_list_to_set.
    + apply (sublist_NoDup _ _ Hnew). apply fmap_sublist, sublist_filter.
  - by rewrite take_app_length.
  - intros m. rewrite drop_app_length, list_elem_of_filter.
    rewrite elem_of_list_to_set. tauto.
Qed.

(** ** The further properties on the sample catalogues *)

Lemma serving_pair_trained : trained (serving [aspirin; ibuprofen]).
Proof.
  split; [vm_compute; reflexivity|].
  eexists. split; vm_compute; reflexivity.
Defined.

Lemma serving_namesakes_trained : trained (serving [aspirin; aspirin_lowercase]).
Proof.
  split; [vm_compute; reflexivity|].
  eexists. split; vm_compute; reflexivity.
Defined.

Lemma find_medicine_query_normal_witness :
  find_medicine ("  " ++ "ASPIRIN" ++ " ") (serving scenario) =
  find_medicine "aspirin" (serving scenario).
Proof.
  apply (find_medicine_query_normal (serving scenario) "aspirin" "ASPIRIN" "  " " ").
  - reflexivity.
  - repeat constructor.
  - repeat constructor.
Defined.

Lemma find_medicine_contains_witness :
  let self := serving scenario in
  let key := Text.strip (Text.lower "Ibu") in
  (exists found, value (find_medicine "Ibu" self) = Returns found) /\
  (forall med, value (find_medicine "Ibu" self) = Returns (Some med) ->
     med ∈ medicines self /\
     Text.contains key (Text.lower (name med)) = true) /\
  (value (find_medicine "Ibu" self) = Returns None <->
   Forall (fun med => Text.contains key (Text.lower (name med)) = false)
          (medicines self)).
Proof.
  apply (find_medicine_contains (serving scenario) "Ibu").
  vm_compute; reflexivity.
Defined.

Lemma recommend_similar_returns_witness :
  exists recs,
    value (recommend_similar "Ibuprofen" (-3) false (serving scenario)) = Returns recs.
Proof.
  apply (recommend_similar_returns (serving scenario) "Ibuprofen" (-3) false).
  exact serving_scenario_trained.
Defined.

Lemma recommend_similar_not_found_witness :
  exists X,
    feature_vectors (serving scenario) = Some X /\
    recommend_similar "Paracetamol" 5 true (serving scenario) =
    Outcome (Returns []) (serving scenario) [MedicineNotFound "Paracetamol"].
Proof.
  eexists. split; [vm_compute; reflexivity|].
  eapply (recommend_similar_not_found (serving scenario) _ "Paracetamol" 5 true).
  - vm_compute; reflexivity.
  - vm_compute; reflexivity.
  - vm_compute. repeat constructor.
Defined.

Lemma recommend_similar_count_witness :
  exists recs,
    value (recommend_similar "Aspirin" 0 false (serving scenario)) = Returns recs /\
    length recs =
    Z.to_nat (Z.max 0 1) `min` (length (medicines (serving scenario)) - 0).
Proof.
  apply (recommend_similar_count (serving scenario) "Aspirin" 0 false aspirin).
  - exact serving_scenario_trained.
  - vm_compute; reflexivity.
Defined.

Lemma recommend_similar_positions_witness :
  exists X similarities idxs recs,
    feature_vectors (serving scenario) = Some X /\
    query_similarities (serving scenario) X aspirin = Returns similarities /\
    value (recommend_similar "Aspirin" 5 false (serving scenario)) = Returns recs /\
    Forall2 (entry_at (medicines (serving scenario)) similarities) idxs recs /\
    NoDup idxs /\
    Forall (fun idx => idx < length (medicines (serving scenario))) idxs.
Proof.
  apply (recommend_similar_positions (serving scenario) "Aspirin" 5 false aspirin).
  - exact serving_scenario_trained.
  - vm_compute; reflexivity.
Defined.

Lemma recommend_similar_excludes_indexed_witness :
  let self := serving [aspirin; aspirin_lowercase] in
  exists med X similarities idxs recs,
    medicines self !! 1 = Some med /\
    value (find_medicine "ASPIRIN" self) = Returns (Some med) /\
    feature_vectors self = Some X /\
    query_similarities self X med = Returns similarities /\
    value (recommend_similar "ASPIRIN" 5 true self) = Returns recs /\
    Forall2 (entry_at (medicines self) similarities) idxs recs /\
    1 ∉ idxs.
Proof.
  apply (recommend_similar_excludes_indexed
           (serving [aspirin; aspirin_lowercase]) "ASPIRIN" 5 1).
  - exact serving_namesakes_trained.
  - vm_compute; reflexivity.
Defined.

(** The sample of the last case: with namesakes, the exact query skips its
    own record and returns the other one. *)
Example recommend_similar_namesake :
  value (recommend_similar "ASPIRIN" 5 true (serving [aspirin; aspirin_lowercase])) =
  Returns [(aspirin, 0)] /\
  value (find_medicine "ASPIRIN" (serving [aspirin; aspirin_lowercase])) =
  Returns (Some aspirin_lowercase).
Proof. split; vm_compute; reflexivity. Qed.

Lemma recommend_similar_stale_vectors_witness :
  let self := serving [aspirin; ibuprofen] in
  let self' := self_after (load_database (Document (Some scenario)) self) in
  feature_vectors self' = feature_vectors self /\
  recommend_similar "Amoxicillin" 5 true self' = Outcome (Raises IndexError) self' [].
Proof.
  apply (recommend_similar_stale_vectors (serving [aspirin; ibuprofen]) scenario
           "Amoxicillin" amoxicillin 2 5 true).
  - exact serving_pair_trained.
  - vm_compute; reflexivity.
  - vm_compute; reflexivity.
  - vm_compute. lia.
Defined.

Lemma load_then_train_witness :
  let loading :=
    load_database (L := exact_library) (Document (Some scenario))
                  (init "medicines.json") in
  let training := train_model (self_after loading) in
  value loading = Returns true /\
  trained (self_after training) /\
  medicines (self_after training) = default [] (Some scenario) /\
  default [] (Some scenario) <> [].
Proof.
  apply (load_then_train (L := exact_library) (init "medicines.json") (Some scenario)).
  vm_compute; reflexivity.
Defined.

Lemma startup_ready_witness :
  let self := init (L := exact_library) "medicines.json" in
  exists data,
    Document (Some scenario) = Document data /\
    default [] data <> [] /\
    medicines (self_after (startup (Document (Some scenario)) self)) = default [] data /\
    trained (self_after (startup (Document (Some scenario)) self)).
Proof.
  apply (startup_ready (L := exact_library) (init "medicines.json")
           (Document (Some scenario))).
  vm_compute; reflexivity.
Defined.


Lemma turn_not_found_witness :
  turn int_of_numeral "Paracetamol" "3" (serving scenario) =
  Outcome (Returns Continue) (serving scenario)
    [Wrote (rule "-");
     Asked "Enter medicine name (or 'quit' to exit): ";
     Asked "Number of recommendations (default: 5): ";
     Wrote (String "010" (rule "="));
     Wrote "Searching...";
     Wrote (rule "=");
     Said (MedicineNotFound (Text.strip "Paracetamol"));
     Wrote (String "010" "No recommendations found for '"
            ++ Text.strip "Paracetamol" ++ "'.")%string;
     Wrote "The medicine might not exist in the database.";
     Wrote (String "010" "")].
Proof.
  apply (turn_not_found int_of_numeral (serving scenario) "Paracetamol" "3").
  - exact serving_scenario_trained.
  - vm_compute. discriminate.
  - vm_compute. intros Hin. repeat (apply elem_of_cons in Hin as [Hin|Hin]; [discriminate|]).
    by apply elem_of_nil in Hin.
  - vm_compute. repeat constructor.
Defined.

Lemma turn_frame_witness :
  let after := turn int_of_numeral "QUIT " "" (serving scenario) in
  self_after after = serving scenario /\
  (value after = Returns Break <->
   Text.lower (Text.strip "QUIT ") ∈ ["quit"; "exit"; "q"]) /\
  (value after = Returns Continue <->
   Text.lower (Text.strip "QUIT ") ∉ ["quit"; "exit"; "q"]).
Proof.
  apply (turn_frame int_of_numeral (serving scenario) "QUIT " "").
  exact serving_scenario_trained.
Defined.

Lemma ordered_union_spec (a b : list string) (x : string) :
  x ∈ ordered_union a b <-> x ∈ a \/ x ∈ b.
Proof. unfold ordered_union. by rewrite elem_of_remove_dups, elem_of_app. Qed.

Lemma add_medicine_from_dict_distinct_witness :
  NoDup ((fun m => Text.lower (name m)) <$>
         ManualCurator.medicines
           (self_after (ManualCurator.add_medicine_from_dict
                          sample_mappings sample_required cetirizine
                          (curator scenario)))).
Proof.
  apply (add_medicine_from_dict_distinct sample_mappings sample_required
           (curator scenario) cetirizine).
  - vm_compute. repeat constructor.
  - refine (bool_decide_unpack _ _). vm_compute. exact I.
Defined.

(** Without the condition on whitespace the names can collide: ["Aspirin "]
    is no duplicate of ["aspirin "] for [check_duplicate], which strips only
    the name it is given. *)
Example add_medicine_from_dict_padded_name :
  let added :=
    ManualCurator.add_medicine_from_dict sample_mappings sample_required
      (Medicine "Aspirin " ["fever"] ["acetylsalicylic acid"] None None)
      (curator [aspirin_padded]) in
  (exists message, value added = Returns (true, message)) /\
  (fun m => Text.lower (name m)) <$> ManualCurator.medicines (self_after added) =
  ["aspirin "; "aspirin "].
Proof. split; [eexists|]; vm_compute; reflexivity. Qed.

Lemma detect_duplicates_none_witness :
  (DataValidator.detect_duplicates (validator scenario) = [] <->
   NoDup ((fun m => Text.strip (Text.lower (name m))) <$>
          DataValidator.medicines (validator scenario))) /\
  (DataValidator.detect_duplicates (validator scenario) = [] ->
   NoDup ((fun m => Text.lower (name m)) <$>
          DataValidator.medicines (validator scenario))).
Proof.
  apply (detect_duplicates_none (validator scenario)).
  vm_compute. repeat (constructor; [discriminate|]). constructor.
Defined.

Example detect_duplicates_sample :
  DataValidator.detect_duplicates
    (validator [aspirin; ibuprofen; aspirin_again; aspirin_lowercase]) =
  [DataValidator.Duplicate "aspirin" 3 [0; 2; 3]].
Proof. vm_compute; reflexivity. Qed.

Lemma detect_duplicates_clean_excludes_witness :
  exists recs,
    value (recommend_similar "aspirin" 5 true (serving scenario)) = Returns recs /\
    aspirin ∉ recs.*1.
Proof.
  apply (detect_duplicates_clean_excludes (validator scenario) (serving scenario)
           "aspirin" 5 aspirin).
  - exact serving_scenario_trained.
  - vm_compute; reflexivity.
  - vm_compute. repeat (constructor; [discriminate|]). constructor.
  - vm_compute; reflexivity.
  - vm_compute; reflexivity.
Defined.

Lemma merge_duplicates_clears_report_witness :
  let merged_catalogue :=
    DataEnricher.medicines
      (self_after (DataEnricher.merge_duplicates ordered_union
                     (enricher [aspirin; ibuprofen; aspirin_again]))) in
  DataValidator.detect_duplicates (validator merged_catalogue) = [] /\
  NoDup ((fun m => Text.lower (name m)) <$>
         DataValidator.medicines (validator merged_catalogue)).
Proof.
  apply (merge_duplicates_clears_report ordered_union
           (enricher [aspirin; ibuprofen; aspirin_again])).
  reflexivity.
Defined.

Example merge_duplicates_sample :
  DataEnricher.merge_duplicates ordered_union
    (enricher [aspirin; ibuprofen; aspirin_again]) =
  let merged_catalogue :=
    [Medicine "Aspirin" ["pain relief"; "fever"; "headache"]
              ["acetylsalicylic acid"; "starch"]
              (Some "Analgesic") (Some "A second entry");
     ibuprofen] in
  Outcome (Returns 1) (enricher merged_catalogue)
          [Saved "medicines.json" merged_catalogue].
Proof. vm_compute; reflexivity. Qed.

Lemma merge_duplicates_gathers_witness :
  let self := enricher [aspirin; ibuprofen; aspirin_again] in
  let r := Medicine "Aspirin" ["pain relief"; "fever"; "headache"]
                    ["acetylsalicylic acid"; "starch"]
                    (Some "Analgesic") (Some "A second entry") in
  (forall u, u ∈ uses r <->
     exists m, m ∈ DataEnricher.medicines self /\
               Text.strip (Text.lower (name m)) = Text.strip (Text.lower (name r)) /\
               u ∈ uses m) /\
  (forall c, c ∈ components r <->
     exists m, m ∈ DataEnricher.medicines self /\
               Text.strip (Text.lower (name m)) = Text.strip (Text.lower (name r)) /\
               c ∈ components m).
Proof.
  apply (merge_duplicates_gathers ordered_union ordered_union_spec
           (enricher [aspirin; ibuprofen; aspirin_again])).
  vm_compute. left.
Defined.

(** Duplicate uses are removed in memory even when no term is standardised,
    and then the file is not written. *)
Example standardize_uses_unsaved :
  DataEnricher.standardize_uses sample_terms
    (enricher [Medicine "Aspirin" ["Fever"; "fever"] [] None None]) =
  Outcome (Returns 0) (enricher [Medicine "Aspirin" ["Fever"] [] None None]) [].
Proof. vm_compute; reflexivity. Qed.

Example standardize_uses_sample :
  DataEnricher.standardize_uses sample_terms
    (enricher [Medicine "Aspirin" [" High Temperature"; "fever"; "Aches"] [] None None]) =
  let catalogue := [Medicine "Aspirin" ["fever"; "pain relief"] [] None None] in
  Outcome (Returns 2) (enricher catalogue) [Saved "medicines.json" catalogue].
Proof. vm_compute; reflexivity. Qed.

(** A record without a category receives the one its uses suggest; a
    record whose uses suggest none is left as it is. *)
Example add_missing_categories_sample :
  DataEnricher.add_missing_categories sample_mappings
    (enricher [Medicine "Panadol" ["pain relief"] [] None None; aspirin_lowercase]) =
  let catalogue :=
    [Medicine "Panadol" ["pain relief"] [] (Some "Analgesic") None;
     aspirin_lowercase] in
  Outcome (Returns 1) (enricher catalogue) [Saved "medicines.json" catalogue].
Proof. vm_compute; reflexivity. Qed.

Lemma fill_missing_fields_settles_witness :
  let self := enricher [aspirin_lowercase; ibuprofen] in
  let o := DataEnricher.fill_missing_fields sample_mappings self in
  let after := DataEnricher.medicines (self_after o) in
  value o =
    Returns (length (filter (fun m => truthy (category m) = false)
                            (DataEnricher.medicines self)), 0) /\
  Forall (fun m => truthy (category m) = true) after /\
  length after = length (DataEnricher.medicines self) /\
  (forall i m, DataEnricher.medicines self !! i = Some m ->
     exists m', after !! i = Some m' /\
       name m' = name m /\ uses m' = uses m /\ components m' = components m /\
       description m' = description m /\
       (truthy (category m) = true -> m' = m)) /\
  DataEnricher.fill_missing_fields sample_mappings (self_after o) =
  Outcome (Returns (0, 0)) (self_after o) [].
Proof.
  apply (fill_missing_fields_settles sample_mappings
           (enricher [aspirin_lowercase; ibuprofen])).
  repeat (constructor; [discriminate|]). constructor.
Defined.

Lemma all_medicines_distinct_witness :
  let fetched := [aspirin_lowercase; cetirizine] in
  NoDup ((fun m => Text.lower (name m)) <$> all_medicines scenario fetched) /\
  take (length scenario) (all_medicines scenario fetched) = scenario /\
  (forall m, m ∈ drop (length scenario) (all_medicines scenario fetched) <->
             m ∈ fetched /\
             Text.lower (name m) ∉ (fun m => Text.lower (name m)) <$> scenario).
Proof.
  apply (all_medicines_distinct scenario [aspirin_lowercase; cetirizine]).
  - refine (bool_decide_unpack _ _). vm_compute. exact I.
  - refine (bool_decide_unpack _ _). vm_compute. exact I.
Defined.

Example all_medicines_sample :
  all_medicines scenario [aspirin_lowercase; cetirizine] =
  [aspirin; ibuprofen; amoxicillin; cetirizine].
Proof. vm_compute; reflexivity. Qed.
